(** * PyLeagueV2: a shallow embedding of the crawler and its properties

    The development follows the four source files of the repository:

    - [treatment.py]: the transformers [get_rating_list], [get_match_info],
      [get_player_info] and [get_player_stats];
    - [database.py]: the tables and the query and update functions;
    - [fetch.py]: [BaseFetcher.fetch] and [MainRegionFetcher];
    - [main.py]: the loop of [main_region_fetching].

    Python values are an inductive type, exceptions are data, and code that
    can raise, read the clock, talk to the API or touch the tables is written
    in a state-and-exception monad.  All definitions come first; the
    properties follow in the second half of the file. *)

From stdpp Require Import base strings gmap list numbers pretty.
From Stdlib Require Import ZArith QArith Lia Ascii.

#[local] Set Warnings "-register-all".
#[local] Open Scope Z_scope.

(** ** Python values *)

(** What [response.json()] returns, plus the two kinds of value the
    transformers build themselves: [datetime] objects (microseconds since the
    epoch) and library objects of which only the identity matters.  A float
    is kept as the rational it denotes: rounding and overflow of floats are
    not modelled. *)
Inductive value : Type :=
| VNone
| VBool (b : bool)
| VInt (z : Z)
| VFloat (q : Q)
| VStr (s : string)
| VList (l : list value)
| VDict (kv : list (string * value))
| VDatetime (t : Z)
| VOpaque (name : string).

(** The requests the fetchers build with their f-strings, kept in decoded
    form: one constructor per endpoint, one argument per interpolated
    expression.  [count=100] and [queue=420] are literals of the source. *)
Inductive url : Type :=
| UrlMatchList (region : string) (puuid : value) (startTime : Z)
               (queue : Z) (start : Z) (count : Z)
| UrlMatchData (region : string) (match_id : value).

(** Exceptions.  [ExceptionCtx prefix e] is [Exception(f"<prefix>: {e}")],
    the shape of most re-raises in the repository; [ExceptionMatch] is the
    re-raise of [get_match_info], which also names the match, and
    [ExceptionStatus] the exception raised by [fetch] itself. *)
Inductive exn : Type :=
| KeyError (k : string)
| IndexError
| TypeError
| ValueError
| OverflowError
| ZeroDivisionError
| AttributeError (name : string)
| RequestException
| SQLAlchemyError
| ExceptionStatus (status : Z) (u : url)
| ExceptionMatch (match_id : value) (e : exn)
| ExceptionCtx (prefix : string) (e : exn).

(** Outcome of a computation: a value, an exception, or [Stuck] when the
    model itself cannot go on (no scripted reply left, no fuel left). *)
Inductive res (A : Type) : Type :=
| Ok (a : A)
| Raise (e : exn)
| Stuck.
Arguments Ok {A} a.
Arguments Raise {A} e.
Arguments Stuck {A}.

Definition res_bind {A B} (r : res A) (k : A -> res B) : res B :=
  match r with
  | Ok a => k a
  | Raise e => Raise e
  | Stuck => Stuck
  end.

Definition res_map {A B} (f : A -> B) (r : res A) : res B :=
  res_bind r (fun a => Ok (f a)).

(** [try: r except Exception as e: raise Exception(f"<prefix>: {e}")]. *)
Definition reraise {A} (prefix : string) (r : res A) : res A :=
  match r with
  | Raise e => Raise (ExceptionCtx prefix e)
  | _ => r
  end.

Declare Scope res_scope.
Delimit Scope res_scope with res.
Notation "'let?' x ':=' c1 'in' c2" := (res_bind c1 (fun x => c2))
  (at level 10, x name, c1 at level 100, c2 at level 200) : res_scope.
#[local] Open Scope res_scope.

(** ** Built-in operations of the language *)

Definition lookup_key (k : string) (kv : list (string * value)) : option value :=
  match List.find (fun p => String.eqb (fst p) k) kv with
  | Some p => Some (snd p)
  | None => None
  end.

(** [d[k]] with a string key. *)
Definition getitem (d : value) (k : string) : res value :=
  match d with
  | VDict kv =>
      match lookup_key k kv with
      | Some v => Ok v
      | None => Raise (KeyError k)
      end
  | _ => Raise TypeError
  end.

Fixpoint chars (s : string) : list value :=
  match s with
  | EmptyString => []
  | String a s' => VStr (String a EmptyString) :: chars s'
  end.

(** [l[i]] with a literal non-negative index. *)
Definition getindex (l : value) (i : nat) : res value :=
  match l with
  | VList xs =>
      match List.nth_error xs i with
      | Some v => Ok v
      | None => Raise IndexError
      end
  | VStr s =>
      match List.nth_error (chars s) i with
      | Some v => Ok v
      | None => Raise IndexError
      end
  | VDict _ => Raise (KeyError (pretty (Z.of_nat i)))
  | _ => Raise TypeError
  end.

(** The items a [for] loop (or [list.extend]) draws from a value. *)
Definition iterate (v : value) : res (list value) :=
  match v with
  | VList xs => Ok xs
  | VDict kv => Ok (List.map (fun p => VStr (fst p)) kv)
  | VStr s => Ok (chars s)
  | _ => Raise TypeError
  end.

(** Truth value of an object, as [not], [if] and [and] use it. *)
Definition truthy (v : value) : bool :=
  match v with
  | VNone => false
  | VBool b => b
  | VInt z => negb (z =? 0)
  | VFloat q => negb (Qeq_bool q 0)
  | VStr s => negb (String.eqb s "")
  | VList l => match l with [] => false | _ => true end
  | VDict kv => match kv with [] => false | _ => true end
  | VDatetime _ => true
  | VOpaque _ => true
  end.

Definition digit_of (a : ascii) : option Z :=
  let n := Z.of_nat (nat_of_ascii a) in
  if (48 <=? n) && (n <=? 57) then Some (n - 48) else None.

Fixpoint parse_digits (s : string) (acc : Z) : option Z :=
  match s with
  | EmptyString => Some acc
  | String a s' =>
      match digit_of a with
      | Some d => parse_digits s' (10 * acc + d)
      | None => None
      end
  end.

(** [int(s)] on a string, for plain decimal literals with an optional sign
    (surrounding blanks and digit separators are not covered). *)
Definition parse_int (s : string) : option Z :=
  match s with
  | EmptyString => None
  | String "-" EmptyString => None
  | String "+" EmptyString => None
  | String "-" s' => Z.opp <$> parse_digits s' 0
  | String "+" s' => parse_digits s' 0
  | _ => parse_digits s 0
  end.

(** Truncation toward zero, as [int] does on a float. *)
Definition Qtrunc (q : Q) : Z := Z.quot (Qnum q) (Zpos (Qden q)).

(** [int(v)]. *)
Definition py_int (v : value) : res Z :=
  match v with
  | VBool b => Ok (if b then 1 else 0)
  | VInt z => Ok z
  | VFloat q => Ok (Qtrunc q)
  | VStr s =>
      match parse_int s with
      | Some z => Ok z
      | None => Raise ValueError
      end
  | _ => Raise TypeError
  end.

(** The number a numeric operand stands for. *)
Definition as_number (v : value) : option Q :=
  match v with
  | VBool b => Some (inject_Z (if b then 1 else 0))
  | VInt z => Some (inject_Z z)
  | VFloat q => Some q
  | _ => None
  end.

(** [a / b]: true division, a float or [ZeroDivisionError]. *)
Definition truediv (a b : value) : res value :=
  match as_number a, as_number b with
  | Some x, Some y =>
      if Qeq_bool y 0 then Raise ZeroDivisionError
      else Ok (VFloat (Qred (x / y)))
  | _, _ => Raise TypeError
  end.

(** [a + b] on numbers. *)
Definition py_add (a b : value) : res value :=
  match a, b with
  | (VInt _ | VBool _), (VInt _ | VBool _) =>
      let? x := py_int a in let? y := py_int b in Ok (VInt (x + y))
  | _, _ =>
      match as_number a, as_number b with
      | Some x, Some y => Ok (VFloat (Qred (x + y)))
      | _, _ => Raise TypeError
      end
  end.

(** [a < b] for the operand kinds that are ordered with each other. *)
Definition py_lt (a b : value) : res bool :=
  match a, b with
  | VDatetime s, VDatetime t => Ok (s <? t)
  | VStr s, VStr t => Ok (String.ltb s t)
  | _, _ =>
      match as_number a, as_number b with
      | Some x, Some y => Ok (negb (Qle_bool y x))
      | _, _ => Raise TypeError
      end
  end.

Definition py_gt (a b : value) : res bool := py_lt b a.

Definition py_ge (a b : value) : res bool :=
  match a, b with
  | VDatetime s, VDatetime t => Ok (t <=? s)
  | VStr s, VStr t => Ok (negb (String.ltb s t))
  | _, _ =>
      match as_number a, as_number b with
      | Some x, Some y => Ok (Qle_bool y x)
      | _, _ => Raise TypeError
      end
  end.

(** [a == b] on scalars: numbers by value, the rest by kind and content.
    Containers are never compared in the repository and compare unequal
    here. *)
Definition py_eq (a b : value) : bool :=
  match a, b with
  | VNone, VNone => true
  | VStr s, VStr t => String.eqb s t
  | VDatetime s, VDatetime t => s =? t
  | VOpaque s, VOpaque t => String.eqb s t
  | _, _ =>
      match as_number a, as_number b with
      | Some x, Some y => Qeq_bool x y
      | _, _ => false
      end
  end.

(** Nearest integer, ties to even. *)
Definition Qround_half_even (q : Q) : Z :=
  let n := Qnum q in
  let d := Zpos (Qden q) in
  let f := n / d in
  let r2 := 2 * (n mod d) in
  if r2 <? d then f
  else if d <? r2 then f + 1
  else if Z.even f then f else f + 1.

(** [datetime.datetime.fromtimestamp(t)]: seconds to a datetime, rounded to
    the microsecond.  The time zone and the platform's range limit are not
    modelled. *)
Definition fromtimestamp (t : value) : res Z :=
  match as_number t with
  | Some q => Ok (Qround_half_even (q * inject_Z 1000000))
  | None => Raise TypeError
  end.

(** [int(d.timestamp())] for a datetime: whole seconds. *)
Definition timestamp_seconds (t : Z) : Z := Z.quot t 1000000.

(** A chain of subscripts [v[a][b]...], each a string key or a literal
    index. *)
Inductive sel : Type :=
| K (k : string)
| I (i : nat).

Fixpoint subscript (v : value) (path : list sel) : res value :=
  match path with
  | [] => Ok v
  | K k :: path' => let? x := getitem v k in subscript x path'
  | I i :: path' => let? x := getindex v i in subscript x path'
  end.

(** A dict display [{k1: e1, k2: e2, ...}]: the entries are evaluated from
    first to last and the first exception ends the evaluation. *)
Fixpoint dict_display (entries : list (string * res value))
  : res (list (string * value)) :=
  match entries with
  | [] => Ok []
  | (k, e) :: rest =>
      let? v := e in
      let? vs := dict_display rest in
      Ok ((k, v) :: vs)
  end.

(** The body of a [for] loop that appends one result per item. *)
Fixpoint for_each {A B} (f : A -> res B) (items : list A) : res (list B) :=
  match items with
  | [] => Ok []
  | x :: rest =>
      let? y := f x in
      let? ys := for_each f rest in
      Ok (y :: ys)
  end.

(** ** treatment.py: the transformers *)

(** The dict built by [get_match_info]; it is also a row of [matches]. *)
Record match_info : Type := {
  gameVersion : value;
  matchId : value;
  matchStart : Z;
  matchDuration : value;
  matchWinner : bool;
  matchSurrender : value;
  matchRemake : value
}.

(** The dict built by [get_player_info]. *)
Record player_info : Type := {
  puuid : value;
  summonerId : value;
  gameName : value;
  tagLine : value;
  profileIconId : value;
  summonerLevel : value;
  region : value
}.

(** The dict built per entry by [get_rating_list]. *)
Record rating : Type := {
  r_tier : value;
  r_rank : value;
  r_wins : value;
  r_losses : value;
  r_leaguePoints : value;
  r_summonerId : value;
  r_region : value
}.

(** The [try] block of [get_match_info]. *)
Definition get_match_info_body (data : value) : res (option match_info) :=
  let? result := subscript data [K "info"; K "endOfGameResult"] in
  if negb (py_eq result (VStr "Abort_Unexpected")) then
    let? v_gameVersion := subscript data [K "info"; K "gameVersion"] in
    let? v_matchId := subscript data [K "metadata"; K "matchId"] in
    let? creation := subscript data [K "info"; K "gameCreation"] in
    let? seconds := truediv creation (VInt 1000) in
    let? v_matchStart := fromtimestamp seconds in
    let? v_matchDuration := subscript data [K "info"; K "gameDuration"] in
    let? win := subscript data [K "info"; K "teams"; I 0; K "win"] in
    let? v_matchSurrender :=
      subscript data [K "info"; K "participants"; I 0; K "gameEndedInSurrender"] in
    let? v_matchRemake :=
      subscript data [K "info"; K "participants"; I 0; K "gameEndedInEarlySurrender"] in
    Ok (Some {| gameVersion := v_gameVersion;
                matchId := v_matchId;
                matchStart := v_matchStart;
                matchDuration := v_matchDuration;
                matchWinner := negb (truthy win);
                matchSurrender := v_matchSurrender;
                matchRemake := v_matchRemake |})
  else Ok None.

(** [get_match_info]: the handler reads the match id again before it
    re-raises, so a payload without one raises from the handler. *)
Definition get_match_info (data : value) : res (option match_info) :=
  match get_match_info_body data with
  | Raise e =>
      let? match_id := subscript data [K "metadata"; K "matchId"] in
      Raise (ExceptionMatch match_id e)
  | r => r
  end.

Definition get_player_info_of (data participant : value) : res player_info :=
  let? v_puuid := getitem participant "puuid" in
  let? v_summonerId := getitem participant "summonerId" in
  let? v_gameName := getitem participant "riotIdGameName" in
  let? v_tagLine := getitem participant "riotIdTagline" in
  let? v_profileIconId := getitem participant "profileIcon" in
  let? v_summonerLevel := getitem participant "summonerLevel" in
  let? v_region := subscript data [K "info"; K "platformId"] in
  Ok {| puuid := v_puuid;
        summonerId := v_summonerId;
        gameName := v_gameName;
        tagLine := v_tagLine;
        profileIconId := v_profileIconId;
        summonerLevel := v_summonerLevel;
        region := v_region |}.

Definition get_player_info (data : value) : res (list player_info) :=
  reraise "Error on the treatment of data for player information"
    (let? participants := subscript data [K "info"; K "participants"] in
     let? items := iterate participants in
     for_each (get_player_info_of data) items).

(** [int(a) + int(b)], operands in source order. *)
Definition int_sum (a b : res value) : res Z :=
  let? x := a in
  let? m := py_int x in
  let? y := b in
  let? n := py_int y in
  Ok (m + n).

(** The entry [csPerMin]: the creep score, then the duration in minutes,
    then the quotient. *)
Definition csPerMin (data participant : value) : res value :=
  let? cs := int_sum (subscript participant [K "totalMinionsKilled"])
                     (subscript participant [K "neutralMinionsKilled"]) in
  let? duration := subscript data [K "info"; K "gameDuration"] in
  let? seconds := py_int duration in
  let? minutes := truediv (VInt seconds) (VInt 60) in
  truediv (VInt cs) minutes.

(** The dict display of [get_player_stats], entry by entry. *)
Definition player_stats_entries (data participant : value)
  : list (string * res value) :=
  let p := subscript participant in
  [ ("playerId", p [K "puuid"]);
    ("matchId", subscript data [K "metadata"; K "matchId"]);
    ("championId", p [K "championId"]);
    ("kills", p [K "kills"]);
    ("deaths", p [K "deaths"]);
    ("assists", p [K "assists"]);
    ("goldEarned", p [K "goldEarned"]);
    ("goldSpent", p [K "goldSpent"]);
    ("totalDamage", p [K "totalDamageDealtToChampions"]);
    ("item0", p [K "item0"]);
    ("item1", p [K "item1"]);
    ("item2", p [K "item2"]);
    ("item3", p [K "item3"]);
    ("item4", p [K "item4"]);
    ("item5", p [K "item5"]);
    ("item6", p [K "item6"]);
    ("defense", p [K "perks"; K "statPerks"; K "defense"]);
    ("flex", p [K "perks"; K "statPerks"; K "flex"]);
    ("offense", p [K "perks"; K "statPerks"; K "offense"]);
    ("runeTree", p [K "perks"; K "styles"; I 0; K "style"]);
    ("main0", p [K "perks"; K "styles"; I 0; K "selections"; I 0; K "perk"]);
    ("main1", p [K "perks"; K "styles"; I 0; K "selections"; I 1; K "perk"]);
    ("main2", p [K "perks"; K "styles"; I 0; K "selections"; I 2; K "perk"]);
    ("main3", p [K "perks"; K "styles"; I 0; K "selections"; I 3; K "perk"]);
    ("subTree", p [K "perks"; K "styles"; I 1; K "style"]);
    ("sub1", p [K "perks"; K "styles"; I 1; K "selections"; I 0; K "perk"]);
    ("sub2", p [K "perks"; K "styles"; I 1; K "selections"; I 1; K "perk"]);
    ("spell1", p [K "summoner1Id"]);
    ("spell2", p [K "summoner2Id"]);
    ("neutralMinionsKilled", p [K "neutralMinionsKilled"]);
    ("totalMinionsKilled", p [K "totalMinionsKilled"]);
    ("totalCs",
      res_map VInt (int_sum (p [K "totalMinionsKilled"])
                            (p [K "neutralMinionsKilled"])));
    ("csPerMin", csPerMin data participant);
    ("visionScore", p [K "visionScore"]);
    ("controlWardsPlaced", p [K "challenges"; K "controlWardsPlaced"]);
    ("wardsPlaced", p [K "wardsPlaced"]);
    ("wardsKilled", p [K "wardsKilled"]);
    ("teamPosition", p [K "teamPosition"]);
    ("team",
      res_map (fun t => VBool (py_eq t (VInt 200))) (p [K "teamId"])) ].

Definition get_player_stats (data : value) : res (list (list (string * value))) :=
  reraise "Error on the treatment of data for player stats list"
    (let? participants := subscript data [K "info"; K "participants"] in
     let? items := iterate participants in
     for_each (fun participant =>
                 dict_display (player_stats_entries data participant))
              items).

(** ** database.py: tables, queries and updates *)

(** A row of [players]: the columns a player dict can set, and the fetch
    cursor.  Row ids are the positions in the table, counted from 1: rows
    are only ever appended. *)
Record Player : Type := {
  info : player_info;
  lastMatchFetch : Z
}.

(** A row of [ratings]. *)
Record Rating : Type := {
  entry : rating;
  fetchTime : Z
}.

Record DB : Type := {
  players : list Player;
  matches : list match_info;
  stats : list (list (string * value));
  ratings : list Rating
}.

Definition empty_db : DB :=
  {| players := []; matches := []; stats := []; ratings := [] |}.

(** The column default ["2024-05-1 00:00:01"], in microseconds. *)
Definition default_lastMatchFetch : Z := 1714521601000000.

(** Equality in a [filter] clause: a NULL equals nothing. *)
Definition sql_eq (a b : value) : bool :=
  match a, b with
  | VNone, _ | _, VNone => false
  | _, _ => py_eq a b
  end.

(** [column.in_(names)]. *)
Definition sql_in (a : value) (names : list string) : bool :=
  existsb (fun r => sql_eq a (VStr r)) names.

(** [.order_by(key).first()]: a row with the least key, the earliest of
    them in table order. *)
Fixpoint first_by {A} (key : A -> Z) (rows : list A) : option A :=
  match rows with
  | [] => None
  | x :: rest =>
      match first_by key rest with
      | Some y => if key y <? key x then Some y else Some x
      | None => Some x
      end
  end.

(** The [id] of the first row satisfying [p].  Rows are never deleted, so a
    row is identified by its position (from 1), and the position stands for
    its primary key.  The numbers the engine hands out are not modelled
    (its sequence can skip values): the properties only use that a lookup
    finds a row or not, and that two rows have two ids. *)
Fixpoint first_id {A} (p : A -> bool) (rows : list A) : option Z :=
  match rows with
  | [] => None
  | x :: rest => if p x then Some 1 else Z.succ <$> first_id p rest
  end.

(** Change the first row satisfying [p]. *)
Fixpoint update_first {A} (p : A -> bool) (f : A -> A) (rows : list A) : list A :=
  match rows with
  | [] => []
  | x :: rest => if p x then f x :: rest else x :: update_first p f rest
  end.

Definition has_puuid (id : value) (row : Player) : bool :=
  sql_eq (puuid (info row)) id.

Definition set_players (ps : list Player) (db : DB) : DB :=
  {| players := ps; matches := matches db; stats := stats db;
     ratings := ratings db |}.

(** The dict returned by [get_next_to_fetch]. *)
Record next_player : Type := {
  np_puuid : value;
  np_lastFetch : Z
}.

Definition get_next_to_fetch (regions : list string) (db : DB) : option next_player :=
  match first_by lastMatchFetch
          (List.filter (fun p => sql_in (region (info p)) regions) (players db)) with
  | Some player =>
      Some {| np_puuid := puuid (info player);
              np_lastFetch := lastMatchFetch player |}
  | None => None
  end.

(** [get_player_id]: reading [.id] of a missing row raises. *)
Definition get_player_id (id : value) (db : DB) : res value :=
  match first_id (has_puuid id) (players db) with
  | Some n => Ok (VInt n)
  | None => Raise (AttributeError "id")
  end.

Definition get_match_id (match_id : value) (db : DB) : res value :=
  match first_id (fun m => sql_eq (matchId m) match_id) (matches db) with
  | Some n => Ok (VInt n)
  | None => Raise (AttributeError "id")
  end.

(** [update_last_fetch]: [now] is the value of [func.now()] at the commit. *)
Definition update_last_fetch (now : Z) (id : value) (db : DB) : res unit * DB :=
  match List.find (has_puuid id) (players db) with
  | Some _ =>
      (Ok tt,
       set_players
         (update_first (has_puuid id)
            (fun p => {| info := info p; lastMatchFetch := now |})
            (players db))
         db)
  | None => (Raise (AttributeError "lastMatchFetch"), db)
  end.

(** [update_player_if_exists]: [None] for an unknown player, [True] for a
    known one; the row is rewritten when its cursor is later than
    [matchDate]. *)
Definition update_player_if_exists (player : player_info) (matchDate : Z) (db : DB)
  : value * DB :=
  match List.find (has_puuid (puuid player)) (players db) with
  | None => (VNone, db)
  | Some player_exists =>
      if matchDate <? lastMatchFetch player_exists then
        (VBool true,
         set_players
           (update_first (has_puuid (puuid player))
              (fun p =>
                 {| info := {| puuid := puuid (info p);
                               summonerId := summonerId player;
                               gameName := gameName player;
                               tagLine := tagLine player;
                               profileIconId := profileIconId player;
                               summonerLevel := summonerLevel player;
                               region := region player |};
                    lastMatchFetch := matchDate |})
              (players db))
           db)
      else (VBool true, db)
  end.

Definition match_on_db (match_id : value) (db : DB) : bool :=
  match List.find (fun m => sql_eq (matchId m) match_id) (matches db) with
  | Some _ => true
  | None => false
  end.

(** The [unique] and [nullable=False] constraints of [Player.puuid], checked
    row by row against the table and the rows already in the batch. *)
Fixpoint puuid_constraints (batch : list player_info) (present : list value) : bool :=
  match batch with
  | [] => true
  | p :: rest =>
      match puuid p with
      | VNone => false
      | id =>
          negb (existsb (sql_eq id) present)
          && puuid_constraints rest (id :: present)
      end
  end.

(** [insert_player_list]: all rows or none; a new row takes the default
    cursor.  The rejections modelled are those of the constraints on
    [puuid]; an engine can also reject a row for the length or the type of
    another column, which depends on the engine and is left out (as for
    [insert_match] and the bulk insert of [insert_stats_list]), so what is
    proved of an insert is proved for the case that it went through. *)
Definition insert_player_list (data_list : list player_info) (db : DB) : res unit * DB :=
  if puuid_constraints data_list (List.map (fun p => puuid (info p)) (players db)) then
    (Ok tt,
     set_players
       (players db ++
        List.map (fun p => {| info := p; lastMatchFetch := default_lastMatchFetch |})
                 data_list)
       db)
  else (Raise (ExceptionCtx "Error inserting data on model Player" SQLAlchemyError), db).

(** [insert_match], in the case that the engine accepts the row. *)
Definition insert_match (data : match_info) (db : DB) : DB :=
  {| players := players db; matches := matches db ++ [data];
     stats := stats db; ratings := ratings db |}.

Definition insert_player_rating_list (now : Z) (data_list : list rating) (db : DB) : DB :=
  {| players := players db; matches := matches db; stats := stats db;
     ratings := ratings db ++
                List.map (fun r => {| entry := r; fetchTime := now |}) data_list |}.

(** [stat[k] = v] on a dict. *)
Fixpoint setitem (k : string) (v : value) (kv : list (string * value))
  : list (string * value) :=
  match kv with
  | [] => [(k, v)]
  | (k', v') :: rest =>
      if String.eqb k' k then (k, v) :: rest else (k', v') :: setitem k v rest
  end.

(** The columns of [Stats] a mapping can set; other keys of a mapping are
    ignored by the bulk insert. *)
Definition stats_columns : list string :=
  [ "playerId"; "matchId"; "championId"; "kills"; "deaths"; "assists";
    "goldEarned"; "goldSpent"; "totalDamage"; "totalCs"; "spell1"; "spell2";
    "item0"; "item1"; "item2"; "item3"; "item4"; "item5"; "item6";
    "defense"; "flex"; "offense"; "runeTree"; "main0"; "main1"; "main2";
    "main3"; "subTree"; "sub1"; "sub2"; "visionScore"; "controlWardsPlaced";
    "wardsPlaced"; "wardsKilled"; "teamPosition"; "team" ].

Definition stats_row (stat : list (string * value)) : list (string * value) :=
  List.filter (fun p => existsb (String.eqb (fst p)) stats_columns) stat.

(** The loop of [insert_stats_list] on one mapping: both ids are looked up
    and written back. *)
Definition resolve_stat (db : DB) (stat : list (string * value))
  : res (list (string * value)) :=
  let? p := getitem (VDict stat) "playerId" in
  let? pid := get_player_id p db in
  let stat1 := setitem "playerId" pid stat in
  let? m := getitem (VDict stat1) "matchId" in
  let? mid := get_match_id m db in
  Ok (setitem "matchId" mid stat1).

(** [insert_stats_list]: the lookups, then the bulk insert, in the case that
    the engine accepts the rows. *)
Definition insert_stats_list (data_list : list (list (string * value))) (db : DB)
  : res unit * DB :=
  match for_each (resolve_stat db) data_list with
  | Ok resolved =>
      (Ok tt,
       {| players := players db; matches := matches db;
          stats := stats db ++ List.map stats_row resolved;
          ratings := ratings db |})
  | Raise e => (Raise e, db)
  | Stuck => (Stuck, db)
  end.

(** [insert_starting_point]: the bootstrap row built from a summoner
    payload; the columns it does not name stay NULL. *)
Definition insert_starting_point (player : value) (region_name : string) (db : DB)
  : res unit * DB :=
  match (let? v_puuid := getitem player "puuid" in
         let? v_icon := getitem player "profileIconId" in
         let? v_id := getitem player "id" in
         Ok {| puuid := v_puuid; summonerId := v_id; gameName := VNone;
               tagLine := VNone; profileIconId := v_icon;
               summonerLevel := VNone; region := VStr region_name |}) with
  | Ok new_player => insert_player_list [new_player] db
  | Raise e => (Raise e, db)
  | Stuck => (Stuck, db)
  end.

(** [rating_up_to_date]: the row that [order_by(Rating.fetchTime).first()]
    selects for the summoner is compared with the new entry. *)
Definition rating_up_to_date (new_rating : rating) (db : DB) : bool :=
  match first_by fetchTime
          (List.filter (fun r => sql_eq (r_summonerId (entry r)) (r_summonerId new_rating))
                       (ratings db)) with
  | Some last_rating =>
      py_eq (r_leaguePoints (entry last_rating)) (r_leaguePoints new_rating)
      && py_eq (r_wins (entry last_rating)) (r_wins new_rating)
      && py_eq (r_losses (entry last_rating)) (r_losses new_rating)
  | None => false
  end.

(** [get_rating_list] (treatment.py): it reads the table through
    [rating_up_to_date] and keeps the entries that are not up to date. *)
Definition new_rating_of (rating_response : value) (region_name : string)
    (high_rank : bool) (item : value) : res rating :=
  let? v_tier := if high_rank then getitem rating_response "tier"
                 else getitem item "tier" in
  let? v_rank := getitem item "rank" in
  let? v_wins := getitem item "wins" in
  let? v_losses := getitem item "losses" in
  let? v_leaguePoints := getitem item "leaguePoints" in
  let? v_summonerId := getitem item "summonerId" in
  Ok {| r_tier := v_tier; r_rank := v_rank; r_wins := v_wins;
        r_losses := v_losses; r_leaguePoints := v_leaguePoints;
        r_summonerId := v_summonerId; r_region := VStr region_name |}.

Fixpoint rating_loop (db : DB) (rating_response : value) (region_name : string)
    (high_rank : bool) (items : list value) (rating_list : list rating)
  : res (list rating) :=
  match items with
  | [] => Ok rating_list
  | item :: rest =>
      let? new_rating := new_rating_of rating_response region_name high_rank item in
      rating_loop db rating_response region_name high_rank rest
        (if negb (rating_up_to_date new_rating db)
         then rating_list ++ [new_rating] else rating_list)
  end.

Definition get_rating_list (db : DB) (rating_response : value) (region_name : string)
    (high_rank : bool) : res (list rating) :=
  reraise "Error on the treatment of data for rating list"
    (let? source := if high_rank then getitem rating_response "entries"
                    else Ok rating_response in
     let? items := iterate source in
     rating_loop db rating_response region_name high_rank items []).

(** One ladder response handled as [sub_region_fetching] does: transform,
    then insert what the transformer kept. *)
Definition store_ratings (now : Z) (rating_response : value) (region_name : string)
    (high_rank : bool) (db : DB) : res unit * DB :=
  match get_rating_list db rating_response region_name high_rank with
  | Ok treated_rating => (Ok tt, insert_player_rating_list now treated_rating db)
  | Raise e => (Raise e, db)
  | Stuck => (Stuck, db)
  end.

(** ** The world of a worker *)

(** An HTTP response, as far as [fetch] looks at it: the status, the
    [Retry-After] header if there is one, and the decoded body ([None] when
    the body is not JSON). *)
Record response : Type := {
  status_code : Z;
  retry_after : option string;
  body : option value
}.

(** What the network does with one request: a response after some time, or
    a failure of the transport. *)
Inductive reply : Type :=
| Replied (elapsed : N) (r : response)
| Failed (elapsed : N).

Inductive logline : Type :=
| LogRateLimit (region_of_self : value) (timer : value)
| LogAwaiting (cur_region : string)
| LogStartingMain (cur_region : string)
| LogNextPlayer
| LogMainError (cur_region : string) (e : exn).

(** What a worker does that can be observed from outside. *)
Inductive event : Type :=
| ESleep (seconds : value)
| EGet (u : url) (token : value)
| EPrint (line : logline).

(** The state a worker runs in: the attributes of its [BaseFetcher]
    instance, the replies the network will give (in order), the events so
    far, the clock (microseconds) and the tables. *)
Record World : Type := {
  w_self : gmap string value;
  w_script : list reply;
  w_trace : list event;
  w_clock : Z;
  w_db : DB
}.

Definition M (A : Type) : Type := World -> res A * World.

Definition ret {A} (a : A) : M A := fun w => (Ok a, w).

Definition bind {A B} (m : M A) (k : A -> M B) : M B :=
  fun w =>
    match m w with
    | (Ok a, w') => k a w'
    | (Raise e, w') => (Raise e, w')
    | (Stuck, w') => (Stuck, w')
    end.

Definition raise {A} (e : exn) : M A := fun w => (Raise e, w).

Definition stuck {A} : M A := fun w => (Stuck, w).

Definition lift {A} (r : res A) : M A := fun w => (r, w).

(** [try: m except Exception as e: h e]. *)
Definition try_except {A} (m : M A) (h : exn -> M A) : M A :=
  fun w =>
    match m w with
    | (Raise e, w') => h e w'
    | r => r
    end.

Declare Scope world_scope.
Delimit Scope world_scope with world.
Notation "'let*' x ':=' c1 'in' c2" := (bind c1 (fun x => c2))
  (at level 10, x name, c1 at level 100, c2 at level 200) : world_scope.
Notation "c1 ';;' c2" := (bind c1 (fun _ => c2))
  (at level 100, c2 at level 200, right associativity) : world_scope.
#[local] Open Scope world_scope.

Definition set_db (db : DB) (w : World) : World :=
  {| w_self := w_self w; w_script := w_script w; w_trace := w_trace w;
     w_clock := w_clock w; w_db := db |}.

Definition set_self (o : gmap string value) (w : World) : World :=
  {| w_self := o; w_script := w_script w; w_trace := w_trace w;
     w_clock := w_clock w; w_db := w_db w |}.

Definition emit (e : event) (dt : Z) (w : World) : World :=
  {| w_self := w_self w; w_script := w_script w; w_trace := w_trace w ++ [e];
     w_clock := w_clock w + dt; w_db := w_db w |}.

(** A query: it reads the tables. *)
Definition query {A} (f : DB -> A) : M A := fun w => (Ok (f (w_db w)), w).

(** A function of database.py that may raise and may write. *)
Definition with_db {A} (f : DB -> res A * DB) : M A :=
  fun w => let (r, db) := f (w_db w) in (r, set_db db w).

(** [func.now()]. *)
Definition now : M Z := fun w => (Ok (w_clock w), w).

Definition print (line : logline) : M unit :=
  fun w => (Ok tt, emit (EPrint line) 0 w).

Definition microseconds (q : Q) : Z :=
  Qnum (q * inject_Z 1000000) / Zpos (Qden (q * inject_Z 1000000)).

(** [time.sleep(seconds)]. *)
Definition sleep (seconds : value) : M unit :=
  fun w =>
    match as_number seconds with
    | Some q =>
        if Qle_bool 0 q then (Ok tt, emit (ESleep seconds) (microseconds q) w)
        else (Raise ValueError, w)
    | None => (Raise TypeError, w)
    end.

(** ** fetch.py *)

(** The attributes [BaseFetcher.__init__] sets. *)
Definition BaseFetcher_init (api_key : value) : gmap string value :=
  <["api_key" := api_key]>
    (<["retry_timer" := VInt 0]>
       (<["retry_count" := VInt 0]>
          (<["session" := VOpaque "requests.Session"]> ∅))).

(** The names the class itself defines. *)
Definition BaseFetcher_class : list string := ["__init__"; "fetch"; "close"].

(** [self.name]: the instance first, then the class. *)
Definition getattr (name : string) : M value :=
  fun w =>
    match w_self w !! name with
    | Some v => (Ok v, w)
    | None =>
        if existsb (String.eqb name) BaseFetcher_class
        then (Ok (VOpaque "method"), w)
        else (Raise (AttributeError name), w)
    end.

(** [self.name = v]. *)
Definition setattr (name : string) (v : value) : M unit :=
  fun w => (Ok tt, set_self (<[name := v]> (w_self w)) w).

(** [session.get(url, headers={"X-Riot-Token": token})]: the next reply of
    the script. *)
Definition session_get (u : url) (token : value) : M response :=
  fun w =>
    match w_script w with
    | [] => (Stuck, w)
    | r :: rest =>
        let w' :=
          {| w_self := w_self w; w_script := rest;
             w_trace := w_trace w ++ [EGet u token];
             w_clock := w_clock w +
                        Z.of_N (match r with Replied dt _ => dt | Failed dt => dt end);
             w_db := w_db w |} in
        match r with
        | Replied _ resp => (Ok resp, w')
        | Failed _ => (Raise RequestException, w')
        end
    end.

(** [response.json()]. *)
Definition response_json (r : response) : M value :=
  match body r with
  | Some v => ret v
  | None => raise ValueError
  end.

(** [response.headers.get("Retry-After", 1)]. *)
Definition retry_after_or_1 (r : response) : value :=
  match retry_after r with
  | Some s => VStr s
  | None => VInt 1
  end.

(** The loop of [BaseFetcher.fetch]; one unit of fuel per round. *)
Fixpoint fetch_loop (fuel : nat) (u : url) : M value :=
  match fuel with
  | O => stuck
  | S fuel' =>
      let* timer := getattr "retry_timer" in
      let* pending := lift (py_gt timer (VInt 0)) in
      (if pending then
         let* timer := getattr "retry_timer" in
         sleep timer;;
         setattr "retry_timer" (VInt 0)
       else ret tt);;
      let* _ := getattr "session" in
      let* api_key := getattr "api_key" in
      let* r := session_get u api_key in
      if status_code r =? 200 then
        setattr "retry_count" (VInt 0);;
        response_json r
      else if status_code r =? 429 then
        let* seconds := lift (py_int (retry_after_or_1 r)) in
        setattr "retry_timer" (VInt seconds);;
        let* region_of_self := getattr "region" in
        let* timer := getattr "retry_timer" in
        print (LogRateLimit region_of_self timer);;
        fetch_loop fuel' u
      else
        let* counter := getattr "retry_counter" in
        let* reached := lift (py_ge counter (VInt 2)) in
        if reached then raise (ExceptionStatus (status_code r) u)
        else
          let* counter := getattr "retry_counter" in
          let* counter' := lift (py_add counter (VInt 1)) in
          setattr "retry_counter" counter';;
          fetch_loop fuel' u
  end.

(** [BaseFetcher.fetch]: every round takes one reply from the script, so
    one more round than there are replies is all the loop can use. *)
Definition fetch (u : url) : M value :=
  fun w => fetch_loop (S (length (w_script w))) u w.

(** [MainRegionFetcher.get_match_list]. *)
Definition get_match_list (region_name : string) (id : value) (start_date : Z)
    (start_value : Z) : M value :=
  let timestamp := timestamp_seconds start_date in
  try_except
    (fetch (UrlMatchList region_name id timestamp 420 start_value 100))
    (fun e => raise (ExceptionCtx "Error occured on get_match_list" e)).

(** [MainRegionFetcher.get_match_data]. *)
Definition get_match_data (region_name : string) (match_id : value) : M value :=
  try_except
    (fetch (UrlMatchData region_name match_id))
    (fun e => raise (ExceptionCtx "Error occured on get_match_data" e)).

(** ** main.py: the worker of a main region *)

(** [next_player[key]]: subscripting [None] raises. *)
Definition subscript_next (next : option next_player) : M next_player :=
  match next with
  | Some np => ret np
  | None => raise TypeError
  end.

Definition is_not_None (v : value) : bool :=
  match v with
  | VNone => false
  | _ => true
  end.

(** The inner [while True] that collects the match list.  The two locals
    of the loop, [match_list] and [list_size], are passed along and both
    returned. *)
Fixpoint page_loop (fuel : nat) (cur_region : string) (next : option next_player)
    (match_list : list value) (list_size : Z) : M (list value * Z) :=
  match fuel with
  | O => stuck
  | S fuel' =>
      let* np := subscript_next next in
      let* matches :=
        get_match_list cur_region (np_puuid np) (np_lastFetch np) list_size in
      let* items := lift (iterate matches) in
      let match_list' := match_list ++ items in
      if is_not_None matches && (Z.of_nat (length items) =? 100)
      then page_loop fuel' cur_region next match_list' (list_size + 100)
      else ret (match_list', list_size)
  end.

(** The loop over [p_info] that builds [new_p_info]. *)
Fixpoint player_loop (p_info : list player_info) (match_start : Z)
    (new_p_info : list player_info) : M (list player_info) :=
  match p_info with
  | [] => ret new_p_info
  | player :: rest =>
      let* player_exists :=
        with_db (fun db =>
                   let (r, db') := update_player_if_exists player match_start db in
                   (Ok r, db')) in
      if py_eq player_exists (VBool true)
      then player_loop rest match_start new_p_info
      else player_loop rest match_start (new_p_info ++ [player])
  end.

(** The body of [for match in match_list] for a match that is not stored
    yet and whose payload has arrived. *)
Definition store_match (match_data : value) : M unit :=
  let* m_info := lift (get_match_info match_data) in
  match m_info with
  | None => ret tt
  | Some m_info =>
      let* p_info := lift (get_player_info match_data) in
      let* p_stats := lift (get_player_stats match_data) in
      let* new_p_info := player_loop p_info (matchStart m_info) [] in
      with_db (insert_player_list new_p_info);;
      with_db (fun db => (Ok tt, insert_match m_info db));;
      with_db (insert_stats_list p_stats)
  end.

(** [for match in match_list]. *)
Fixpoint match_loop (cur_region : string) (match_list : list value) : M unit :=
  match match_list with
  | [] => ret tt
  | m :: rest =>
      let* known := query (match_on_db m) in
      if known then match_loop cur_region rest
      else
        let* match_data := get_match_data cur_region m in
        store_match match_data;;
        match_loop cur_region rest
  end.

(** The inner [while True], started as the source starts it: an empty
    list and offset 0.  Every round takes at least one reply from the
    script, so one more round than there are replies is all it can use. *)
Definition collect_match_list (cur_region : string) (next : option next_player)
  : M (list value * Z) :=
  fun w => page_loop (S (length (w_script w))) cur_region next [] 0 w.

(** One round of the outer [while True]. *)
Definition crawl_iteration (cur_region : string) (sub_regions : list string) : M unit :=
  print LogNextPlayer;;
  let* next := query (get_next_to_fetch sub_regions) in
  let* collected := collect_match_list cur_region next in
  match_loop cur_region (fst collected);;
  let* np := subscript_next next in
  let* t := now in
  with_db (update_last_fetch t (np_puuid np)).

(** The outer [while True]: it has no exit of its own, so it ends by an
    exception or, in the model, by running out of fuel. *)
Fixpoint crawl_loop (fuel : nat) (cur_region : string) (sub_regions : list string)
  : M unit :=
  match fuel with
  | O => stuck
  | S fuel' =>
      crawl_iteration cur_region sub_regions;;
      crawl_loop fuel' cur_region sub_regions
  end.

(** The wait for a first player of the region. *)
Fixpoint await_start (fuel : nat) (cur_region : string) (sub_regions : list string)
  : M unit :=
  match fuel with
  | O => stuck
  | S fuel' =>
      let* next := query (get_next_to_fetch sub_regions) in
      match next with
      | None =>
          print (LogAwaiting cur_region);;
          sleep (VInt 15);;
          await_start fuel' cur_region sub_regions
      | Some _ => ret tt
      end
  end.

(** [main_fetcher = MainRegionFetcher(cur_region)]: a fresh [BaseFetcher]. *)
Definition new_fetcher (api_key : value) : M unit :=
  fun w => (Ok tt, set_self (BaseFetcher_init api_key) w).

(** What [main_region_fetching] does before its outer loop. *)
Definition start_worker (api_key : value) (fuel : nat) (cur_region : string)
    (sub_regions : list string) : M unit :=
  await_start fuel cur_region sub_regions;;
  print (LogStartingMain cur_region);;
  new_fetcher api_key.

(** [main_region_fetching], for the region dict [{cur_region: sub_regions}]:
    the statements of the function in its own thread.  The manager thread
    it starts first, and with it the sub-region workers and their writes
    to the tables, is not part of the model; what is proved of the tables
    is therefore proved of the outer loop ([crawl_loop]) and of its own
    writes, not of a whole run of the program.  The [try] encloses the
    whole body, loops included; its handler prints and the function
    returns. *)
Definition main_region_fetching (api_key : value) (fuel : nat) (cur_region : string)
    (sub_regions : list string) : M unit :=
  try_except
    (start_worker api_key fuel cur_region sub_regions;;
     crawl_loop fuel cur_region sub_regions)
    (fun e => print (LogMainError cur_region e)).

(** ** Sample data

    Payloads shaped like the ones the API returns, for running the model. *)

Definition sample_selections : value :=
  VList [ VDict [("perk", VInt 8005)]; VDict [("perk", VInt 9111)];
          VDict [("perk", VInt 9104)]; VDict [("perk", VInt 8014)] ].

Definition sample_perks : value :=
  VDict [ ("statPerks",
            VDict [("defense", VInt 5001); ("flex", VInt 5008); ("offense", VInt 5005)]);
          ("styles",
            VList [ VDict [("style", VInt 8000); ("selections", sample_selections)];
                    VDict [("style", VInt 8200); ("selections", sample_selections)] ]) ].

Definition sample_participant (id name : string) (team_id : Z) : value :=
  VDict [ ("puuid", VStr id); ("summonerId", VStr ("s-" +:+ id));
          ("riotIdGameName", VStr name); ("riotIdTagline", VStr "BR1");
          ("profileIcon", VInt 29); ("summonerLevel", VInt 310);
          ("championId", VInt 64); ("kills", VInt 7); ("deaths", VInt 3);
          ("assists", VInt 11); ("goldEarned", VInt 12000);
          ("goldSpent", VInt 11500); ("totalDamageDealtToChampions", VInt 21000);
          ("item0", VInt 1); ("item1", VInt 2); ("item2", VInt 3);
          ("item3", VInt 4); ("item4", VInt 5); ("item5", VInt 6);
          ("item6", VInt 7); ("perks", sample_perks);
          ("summoner1Id", VInt 4); ("summoner2Id", VInt 11);
          ("neutralMinionsKilled", VInt 120); ("totalMinionsKilled", VInt 30);
          ("visionScore", VInt 25);
          ("challenges", VDict [("controlWardsPlaced", VInt 2)]);
          ("wardsPlaced", VInt 9); ("wardsKilled", VInt 4);
          ("teamPosition", VStr "JUNGLE"); ("teamId", VInt team_id);
          ("gameEndedInSurrender", VBool false);
          ("gameEndedInEarlySurrender", VBool false) ].

Definition sample_match (id result : string) (creation duration : Z)
    (participants : list value) : value :=
  VDict [ ("metadata", VDict [("matchId", VStr id)]);
          ("info",
            VDict [ ("endOfGameResult", VStr result);
                    ("gameVersion", VStr "14.9.580");
                    ("gameCreation", VInt creation);
                    ("gameDuration", VInt duration);
                    ("platformId", VStr "br1");
                    ("teams", VList [VDict [("win", VBool true)];
                                     VDict [("win", VBool false)]]);
                    ("participants", VList participants) ]) ].

Definition sample_rating_entry (id : string) (points won lost : Z) : value :=
  VDict [ ("tier", VStr "DIAMOND"); ("rank", VStr "I"); ("wins", VInt won);
          ("losses", VInt lost); ("leaguePoints", VInt points);
          ("summonerId", VStr id) ].

Definition sample_player (id name : string) (cursor : Z) : Player :=
  {| info := {| puuid := VStr id; summonerId := VStr ("s-" +:+ id);
                gameName := VStr name; tagLine := VStr "BR1";
                profileIconId := VInt 7; summonerLevel := VInt 100;
                region := VStr "br1" |};
     lastMatchFetch := cursor |}.

Definition ok_reply (v : value) : reply :=
  Replied 0 {| status_code := 200; retry_after := None; body := Some v |}.

Definition status_reply (status : Z) (header : option string) : reply :=
  Replied 0 {| status_code := status; retry_after := header; body := None |}.

Definition fresh_world (api_key : value) (script : list reply) (clock : Z) (db : DB)
  : World :=
  {| w_self := BaseFetcher_init api_key; w_script := script; w_trace := [];
     w_clock := clock; w_db := db |}.

(** ** Notions used in the statements *)

(** The outcome is a value or an exception of the code, not a stop of the
    model. *)
Definition unstuck {A} (r : res A) : Prop := r <> Stuck.

(** The tables before and after [m] are related by [P], whatever the
    outcome. *)
Definition db_related (P : DB -> DB -> Prop) {A} (m : M A) : Prop :=
  forall w, P (w_db w) (w_db (snd (m w))).

(** The world once the request for [u] has been answered after [dt], with
    [self] as the attributes of the fetcher. *)
Definition world_after_request (w : World) (u : url) (token : value) (dt : N)
    (rest : list reply) (self : gmap string value) : World :=
  {| w_self := self; w_script := rest; w_trace := w_trace w ++ [EGet u token];
     w_clock := w_clock w + Z.of_N dt; w_db := w_db w |}.

(** The reply that carries one page of match ids. *)
Definition page_reply (p : N * list value) : reply :=
  Replied (fst p)
    {| status_code := 200; retry_after := None; body := Some (VList (snd p)) |}.

(** [n] requests for the match list of [np], at the offsets [size],
    [size + 100], ... *)
Fixpoint page_requests (cur_region : string) (np : next_player) (token : value)
    (size : Z) (n : nat) : list event :=
  match n with
  | O => []
  | S n' =>
      EGet (UrlMatchList cur_region (np_puuid np)
              (timestamp_seconds (np_lastFetch np)) 420 size 100) token
      :: page_requests cur_region np token (size + 100) n'
  end.

Definition total_elapsed (pages : list (N * list value)) : Z :=
  fold_right (fun p acc => Z.of_N (fst p) + acc) 0 pages.

(** The fetcher is idle and complete: no backoff pending, session and key
    in place. *)
Definition fetcher_ready (session api_key : value) (w : World) : Prop :=
  (exists timer, w_self w !! "retry_timer" = Some timer
                 /\ py_gt timer (VInt 0) = Ok false)
  /\ w_self w !! "session" = Some session
  /\ w_self w !! "api_key" = Some api_key.

(** A hundred match ids, ["BR1_00"] to ["BR1_99"]. *)
Definition sample_match_ids : list value :=
  List.map
    (fun n =>
       VStr ("BR1_" +:+
             String (ascii_of_nat (48 + n / 10))
               (String (ascii_of_nat (48 + n mod 10)) EmptyString)))
    (seq 0 100).

(** The row [update_player_if_exists] writes over a stored one: the
    columns of the observation, the puuid of the row, and the match date as
    the cursor. *)
Definition refreshed (player : player_info) (matchDate : Z) (row : Player) : Player :=
  {| info := {| puuid := puuid (info row);
                summonerId := summonerId player;
                gameName := gameName player;
                tagLine := tagLine player;
                profileIconId := profileIconId player;
                summonerLevel := summonerLevel player;
                region := region player |};
     lastMatchFetch := matchDate |}.

(** No cursor of [db] is later in [db']: the rows of [db] are still there,
    in place and under the same puuid, each with a cursor that is not later
    than before; [db'] may have more rows after them. *)
Definition cursors_not_advanced (db db' : DB) : Prop :=
  exists old new,
    players db' = old ++ new
    /\ Forall2 (fun row row' =>
                  puuid (info row') = puuid (info row)
                  /\ lastMatchFetch row' <= lastMatchFetch row)
               (players db) old.

Definition sample_rating_row (id : string) (points won lost : Z) (time : Z) : Rating :=
  {| entry := {| r_tier := VStr "DIAMOND"; r_rank := VStr "I"; r_wins := VInt won;
                 r_losses := VInt lost; r_leaguePoints := VInt points;
                 r_summonerId := VStr id; r_region := VStr "br1" |};
     fetchTime := time |}.

(** What is read off a stored rating in the examples. *)
Definition rating_summary (r : Rating) : value * value * value * Z :=
  (r_leaguePoints (entry r), r_wins (entry r), r_losses (entry r), fetchTime r).

(** A worker about to crawl for one known player: the list of one match is
    served, then [second] answers the request for the match, and two more
    replies would serve a later round. *)
Definition sample_crawl_world (second : reply) : World :=
  fresh_world (VStr "key")
    [ page_reply (0%N, [VStr "BR1_1"]);
      second;
      page_reply (0%N, [VStr "BR1_1"]);
      ok_reply (sample_match "BR1_1" "GameComplete" 1715000000000 1800
                  [sample_participant "p1" "Ann" 100]) ]
    1716000000000000
    (set_players [sample_player "p1" "Ann" default_lastMatchFetch] empty_db).

(** The number of rounds of the outer loop a trace shows: each round starts
    by printing its line. *)
Definition rounds_started (trace : list event) : nat :=
  length (List.filter (fun e => match e with
                                | EPrint LogNextPlayer => true
                                | _ => false
                                end) trace).

(** The entries of a display written before the entry for [k]. *)
Fixpoint entries_before (k : string) (entries : list (string * res value))
  : list (string * res value) :=
  match entries with
  | [] => []
  | (k', e) :: rest =>
      if String.eqb k' k then [] else (k', e) :: entries_before k rest
  end.

(** [m] keeps the property [Inv] of the world, whatever the outcome. *)
Definition maintains (Inv : World -> Prop) {A} (m : M A) : Prop :=
  forall w, Inv w -> Inv (snd (m w)).

(** No cursor lies in the future: the clock has passed the column default
    and every stored cursor. *)
Definition cursors_in_past (w : World) : Prop :=
  default_lastMatchFetch <= w_clock w
  /\ Forall (fun row => lastMatchFetch row <= w_clock w) (players (w_db w)).

(** [get_player_from_region_count]: the number of player rows of a region. *)
Definition get_player_from_region_count (region_name : string) (db : DB) : Z :=
  Z.of_nat
    (length (List.filter (fun p => sql_eq (region (info p)) (VStr region_name))
                         (players db))).

(** [main_region_is_started]: is there a player row in one of the regions? *)
Definition main_region_is_started (region_list : list string) (db : DB) : bool :=
  0 <? Z.of_nat
         (length (List.filter (fun p => sql_in (region (info p)) region_list)
                              (players db))).

(** The puuids of a table satisfy the constraints of the column: none is
    NULL and none equals an earlier one. *)
Definition unique_puuids (db : DB) : Prop :=
  puuid_constraints (List.map info (players db)) [] = true.

(** The entries [get_rating_list] goes through: those under ["entries"] for
    a high-rank response, the response itself otherwise. *)
Definition iterate_source (rating_response : value) (high_rank : bool)
  : res (list value) :=
  let? source := if high_rank then getitem rating_response "entries"
                 else Ok rating_response in
  iterate source.

(** The fetcher as [BaseFetcher.__init__] leaves it and a successful
    [fetch] keeps it: idle, session and key in place, and neither a
    [region] nor a [retry_counter] attribute. *)
Definition fetcher_as_built (session api_key : value) (w : World) : Prop :=
  fetcher_ready session api_key w
  /\ w_self w !! "region" = None
  /\ w_self w !! "retry_counter" = None.

(** The time a reply takes. *)
Definition reply_elapsed (rp : reply) : N :=
  match rp with
  | Replied dt _ => dt
  | Failed dt => dt
  end.

(** A row with the puuid [id] is in the table. *)
Definition known_puuid (id : value) (db : DB) : bool :=
  existsb (has_puuid id) (players db).

(** [db'] has everything [db] has: the rating, match and stats rows of
    [db] followed by new ones, and the player rows of [db], with their
    puuids, followed by new ones. *)
Definition appended_only (db db' : DB) : Prop :=
  (exists more, ratings db' = ratings db ++ more)
  /\ (exists more, matches db' = matches db ++ more)
  /\ (exists more, stats db' = stats db ++ more)
  /\ (exists more,
        List.map puuid (List.map info (players db'))
        = List.map puuid (List.map info (players db)) ++ more).

(** [k] rounds of the outer loop, one after the other, each of them
    completed. *)
Fixpoint crawl_rounds (k : nat) (cur_region : string) (sub_regions : list string)
  : M unit :=
  match k with
  | O => ret tt
  | S k' =>
      crawl_iteration cur_region sub_regions;;
      crawl_rounds k' cur_region sub_regions
  end.

(** * Properties *)

(** ** Selection of the next player *)

Section FirstBy.
Context {A : Type} (key : A -> Z).

Lemma first_by_None (rows : list A) : first_by key rows = None <-> rows = [].
Proof.
  destruct rows as [|x rest]; simpl; [tauto|].
  destruct (first_by key rest) as [y|]; [destruct (key y <? key x)|];
    split; intros H; discriminate H.
Qed.

Lemma first_by_In (rows : list A) (x : A) :
  first_by key rows = Some x -> In x rows.
Proof.
  revert x. induction rows as [|a rest IH]; simpl; intros x H; [discriminate|].
  destruct (first_by key rest) as [y|] eqn:E.
  - destruct (key y <? key a); injection H as <-; auto.
  - injection H as <-; auto.
Qed.

Lemma first_by_least (rows : list A) (x : A) :
  first_by key rows = Some x -> forall y, In y rows -> key x <= key y.
Proof.
  revert x. induction rows as [|a rest IH]; simpl; intros x H y Hy; [tauto|].
  destruct (first_by key rest) as [z|] eqn:E.
  - specialize (IH z eq_refl).
    destruct (key z <? key a) eqn:Hlt; injection H as <-.
    + apply Z.ltb_lt in Hlt. destruct Hy as [<-|Hy]; [lia|auto].
    + apply Z.ltb_ge in Hlt. destruct Hy as [<-|Hy]; [lia|].
      specialize (IH y Hy). lia.
  - injection H as <-. apply first_by_None in E. subst rest.
    destruct Hy as [<-|[]]. lia.
Qed.
End FirstBy.

(** C7: [get_next_to_fetch] answers [None] exactly when no player row lies in
    the queried regions; otherwise it answers with the puuid and cursor of a
    player row of those regions whose cursor is least among them. *)
Theorem get_next_to_fetch_least (regions : list string) (db : DB) :
  (get_next_to_fetch regions db = None <->
   forall p, In p (players db) -> sql_in (region (info p)) regions = false)
  /\
  (forall np, get_next_to_fetch regions db = Some np ->
     exists p, In p (players db)
       /\ sql_in (region (info p)) regions = true
       /\ np_puuid np = puuid (info p)
       /\ np_lastFetch np = lastMatchFetch p
       /\ forall q, In q (players db) ->
                    sql_in (region (info q)) regions = true ->
                    lastMatchFetch p <= lastMatchFetch q).
Proof.
  unfold get_next_to_fetch.
  set (eligible := List.filter _ (players db)).
  split.
  - destruct (first_by lastMatchFetch eligible) as [x|] eqn:E.
    + split; [discriminate|]. intros Hnone. exfalso.
      apply first_by_In in E. apply filter_In in E as [Hin Hreg].
      rewrite (Hnone x Hin) in Hreg. discriminate.
    + split; [|reflexivity]. intros _ p Hin.
      apply first_by_None in E.
      destruct (sql_in (region (info p)) regions) eqn:Hreg; [|reflexivity].
      assert (Hp : In p eligible) by (apply filter_In; auto).
      rewrite E in Hp. destruct Hp.
  - intros np H.
    destruct (first_by lastMatchFetch eligible) as [x|] eqn:E; [|discriminate].
    injection H as <-. exists x.
    pose proof (first_by_In _ _ _ E) as Hin.
    apply filter_In in Hin as [Hin Hreg].
    repeat split; auto.
    intros q Hq Hqreg. apply (first_by_least _ _ _ E).
    apply filter_In; auto.
Qed.

(** The scenario of C7 on two rows: the one with the earlier cursor is
    returned, whichever comes first in the table. *)
Example get_next_to_fetch_two_players :
  let early := sample_player "p1" "Ann" 1000 in
  let late := sample_player "p2" "Bob" 2000 in
  let db1 := set_players [early; late] empty_db in
  let db2 := set_players [late; early] empty_db in
  get_next_to_fetch ["br1"; "na1"] db1
    = Some {| np_puuid := VStr "p1"; np_lastFetch := 1000 |}
  /\ get_next_to_fetch ["br1"; "na1"] db2
    = Some {| np_puuid := VStr "p1"; np_lastFetch := 1000 |}
  /\ get_next_to_fetch ["kr"] db1 = None.
Proof. repeat split. Qed.

(** ** The transformers never get stuck *)

Lemma unstuck_Ok {A} (a : A) : unstuck (Ok a).
Proof. discriminate. Qed.

Lemma unstuck_Raise {A} (e : exn) : unstuck (@Raise A e).
Proof. discriminate. Qed.

Lemma unstuck_bind {A B} (r : res A) (k : A -> res B) :
  unstuck r -> (forall a, unstuck (k a)) -> unstuck (res_bind r k).
Proof.
  intros Hr Hk. destruct r; simpl; [apply Hk|apply unstuck_Raise|].
  contradiction Hr. reflexivity.
Qed.

Lemma unstuck_map {A B} (f : A -> B) (r : res A) :
  unstuck r -> unstuck (res_map f r).
Proof. intros H. apply unstuck_bind; auto using unstuck_Ok. Qed.

Lemma getitem_unstuck (d : value) (k : string) : unstuck (getitem d k).
Proof.
  destruct d; simpl; try apply unstuck_Raise.
  destruct (lookup_key k kv); [apply unstuck_Ok|apply unstuck_Raise].
Qed.

Lemma getindex_unstuck (l : value) (i : nat) : unstuck (getindex l i).
Proof.
  destruct l; simpl; try apply unstuck_Raise;
    match goal with
    | |- context [List.nth_error ?xs ?n] => destruct (List.nth_error xs n)
    end; first [apply unstuck_Ok | apply unstuck_Raise].
Qed.

Lemma subscript_unstuck (path : list sel) (v : value) : unstuck (subscript v path).
Proof.
  revert v. induction path as [|[k|i] path IH]; intros v; simpl.
  - apply unstuck_Ok.
  - apply unstuck_bind; auto using getitem_unstuck.
  - apply unstuck_bind; auto using getindex_unstuck.
Qed.

Lemma py_int_unstuck (v : value) : unstuck (py_int v).
Proof.
  destruct v; simpl; try first [apply unstuck_Ok | apply unstuck_Raise].
  destruct (parse_int s); [apply unstuck_Ok|apply unstuck_Raise].
Qed.

Lemma truediv_unstuck (a b : value) : unstuck (truediv a b).
Proof.
  unfold truediv.
  destruct (as_number a), (as_number b); try apply unstuck_Raise.
  destruct (Qeq_bool _ _); [apply unstuck_Raise|apply unstuck_Ok].
Qed.

Lemma int_sum_unstuck (a b : res value) :
  unstuck a -> unstuck b -> unstuck (int_sum a b).
Proof.
  intros Ha Hb. unfold int_sum.
  repeat (apply unstuck_bind; [auto using py_int_unstuck|intros ?]).
  apply unstuck_Ok.
Qed.

Lemma csPerMin_unstuck (data participant : value) : unstuck (csPerMin data participant).
Proof.
  unfold csPerMin.
  apply unstuck_bind;
    [apply int_sum_unstuck; apply subscript_unstuck|intros cs].
  apply unstuck_bind; [apply subscript_unstuck|intros d].
  apply unstuck_bind; [apply py_int_unstuck|intros s].
  apply unstuck_bind; [apply truediv_unstuck|intros m].
  apply truediv_unstuck.
Qed.

Lemma player_stats_entries_unstuck (data participant : value) :
  Forall (fun e => unstuck (snd e)) (player_stats_entries data participant).
Proof.
  unfold player_stats_entries.
  repeat (constructor; [cbn [snd];
    first [ apply subscript_unstuck
          | apply csPerMin_unstuck
          | apply unstuck_map;
            first [apply subscript_unstuck
                  | apply int_sum_unstuck; apply subscript_unstuck] ] |]).
  constructor.
Qed.

(** A display with an entry that raises, and none that is stuck, raises. *)
Lemma dict_display_raises (entries : list (string * res value)) :
  Forall (fun e => unstuck (snd e)) entries ->
  Exists (fun e => exists x, snd e = Raise x) entries ->
  exists x, dict_display entries = Raise x.
Proof.
  induction entries as [|[k e] rest IH]; intros Hall Hex.
  - inversion Hex.
  - inversion Hall as [|? ? He Hrest]; subst. simpl in He. simpl.
    destruct e as [v|x|]; simpl.
    + inversion Hex as [? ? [x Hx]|? ? Hex']; subst; [discriminate Hx|].
      destruct (IH Hrest Hex') as [x ->]. simpl. eauto.
    + eauto.
    + contradiction He. reflexivity.
Qed.

(** With a duration of 0 the entry [csPerMin] raises: the division by
    zero if the creep score can be computed, the earlier exception if not. *)
Lemma csPerMin_zero_duration (data participant duration : value) :
  subscript data [K "info"; K "gameDuration"] = Ok duration ->
  py_int duration = Ok 0 ->
  (exists x, csPerMin data participant = Raise x)
  /\ (forall cs,
        int_sum (subscript participant [K "totalMinionsKilled"])
                (subscript participant [K "neutralMinionsKilled"]) = Ok cs ->
        csPerMin data participant = Raise ZeroDivisionError).
Proof.
  intros Hd Hz. unfold csPerMin.
  pose proof (int_sum_unstuck (subscript participant [K "totalMinionsKilled"])
                (subscript participant [K "neutralMinionsKilled"])
                (subscript_unstuck _ _) (subscript_unstuck _ _)) as Hs.
  destruct (int_sum _ _) as [cs|x|] eqn:E.
  - rewrite Hd. cbn [res_bind]. rewrite Hz. cbn [res_bind].
    split; [eexists|intros ? _]; reflexivity.
  - split; [eexists; reflexivity|discriminate].
  - contradiction Hs. reflexivity.
Qed.

Lemma dict_display_app (before after : list (string * res value)) :
  dict_display (before ++ after)
  = (let? vs := dict_display before in
     let? ws := dict_display after in
     Ok (vs ++ ws)).
Proof.
  induction before as [|[k e] rest IH]; simpl.
  - destruct (dict_display after); reflexivity.
  - destruct e as [v| |]; simpl; [|reflexivity|reflexivity].
    rewrite IH. destruct (dict_display rest); simpl; [|reflexivity|reflexivity].
    destruct (dict_display after); reflexivity.
Qed.

(** A display that succeeds has evaluated every entry. *)
Lemma dict_display_Ok (entries : list (string * res value))
    (vs : list (string * value)) (k : string) (e : res value) :
  dict_display entries = Ok vs -> In (k, e) entries -> exists v, e = Ok v.
Proof.
  revert vs. induction entries as [|[k' e'] rest IH]; intros vs Hd Hin.
  - destruct Hin.
  - simpl in Hd. destruct e' as [v'| |]; simpl in Hd; try discriminate.
    destruct (dict_display rest) as [vs'| |] eqn:E; simpl in Hd; try discriminate.
    destruct Hin as [[= <- <-]|Hin]; eauto.
Qed.

(** The display of [get_player_stats] around its entry [csPerMin]. *)
Lemma player_stats_entries_split (data participant : value) :
  exists after,
    player_stats_entries data participant
    = entries_before "csPerMin" (player_stats_entries data participant)
      ++ ("csPerMin", csPerMin data participant) :: after.
Proof. eexists. reflexivity. Qed.

(** C10: with [gameDuration] equal to 0 and at least one participant,
    [get_player_stats] raises instead of returning a list.  What it raises
    wraps the division by zero of the entry [csPerMin] whenever the entries
    written before it in the display can be evaluated for the first
    participant; otherwise it wraps the exception of the first entry that
    cannot. *)
Theorem get_player_stats_zero_duration
    (data participants duration p : value) (ps : list value)
    (Hparts : subscript data [K "info"; K "participants"] = Ok participants)
    (Hiter : iterate participants = Ok (p :: ps))
    (Hduration : subscript data [K "info"; K "gameDuration"] = Ok duration)
    (Hzero : py_int duration = Ok 0) :
  (exists e,
     get_player_stats data
     = Raise (ExceptionCtx "Error on the treatment of data for player stats list" e))
  /\ (forall vs,
        dict_display (entries_before "csPerMin" (player_stats_entries data p)) = Ok vs ->
        get_player_stats data
        = Raise (ExceptionCtx "Error on the treatment of data for player stats list"
                   ZeroDivisionError)).
Proof.
  destruct (csPerMin_zero_duration data p duration Hduration Hzero) as [[x Hx] Hdiv].
  unfold get_player_stats. rewrite Hparts. cbn [res_bind]. rewrite Hiter.
  cbn [res_bind for_each]. split.
  - destruct (dict_display_raises (player_stats_entries data p)) as [y Hy].
    + apply player_stats_entries_unstuck.
    + apply List.Exists_exists. exists ("csPerMin", csPerMin data p). split.
      * unfold player_stats_entries. simpl. tauto.
      * exists x. exact Hx.
    + rewrite Hy. simpl. eauto.
  - intros vs Hbefore.
    destruct (dict_display_Ok _ vs "totalCs"
                (res_map VInt
                   (int_sum (subscript p [K "totalMinionsKilled"])
                            (subscript p [K "neutralMinionsKilled"])))
                Hbefore) as [v Hv].
    { simpl. tauto. }
    destruct (int_sum (subscript p [K "totalMinionsKilled"])
                      (subscript p [K "neutralMinionsKilled"])) as [cs| |] eqn:Hcs;
      try discriminate Hv.
    destruct (player_stats_entries_split data p) as [after ->].
    rewrite dict_display_app, Hbefore. cbn [res_bind dict_display].
    rewrite (Hdiv cs eq_refl). reflexivity.
Qed.

Lemma get_player_stats_zero_duration_witness :
  get_player_stats (sample_match "BR1_1" "GameComplete" 1715000000000 0
                      [sample_participant "p1" "Ann" 100])
  = Raise (ExceptionCtx "Error on the treatment of data for player stats list"
             ZeroDivisionError).
Proof.
  destruct (get_player_stats_zero_duration
              (sample_match "BR1_1" "GameComplete" 1715000000000 0
                 [sample_participant "p1" "Ann" 100])
              (VList [sample_participant "p1" "Ann" 100]) (VInt 0)
              (sample_participant "p1" "Ann" 100) []
              eq_refl eq_refl eq_refl eq_refl) as [_ H].
  eapply H. vm_compute. reflexivity.
Defined.

(** A payload without the player's kills, and a duration of 0: the function
    raises all the same, with the missing key under the re-raise. *)
Example get_player_stats_zero_duration_missing_key :
  get_player_stats
    (sample_match "BR1_1" "GameComplete" 1715000000000 0
       [VDict [("puuid", VStr "p1"); ("championId", VInt 64)]])
  = Raise (ExceptionCtx "Error on the treatment of data for player stats list"
             (KeyError "kills")).
Proof. reflexivity. Qed.

(** ** What a computation leaves of the tables

    For a reflexive and transitive [P], [db_related P] goes through
    sequencing, handlers and every operation that does not write to the
    tables. *)

Section Keeps.
Variable P : DB -> DB -> Prop.
Hypothesis P_refl : forall db, P db db.
Hypothesis P_trans : forall a b c, P a b -> P b c -> P a c.

#[local] Abbreviation keeps := (db_related P).

Lemma keeps_ret {A} (a : A) : keeps (ret a).
Proof. intros w. apply P_refl. Qed.

Lemma keeps_raise {A} (e : exn) : keeps (@raise A e).
Proof. intros w. apply P_refl. Qed.

Lemma keeps_stuck {A} : keeps (@stuck A).
Proof. intros w. apply P_refl. Qed.

Lemma keeps_lift {A} (r : res A) : keeps (lift r).
Proof. intros w. apply P_refl. Qed.

Lemma keeps_bind {A B} (m : M A) (k : A -> M B) :
  keeps m -> (forall a, keeps (k a)) -> keeps (bind m k).
Proof.
  intros Hm Hk w. unfold bind. specialize (Hm w).
  destruct (m w) as [[a|e|] w1]; simpl in *; auto.
  eapply P_trans; [exact Hm|apply Hk].
Qed.

Lemma keeps_try_except {A} (m : M A) (h : exn -> M A) :
  keeps m -> (forall e, keeps (h e)) -> keeps (try_except m h).
Proof.
  intros Hm Hh w. unfold try_except. specialize (Hm w).
  destruct (m w) as [[a|e|] w1]; simpl in *; auto.
  eapply P_trans; [exact Hm|apply Hh].
Qed.

Lemma keeps_query {A} (f : DB -> A) : keeps (query f).
Proof. intros w. apply P_refl. Qed.

Lemma keeps_now : keeps now.
Proof. intros w. apply P_refl. Qed.

Lemma keeps_print (line : logline) : keeps (print line).
Proof. intros w. apply P_refl. Qed.

Lemma keeps_sleep (seconds : value) : keeps (sleep seconds).
Proof.
  intros w. unfold sleep. destruct (as_number seconds); [|apply P_refl].
  destruct (Qle_bool 0 q); apply P_refl.
Qed.

Lemma keeps_getattr (name : string) : keeps (getattr name).
Proof.
  intros w. unfold getattr. destruct (w_self w !! name); [apply P_refl|].
  destruct (existsb _ _); apply P_refl.
Qed.

Lemma keeps_setattr (name : string) (v : value) : keeps (setattr name v).
Proof. intros w. apply P_refl. Qed.

Lemma keeps_new_fetcher (api_key : value) : keeps (new_fetcher api_key).
Proof. intros w. apply P_refl. Qed.

Lemma keeps_session_get (u : url) (token : value) : keeps (session_get u token).
Proof.
  intros w. unfold session_get. destruct (w_script w) as [|[dt r|dt] rest];
    apply P_refl.
Qed.

Lemma keeps_response_json (r : response) : keeps (response_json r).
Proof. unfold response_json. destruct (body r); [apply keeps_ret|apply keeps_raise]. Qed.

Lemma keeps_with_db {A} (f : DB -> res A * DB) :
  (forall db, P db (snd (f db))) -> keeps (with_db f).
Proof. intros H w. unfold with_db. specialize (H (w_db w)). destruct (f (w_db w)). exact H. Qed.

Ltac keeps_step :=
  first
    [ apply keeps_ret | apply keeps_raise | apply keeps_stuck | apply keeps_lift
    | apply keeps_query | apply keeps_now | apply keeps_print | apply keeps_sleep
    | apply keeps_getattr | apply keeps_setattr | apply keeps_session_get
    | apply keeps_response_json | apply keeps_new_fetcher
    | apply keeps_bind; [|intros ?]
    | apply keeps_try_except; [|intros ?]
    | match goal with
      | |- keeps (if ?b then _ else _) => destruct b
      | |- keeps (match ?x with Some _ => _ | None => _ end) => destruct x
      end ].

Lemma keeps_fetch_loop (fuel : nat) (u : url) : keeps (fetch_loop fuel u).
Proof.
  induction fuel as [|fuel IH]; simpl; [apply keeps_stuck|].
  repeat first [exact IH | keeps_step].
Qed.

Lemma keeps_fetch (u : url) : keeps (fetch u).
Proof. intros w. unfold fetch. apply keeps_fetch_loop. Qed.

Lemma keeps_get_match_list (r : string) (id : value) (d s : Z) :
  keeps (get_match_list r id d s).
Proof. unfold get_match_list. repeat first [apply keeps_fetch | keeps_step]. Qed.

Lemma keeps_get_match_data (r : string) (m : value) : keeps (get_match_data r m).
Proof. unfold get_match_data. repeat first [apply keeps_fetch | keeps_step]. Qed.

Lemma keeps_subscript_next (next : option next_player) : keeps (subscript_next next).
Proof. destruct next; simpl; keeps_step. Qed.

Lemma keeps_page_loop (fuel : nat) (r : string) (next : option next_player)
    (acc : list value) (size : Z) : keeps (page_loop fuel r next acc size).
Proof.
  revert acc size. induction fuel as [|fuel IH]; intros acc size; simpl;
    [apply keeps_stuck|].
  repeat first [apply IH | apply keeps_subscript_next
               | apply keeps_get_match_list | keeps_step].
Qed.

Lemma keeps_collect_match_list (r : string) (next : option next_player) :
  keeps (collect_match_list r next).
Proof. intros w. unfold collect_match_list. apply keeps_page_loop. Qed.

(** The writes of the match loop, assumed to respect [P]. *)
Hypothesis P_update_player_if_exists :
  forall player matchDate db, P db (snd (update_player_if_exists player matchDate db)).
Hypothesis P_insert_player_list :
  forall data_list db, P db (snd (insert_player_list data_list db)).
Hypothesis P_insert_match : forall data db, P db (insert_match data db).
Hypothesis P_insert_stats_list :
  forall data_list db, P db (snd (insert_stats_list data_list db)).

Lemma keeps_player_loop (p_info : list player_info) (start : Z)
    (acc : list player_info) : keeps (player_loop p_info start acc).
Proof.
  revert acc. induction p_info as [|player rest IH]; intros acc; simpl;
    [apply keeps_ret|].
  apply keeps_bind.
  - apply keeps_with_db. intros db.
    specialize (P_update_player_if_exists player start db).
    destruct (update_player_if_exists player start db). exact P_update_player_if_exists.
  - intros v. destruct (py_eq v (VBool true)); apply IH.
Qed.

Lemma keeps_store_match (match_data : value) : keeps (store_match match_data).
Proof.
  unfold store_match.
  apply keeps_bind; [apply keeps_lift|intros [m_info|]]; [|apply keeps_ret].
  repeat first [ apply keeps_player_loop
               | apply keeps_with_db; intros db; simpl; auto
               | keeps_step ].
Qed.

Lemma keeps_match_loop (r : string) (match_list : list value) :
  keeps (match_loop r match_list).
Proof.
  induction match_list as [|m rest IH]; simpl; [apply keeps_ret|].
  repeat first [exact IH | apply keeps_get_match_data | apply keeps_store_match
               | keeps_step].
Qed.
End Keeps.

(** ** Aborted games *)

(** Requests never write to the tables. *)
Lemma get_match_data_db (r : string) (m : value) (w : World) :
  w_db (snd (get_match_data r m w)) = w_db w.
Proof.
  symmetry.
  apply (keeps_get_match_data eq (@eq_refl DB) (@eq_trans DB) r m w).
Qed.

(** C9: for a payload whose [endOfGameResult] is ["Abort_Unexpected"],
    [get_match_info] returns [None]; the crawler then leaves the tables as
    they are (no player, match or stats row) and goes on with the next
    match of the list. *)
Theorem aborted_match_is_skipped (data : value)
    (Haborted : subscript data [K "info"; K "endOfGameResult"]
                = Ok (VStr "Abort_Unexpected")) :
  get_match_info data = Ok None
  /\ (forall w, store_match data w = (Ok tt, w))
  /\ (forall cur_region m rest w w1,
        match_on_db m (w_db w) = false ->
        get_match_data cur_region m w = (Ok data, w1) ->
        w_db w1 = w_db w
        /\ match_loop cur_region (m :: rest) w = match_loop cur_region rest w1).
Proof.
  assert (Hinfo : get_match_info data = Ok None).
  { unfold get_match_info, get_match_info_body. rewrite Haborted. reflexivity. }
  assert (Hstore : forall w, store_match data w = (Ok tt, w)).
  { intros w. unfold store_match, bind, lift. rewrite Hinfo. reflexivity. }
  split; [exact Hinfo|]. split; [exact Hstore|].
  intros cur_region m rest w w1 Hnew Hdata. split.
  - pose proof (get_match_data_db cur_region m w) as Hdb.
    rewrite Hdata in Hdb. exact Hdb.
  - cbn [match_loop]. unfold bind at 1. unfold query. rewrite Hnew.
    unfold bind at 1. rewrite Hdata.
    unfold bind at 1. rewrite Hstore. reflexivity.
Qed.

Lemma aborted_match_is_skipped_witness :
  let data := sample_match "BR1_7" "Abort_Unexpected" 1715000000000 95
                [sample_participant "p1" "Ann" 100] in
  let w := fresh_world (VStr "key") [ok_reply data] 1716000000000000
             (set_players [sample_player "p1" "Ann" 1714521601000000] empty_db) in
  get_match_info data = Ok None
  /\ match_loop "americas" [VStr "BR1_7"] w
     = (Ok tt,
        {| w_self := <["retry_count" := VInt 0]> (w_self w);
           w_script := [];
           w_trace := [EGet (UrlMatchData "americas" (VStr "BR1_7")) (VStr "key")];
           w_clock := w_clock w;
           w_db := w_db w |}).
Proof.
  intros data w.
  destruct (aborted_match_is_skipped data eq_refl) as (Hinfo & _ & Hloop).
  split; [exact Hinfo|].
  destruct (Hloop "americas" (VStr "BR1_7") [] w
              {| w_self := <["retry_count" := VInt 0]> (w_self w);
                 w_script := [];
                 w_trace := [EGet (UrlMatchData "americas" (VStr "BR1_7")) (VStr "key")];
                 w_clock := w_clock w;
                 w_db := w_db w |}
              eq_refl) as [_ ->].
  - vm_compute. reflexivity.
  - reflexivity.
Defined.

(** ** [BaseFetcher.fetch] *)

(** No attribute named [region] or [retry_counter] is ever set on the
    instance, and the class has none. *)
Lemma BaseFetcher_init_attributes (api_key : value) :
  BaseFetcher_init api_key !! "retry_timer" = Some (VInt 0)
  /\ BaseFetcher_init api_key !! "retry_count" = Some (VInt 0)
  /\ BaseFetcher_init api_key !! "session" = Some (VOpaque "requests.Session")
  /\ BaseFetcher_init api_key !! "api_key" = Some api_key
  /\ BaseFetcher_init api_key !! "region" = None
  /\ BaseFetcher_init api_key !! "retry_counter" = None.
Proof. unfold BaseFetcher_init. repeat split; by simplify_map_eq. Qed.

(** The first round of [fetch] when no backoff is pending: one request is
    sent and the reply decides. *)
Section FetchRound.
Variables (u : url) (w : World) (timer session api_key : value).
Variables (dt : N) (r : response) (rest : list reply).
Hypothesis Htimer : w_self w !! "retry_timer" = Some timer.
Hypothesis Hidle : py_gt timer (VInt 0) = Ok false.
Hypothesis Hsession : w_self w !! "session" = Some session.
Hypothesis Hkey : w_self w !! "api_key" = Some api_key.
Hypothesis Hscript : w_script w = Replied dt r :: rest.

#[local] Abbreviation after_request := (world_after_request w u api_key dt rest).

Ltac first_round :=
  unfold fetch; rewrite Hscript; cbn [length fetch_loop];
  unfold bind at 1; unfold getattr at 1; rewrite Htimer;
  unfold bind at 1; unfold lift at 1; rewrite Hidle;
  unfold bind at 1; unfold ret at 1;
  unfold bind at 1; unfold getattr at 1; rewrite Hsession;
  unfold bind at 1; unfold getattr at 1; rewrite Hkey;
  unfold bind at 1; unfold session_get at 1; rewrite Hscript.

Lemma fetch_200 (v : value) :
  status_code r = 200 -> body r = Some v ->
  fetch u w = (Ok v, after_request (<["retry_count" := VInt 0]> (w_self w))).
Proof.
  intros Hstatus Hbody. first_round. rewrite Hstatus. cbn [Z.eqb Pos.eqb].
  unfold bind, setattr, response_json. rewrite Hbody. reflexivity.
Qed.

Lemma fetch_429 (seconds : Z) :
  status_code r = 429 ->
  py_int (retry_after_or_1 r) = Ok seconds ->
  w_self w !! "region" = None ->
  fetch u w = (Raise (AttributeError "region"),
               after_request (<["retry_timer" := VInt seconds]> (w_self w))).
Proof.
  intros Hstatus Hint Hregion. first_round. rewrite Hstatus. cbn [Z.eqb Pos.eqb].
  unfold bind at 1. unfold lift at 1. rewrite Hint.
  unfold bind at 1. unfold setattr at 1.
  unfold bind at 1. unfold getattr at 1. cbn [w_self set_self].
  rewrite lookup_insert_ne by discriminate. rewrite Hregion. reflexivity.
Qed.

Lemma fetch_other_status :
  status_code r <> 200 -> status_code r <> 429 ->
  w_self w !! "retry_counter" = None ->
  fetch u w = (Raise (AttributeError "retry_counter"), after_request (w_self w)).
Proof.
  intros H200 H429 Hcounter. first_round.
  destruct (Z.eqb_spec (status_code r) 200) as [|_]; [contradiction|].
  destruct (Z.eqb_spec (status_code r) 429) as [|_]; [contradiction|].
  unfold bind at 1. unfold getattr at 1. cbn [w_self]. rewrite Hcounter.
  reflexivity.
Qed.
End FetchRound.

(** C3: the scenario of the claim, run.  On the 429 the pending backoff is
    recorded (5 from the header, 1 without it) and the retry counter stays
    0, but formatting the log line reads [self.region], which a
    [BaseFetcher] does not have: [fetch] raises [AttributeError] before any
    suspension, the second request is never sent and the 200 body is not
    returned. *)
Theorem fetch_429_then_200_raises :
  let u := UrlMatchData "americas" (VStr "BR1_1") in
  let run header :=
    fetch u (fresh_world (VStr "key")
               [status_reply 429 header; ok_reply (VStr "body")] 0 empty_db) in
  fst (run (Some "5")) = Raise (AttributeError "region")
  /\ w_trace (snd (run (Some "5"))) = [EGet u (VStr "key")]
  /\ w_script (snd (run (Some "5"))) = [ok_reply (VStr "body")]
  /\ w_clock (snd (run (Some "5"))) = 0
  /\ w_self (snd (run (Some "5"))) !! "retry_timer" = Some (VInt 5)
  /\ w_self (snd (run (Some "5"))) !! "retry_count" = Some (VInt 0)
  /\ fst (run None) = Raise (AttributeError "region")
  /\ w_self (snd (run None)) !! "retry_timer" = Some (VInt 1).
Proof. vm_compute. repeat split. Qed.

(** C4: three replies with status 500, run.  The counter that [__init__]
    sets is [retry_count]; the branch for other statuses reads
    [retry_counter], so the first 500 already raises [AttributeError]: no
    counter is incremented, no second or third attempt is made and the
    exception carrying status and url is never built. *)
Theorem fetch_three_500_raises :
  let u := UrlMatchData "americas" (VStr "BR1_1") in
  let out :=
    fetch u (fresh_world (VStr "key")
               [status_reply 500 None; status_reply 500 None; status_reply 500 None]
               0 empty_db) in
  fst out = Raise (AttributeError "retry_counter")
  /\ fst out <> Raise (ExceptionStatus 500 u)
  /\ w_trace (snd out) = [EGet u (VStr "key")]
  /\ w_script (snd out) = [status_reply 500 None; status_reply 500 None]
  /\ w_self (snd out) !! "retry_count" = Some (VInt 0)
  /\ w_self (snd out) !! "retry_counter" = None.
Proof. vm_compute. repeat split. discriminate. Qed.

(** ** Paging through the match list *)

Section Pages.
Variables (cur_region : string) (np : next_player).
Variables (session api_key : value).

#[local] Abbreviation ready := (fetcher_ready session api_key).

Lemma ready_after_request (w : World) (u : url) (dt : N) (rest : list reply) :
  ready w ->
  ready (world_after_request w u api_key dt rest (<["retry_count" := VInt 0]> (w_self w))).
Proof.
  intros [[timer [Ht Hi]] [Hs Hk]]. unfold ready. cbn [w_self world_after_request].
  rewrite !lookup_insert_ne by discriminate. eauto.
Qed.

Lemma get_match_list_200 (w : World) (size : Z) (dt : N) (v : value) (rest : list reply) :
  ready w ->
  w_script w
  = Replied dt {| status_code := 200; retry_after := None; body := Some v |} :: rest ->
  get_match_list cur_region (np_puuid np) (np_lastFetch np) size w
  = (Ok v,
     world_after_request w
       (UrlMatchList cur_region (np_puuid np) (timestamp_seconds (np_lastFetch np))
          420 size 100)
       api_key dt rest (<["retry_count" := VInt 0]> (w_self w))).
Proof.
  intros [[timer [Ht Hi]] [Hs Hk]] Hscript. unfold get_match_list, try_except.
  rewrite (fetch_200 _ w timer session api_key dt _ rest Ht Hi Hs Hk Hscript v
             eq_refl eq_refl).
  reflexivity.
Qed.

(** A page of exactly 100 ids: the ids are appended, the offset grows by
    100 and the loop goes round again. *)
Lemma page_loop_full_page (fuel : nat) (w : World) (acc : list value) (size : Z)
    (page : N * list value) (rest : list reply) :
  ready w ->
  w_script w = page_reply page :: rest ->
  length (snd page) = 100%nat ->
  page_loop (S fuel) cur_region (Some np) acc size w
  = page_loop fuel cur_region (Some np) (acc ++ snd page) (size + 100)
      (world_after_request w
         (UrlMatchList cur_region (np_puuid np) (timestamp_seconds (np_lastFetch np))
            420 size 100)
         api_key (fst page) rest (<["retry_count" := VInt 0]> (w_self w))).
Proof.
  intros Hready Hscript Hlen. cbn [page_loop subscript_next].
  unfold bind at 1. unfold ret at 1.
  unfold bind at 1. rewrite (get_match_list_200 w size _ _ rest Hready Hscript).
  unfold bind at 1. unfold lift at 1. cbn [iterate is_not_None andb].
  rewrite Hlen. reflexivity.
Qed.

(** A page of another length ends the loop, offset unchanged. *)
Lemma page_loop_last_page (fuel : nat) (w : World) (acc : list value) (size : Z)
    (page : N * list value) (rest : list reply) :
  ready w ->
  w_script w = page_reply page :: rest ->
  length (snd page) <> 100%nat ->
  page_loop (S fuel) cur_region (Some np) acc size w
  = (Ok (acc ++ snd page, size),
     world_after_request w
       (UrlMatchList cur_region (np_puuid np) (timestamp_seconds (np_lastFetch np))
          420 size 100)
       api_key (fst page) rest (<["retry_count" := VInt 0]> (w_self w))).
Proof.
  intros Hready Hscript Hlen. cbn [page_loop subscript_next].
  unfold bind at 1. unfold ret at 1.
  unfold bind at 1. rewrite (get_match_list_200 w size _ _ rest Hready Hscript).
  unfold bind at 1. unfold lift at 1. cbn [iterate is_not_None andb].
  destruct (Z.eqb_spec (Z.of_nat (length (snd page))) 100) as [E|_]; [lia|].
  reflexivity.
Qed.

Lemma page_loop_pages (full : list (N * list value)) (last : N * list value)
    (rest : list reply) :
  Forall (fun p => length (snd p) = 100%nat) full ->
  length (snd last) <> 100%nat ->
  forall (fuel : nat) (w : World) (acc : list value) (size : Z),
    ready w ->
    w_script w = List.map page_reply full ++ page_reply last :: rest ->
    (length full < fuel)%nat ->
    page_loop fuel cur_region (Some np) acc size w
    = (Ok (acc ++ concat (List.map snd full) ++ snd last,
           size + 100 * Z.of_nat (length full)),
       {| w_self := <["retry_count" := VInt 0]> (w_self w);
          w_script := rest;
          w_trace := w_trace w
                     ++ page_requests cur_region np api_key size (S (length full));
          w_clock := w_clock w + total_elapsed (full ++ [last]);
          w_db := w_db w |}).
Proof.
  intros Hfull Hlast. induction Hfull as [|page full Hpage Hfull IH];
    intros fuel w acc size Hready Hscript Hfuel.
  - destruct fuel as [|fuel]; [simpl in Hfuel; lia|].
    rewrite (page_loop_last_page fuel w acc size last rest Hready Hscript Hlast).
    unfold world_after_request. simpl.
    f_equal; [do 2 f_equal; lia|f_equal; lia].
  - destruct fuel as [|fuel]; [simpl in Hfuel; lia|].
    rewrite (page_loop_full_page fuel w acc size page
               (List.map page_reply full ++ page_reply last :: rest)
               Hready Hscript Hpage).
    rewrite IH.
    + unfold world_after_request. cbn [w_self w_script w_trace w_clock w_db].
      rewrite insert_insert_eq. simpl.
      rewrite <- !app_assoc. simpl.
      f_equal; [do 2 f_equal; lia|f_equal; lia].
    + apply ready_after_request. exact Hready.
    + reflexivity.
    + simpl in Hfuel. lia.
Qed.
End Pages.

(** C8: the match list is collected from offset 0 in requests of
    [count=100] whose [startTime] is the player's cursor; after every page
    of exactly 100 ids the offset grows by 100, and the first page of
    another length ends the collection.  The ids returned are those of all
    the pages, in order, and the final offset counts the full pages. *)
Theorem collect_match_list_pages (cur_region : string) (np : next_player)
    (session api_key : value) (full : list (N * list value))
    (last : N * list value) (rest : list reply) (w : World)
    (Hready : fetcher_ready session api_key w)
    (Hfull : forallb (fun p => (length (snd p) =? 100)%nat) full = true)
    (Hlast : (length (snd last) =? 100)%nat = false)
    (Hscript : w_script w = List.map page_reply full ++ page_reply last :: rest) :
  collect_match_list cur_region (Some np) w
  = (Ok (concat (List.map snd full) ++ snd last, 100 * Z.of_nat (length full)),
     {| w_self := <["retry_count" := VInt 0]> (w_self w);
        w_script := rest;
        w_trace := w_trace w
                   ++ page_requests cur_region np api_key 0 (S (length full));
        w_clock := w_clock w + total_elapsed (full ++ [last]);
        w_db := w_db w |}).
Proof.
  unfold collect_match_list.
  rewrite (page_loop_pages cur_region np session api_key full last rest).
  - reflexivity.
  - apply List.Forall_forall. intros p Hp.
    rewrite forallb_forall in Hfull. apply Nat.eqb_eq. auto.
  - apply Nat.eqb_neq. exact Hlast.
  - exact Hready.
  - exact Hscript.
  - rewrite Hscript, length_app, length_map. simpl. lia.
Qed.

(** The scenario of C8: a page of 100 ids, then an empty page. *)
Lemma collect_match_list_pages_witness :
  let np := {| np_puuid := VStr "p1"; np_lastFetch := 1714521601000000 |} in
  let w := fresh_world (VStr "key")
             [page_reply (0%N, sample_match_ids); page_reply (0%N, [])]
             1716000000000000 empty_db in
  let request offset :=
    EGet (UrlMatchList "americas" (VStr "p1") 1714521601 420 offset 100) (VStr "key") in
  length sample_match_ids = 100%nat
  /\ fst (collect_match_list "americas" (Some np) w) = Ok (sample_match_ids, 100)
  /\ w_trace (snd (collect_match_list "americas" (Some np) w))
     = [request 0; request 100]
  /\ w_script (snd (collect_match_list "americas" (Some np) w)) = [].
Proof.
  intros np w request.
  rewrite (collect_match_list_pages "americas" np (VOpaque "requests.Session")
             (VStr "key") [(0%N, sample_match_ids)] (0%N, []) [] w).
  - repeat split.
  - split; [exists (VInt 0); split; reflexivity|split; reflexivity].
  - reflexivity.
  - reflexivity.
  - reflexivity.
Defined.

(** ** Writes to a player row *)

Section UpdateFirst.
Context {A : Type} (p : A -> bool) (f : A -> A).

Lemma update_first_Forall2 (R : A -> A -> Prop) (rows : list A) :
  (forall x, R x x) ->
  (forall x, p x = true -> R x (f x)) ->
  Forall2 R rows (update_first p f rows).
Proof.
  intros Hrefl Hf. induction rows as [|x rest IH]; simpl; [constructor|].
  destruct (p x) eqn:E.
  - constructor; [auto|]. clear IH. induction rest; constructor; auto.
  - constructor; auto.
Qed.

Lemma find_update_first (rows : list A) :
  (forall x, p x = true -> p (f x) = true) ->
  List.find p (update_first p f rows) = option_map f (List.find p rows).
Proof.
  intros Hp. induction rows as [|x rest IH]; simpl; [reflexivity|].
  destruct (p x) eqn:E; simpl.
  - rewrite (Hp x E). reflexivity.
  - rewrite E. exact IH.
Qed.

(** [update_first] changes the row [find] returns and no other. *)
Lemma update_first_split (rows : list A) (x : A) :
  List.find p rows = Some x ->
  exists before after,
    rows = before ++ x :: after
    /\ Forall (fun row => p row = false) before
    /\ p x = true
    /\ update_first p f rows = before ++ f x :: after.
Proof.
  induction rows as [|y rest IH]; simpl; [discriminate|].
  destruct (p y) eqn:E.
  - intros [= ->]. exists [], rest. repeat split; auto.
  - intros H. destruct (IH H) as (before & after & -> & Hbefore & Hx & Hupd).
    exists (y :: before), after. rewrite Hupd. repeat split; auto.
Qed.
End UpdateFirst.

(** The row [update_player_if_exists] writes over [stored]. *)
Lemma update_player_if_exists_eq (player : player_info) (matchDate : Z) (db : DB) :
  update_player_if_exists player matchDate db
  = match List.find (has_puuid (puuid player)) (players db) with
    | None => (VNone, db)
    | Some stored =>
        if matchDate <? lastMatchFetch stored
        then (VBool true,
              set_players
                (update_first (has_puuid (puuid player))
                   (refreshed player matchDate) (players db)) db)
        else (VBool true, db)
    end.
Proof. reflexivity. Qed.

(** What [update_last_fetch] writes, exactly: the row [find] returns gets
    the cursor [now]; its other columns, the other rows and the other tables
    stay as they are.  Without such a row it raises and writes nothing. *)
Lemma update_last_fetch_exact (now : Z) (id : value) (db : DB) :
  match List.find (has_puuid id) (players db) with
  | Some found =>
      exists before after,
        players db = before ++ found :: after
        /\ Forall (fun row => has_puuid id row = false) before
        /\ has_puuid id found = true
        /\ update_last_fetch now id db
           = (Ok tt,
              {| players :=
                   before ++ {| info := info found; lastMatchFetch := now |} :: after;
                 matches := matches db; stats := stats db; ratings := ratings db |})
  | None =>
      update_last_fetch now id db = (Raise (AttributeError "lastMatchFetch"), db)
  end.
Proof.
  unfold update_last_fetch.
  destruct (List.find (has_puuid id) (players db)) as [found|] eqn:E; [|reflexivity].
  destruct (update_first_split (has_puuid id)
              (fun p => {| info := info p; lastMatchFetch := now |})
              (players db) found E) as (before & after & Hrows & Hbefore & Hfound & Hupd).
  exists before, after. rewrite Hupd. repeat split; auto.
Qed.

(** What [update_player_if_exists] writes, exactly: nothing for an unknown
    player and nothing when the stored cursor is not later than the match
    date; otherwise the row [find] returns is overwritten (its puuid
    apart) and gets the match date as cursor, and the other rows and the
    other tables stay as they are. *)
Lemma update_player_if_exists_exact (player : player_info) (matchDate : Z) (db : DB) :
  match List.find (has_puuid (puuid player)) (players db) with
  | Some found =>
      (lastMatchFetch found <= matchDate ->
       update_player_if_exists player matchDate db = (VBool true, db))
      /\ (matchDate < lastMatchFetch found ->
          exists before after,
            players db = before ++ found :: after
            /\ Forall (fun row => has_puuid (puuid player) row = false) before
            /\ has_puuid (puuid player) found = true
            /\ update_player_if_exists player matchDate db
               = (VBool true,
                  {| players := before ++ refreshed player matchDate found :: after;
                     matches := matches db; stats := stats db;
                     ratings := ratings db |}))
  | None => update_player_if_exists player matchDate db = (VNone, db)
  end.
Proof.
  rewrite update_player_if_exists_eq.
  destruct (List.find (has_puuid (puuid player)) (players db)) as [found|] eqn:E;
    [|reflexivity].
  destruct (Z.ltb_spec matchDate (lastMatchFetch found)) as [Hlt|Hge].
  - split; [lia|]. intros _.
    destruct (update_first_split (has_puuid (puuid player))
                (refreshed player matchDate) (players db) found E)
      as (before & after & Hrows & Hbefore & Hfound & Hupd).
    exists before, after. rewrite Hupd. repeat split; auto.
  - split; [reflexivity|lia].
Qed.

(** C1, as the code has it.  [update_last_fetch] sets the cursor of the
    row it finds to [now] and changes nothing else: not the other columns
    of that row, not another row, not another table; so it moves no cursor
    backward when no stored cursor is later than [now] (which the loop of
    the crawler keeps true, see [crawl_loop_in_past]).
    [update_player_if_exists] writes a cursor only over one that is strictly
    later than the match date, and then writes the match date: through it a
    cursor never moves forward and, where the row is rewritten, it moves
    strictly backward. *)
Theorem cursor_writes (now : Z) (id : value) (player : player_info)
    (matchDate : Z) (db : DB) :
  match List.find (has_puuid id) (players db) with
  | Some found =>
      exists before after,
        players db = before ++ found :: after
        /\ Forall (fun row => has_puuid id row = false) before
        /\ has_puuid id found = true
        /\ update_last_fetch now id db
           = (Ok tt,
              {| players :=
                   before ++ {| info := info found; lastMatchFetch := now |} :: after;
                 matches := matches db; stats := stats db; ratings := ratings db |})
  | None =>
      update_last_fetch now id db = (Raise (AttributeError "lastMatchFetch"), db)
  end
  /\ match List.find (has_puuid (puuid player)) (players db) with
     | Some found =>
         (lastMatchFetch found <= matchDate ->
          update_player_if_exists player matchDate db = (VBool true, db))
         /\ (matchDate < lastMatchFetch found ->
             exists before after,
               players db = before ++ found :: after
               /\ Forall (fun row => has_puuid (puuid player) row = false) before
               /\ has_puuid (puuid player) found = true
               /\ update_player_if_exists player matchDate db
                  = (VBool true,
                     {| players :=
                          before ++ refreshed player matchDate found :: after;
                        matches := matches db; stats := stats db;
                        ratings := ratings db |}))
     | None => update_player_if_exists player matchDate db = (VNone, db)
     end
  /\ Forall2 (fun row row' =>
                info row' = info row /\ (row' = row \/ lastMatchFetch row' = now))
             (players db) (players (snd (update_last_fetch now id db)))
  /\ (forall row,
        List.find (has_puuid id) (players db) = Some row ->
        List.find (has_puuid id) (players (snd (update_last_fetch now id db)))
        = Some {| info := info row; lastMatchFetch := now |})
  /\ (Forall (fun row => lastMatchFetch row <= now) (players db) ->
      Forall2 (fun row row' => lastMatchFetch row <= lastMatchFetch row')
              (players db) (players (snd (update_last_fetch now id db))))
  /\ Forall2 (fun row row' =>
                puuid (info row') = puuid (info row)
                /\ (row' = row
                    \/ (lastMatchFetch row' = matchDate
                        /\ matchDate < lastMatchFetch row)))
             (players db)
             (players (snd (update_player_if_exists player matchDate db)))
  /\ (forall row,
        List.find (has_puuid (puuid player)) (players db) = Some row ->
        matchDate < lastMatchFetch row ->
        exists row',
          List.find (has_puuid (puuid player))
            (players (snd (update_player_if_exists player matchDate db)))
          = Some row'
          /\ lastMatchFetch row' = matchDate
          /\ lastMatchFetch row' < lastMatchFetch row).
Proof.
  split; [apply update_last_fetch_exact|].
  split; [apply update_player_if_exists_exact|].
  repeat split.
  - unfold update_last_fetch.
    destruct (List.find (has_puuid id) (players db)) eqn:E; simpl.
    + apply update_first_Forall2; simpl; auto.
    + apply Forall2_same_length_lookup_2; [reflexivity|].
      intros i x y Hx Hy. rewrite Hx in Hy. injection Hy as <-. auto.
  - intros row Hrow. unfold update_last_fetch. rewrite Hrow. simpl.
    rewrite find_update_first by auto. rewrite Hrow. reflexivity.
  - intros Hpast. unfold update_last_fetch.
    destruct (List.find (has_puuid id) (players db)); simpl.
    + induction Hpast as [|x rest Hx Hrest IH]; simpl; [constructor|].
      destruct (has_puuid id x); constructor; simpl; auto; try lia.
      clear. induction rest; constructor; auto. lia.
    + clear. induction (players db); constructor; auto. lia.
  - rewrite update_player_if_exists_eq.
    assert (Hsame : Forall2 (fun row row' : Player =>
                       puuid (info row') = puuid (info row)
                       /\ (row' = row
                           \/ lastMatchFetch row' = matchDate
                              /\ matchDate < lastMatchFetch row))
                      (players db) (players db)).
    { apply Forall2_same_length_lookup_2; [reflexivity|].
      intros i x y Hx Hy. rewrite Hx in Hy. injection Hy as <-. auto. }
    destruct (List.find (has_puuid (puuid player)) (players db)) as [stored|] eqn:E;
      [|exact Hsame].
    destruct (Z.ltb_spec matchDate (lastMatchFetch stored)) as [Hlt|Hge];
      [|exact Hsame].
    simpl.
    clear Hsame. revert E. induction (players db) as [|x rest IH]; intros E;
      simpl in *; [discriminate|].
    destruct (has_puuid (puuid player) x) eqn:Hx.
    + injection E as ->. constructor.
      * simpl. split; [reflexivity|]. right. auto.
      * clear. induction rest; constructor; auto.
    + constructor; auto.
  - intros row Hrow Hlt. rewrite update_player_if_exists_eq, Hrow.
    apply Z.ltb_lt in Hlt as Hlt'. rewrite Hlt'. simpl.
    rewrite find_update_first by (intros x Hx; exact Hx).
    rewrite Hrow. simpl. eexists. split; [reflexivity|]. simpl. auto.
Qed.

(** The claim C1 as stated fails: an observation from a match that started
    before the stored cursor moves the cursor back to the start of that
    match. *)
Lemma cursor_moves_backward :
  let db := set_players [sample_player "p1" "Ann" 2000] empty_db in
  let observation := info (sample_player "p1" "Ann" 0) in
  exists before after,
    players db = [before]
    /\ players (snd (update_player_if_exists observation 1000 db)) = [after]
    /\ lastMatchFetch after < lastMatchFetch before.
Proof. simpl. eexists _, _. repeat split. Qed.

(** ** Observations of known players *)

(** An observation of a player that is in the table never reaches the
    insert batch: the loop goes on with the batch it had. *)
Lemma player_loop_known (player : player_info) (rest : list player_info)
    (matchDate : Z) (batch : list player_info) (w : World) (stored : Player) :
  List.find (has_puuid (puuid player)) (players (w_db w)) = Some stored ->
  player_loop (player :: rest) matchDate batch w
  = player_loop rest matchDate batch
      (set_db (snd (update_player_if_exists player matchDate (w_db w))) w).
Proof.
  intros Hstored. cbn [player_loop]. unfold bind at 1. unfold with_db at 1.
  rewrite update_player_if_exists_eq, Hstored.
  destruct (matchDate <? lastMatchFetch stored); reflexivity.
Qed.

(** C5, as the code has it: an observation of a player that is in the
    table is answered with [True] and dropped from the insert batch.  When
    the stored cursor is strictly later than the start of the match, the
    stored display columns are overwritten with the observed ones and the
    cursor is set to the start of the match; when it is not, the tables
    stay as they are. *)
Theorem known_player_observation (player : player_info) (matchDate : Z)
    (w : World) (stored : Player)
    (Hstored : List.find (has_puuid (puuid player)) (players (w_db w)) = Some stored) :
  fst (update_player_if_exists player matchDate (w_db w)) = VBool true
  /\ (forall rest batch,
        player_loop (player :: rest) matchDate batch w
        = player_loop rest matchDate batch
            (set_db (snd (update_player_if_exists player matchDate (w_db w))) w))
  /\ (lastMatchFetch stored <= matchDate ->
      snd (update_player_if_exists player matchDate (w_db w)) = w_db w)
  /\ (matchDate < lastMatchFetch stored ->
      List.find (has_puuid (puuid player))
        (players (snd (update_player_if_exists player matchDate (w_db w))))
      = Some {| info := {| puuid := puuid (info stored);
                           summonerId := summonerId player;
                           gameName := gameName player;
                           tagLine := tagLine player;
                           profileIconId := profileIconId player;
                           summonerLevel := summonerLevel player;
                           region := region player |};
                lastMatchFetch := matchDate |}).
Proof.
  repeat split.
  - rewrite update_player_if_exists_eq, Hstored.
    destruct (matchDate <? lastMatchFetch stored); reflexivity.
  - intros rest batch. apply (player_loop_known _ _ _ _ _ stored Hstored).
  - intros Hle. rewrite update_player_if_exists_eq, Hstored.
    apply Z.ltb_ge in Hle. rewrite Hle. reflexivity.
  - intros Hlt. rewrite update_player_if_exists_eq, Hstored.
    apply Z.ltb_lt in Hlt. rewrite Hlt. simpl.
    rewrite find_update_first by (intros x Hx; exact Hx).
    rewrite Hstored. reflexivity.
Qed.

Lemma known_player_observation_witness :
  let stored := sample_player "p1" "Old" 2000 in
  let observed := info (sample_player "p1" "New" 0) in
  let w := fresh_world (VStr "key") [] 3000 (set_players [stored] empty_db) in
  player_loop [observed] 1000 [] w
  = (Ok [], set_db (set_players [{| info := observed; lastMatchFetch := 1000 |}]
                      empty_db) w)
  /\ player_loop [observed] 2500 [] w = (Ok [], w).
Proof.
  intros stored observed w.
  destruct (known_player_observation observed 1000 w stored eq_refl)
    as (_ & Hdrop & _ & _).
  destruct (known_player_observation observed 2500 w stored eq_refl)
    as (_ & Hdrop' & Hkeep & _).
  split.
  - rewrite Hdrop. reflexivity.
  - rewrite Hdrop', Hkeep by (simpl; lia). reflexivity.
Defined.

(** The claim C5 as stated fails in its second half: the observation is
    dropped, but the stored display columns do change when the cursor is
    later than the start of the match, and they do not when the match is
    the later one. *)
Lemma stale_observation_overwrites :
  let stored := sample_player "p1" "Old" 2000 in
  let observed := info (sample_player "p1" "New" 0) in
  let w := fresh_world (VStr "key") [] 3000 (set_players [stored] empty_db) in
  exists after,
    fst (player_loop [observed] 1000 [] w) = Ok []
    /\ players (w_db (snd (player_loop [observed] 1000 [] w))) = [after]
    /\ gameName (info stored) = VStr "Old"
    /\ gameName (info after) = VStr "New"
    /\ players (w_db (snd (player_loop [observed] 2500 [] w))) = [stored].
Proof. simpl. eexists. repeat split. Qed.

(** ** Rating snapshots *)

(** The row the new entry is compared with is the one with the least
    [fetchTime] among the rows of the summoner. *)
Lemma rating_up_to_date_compares_earliest (new_rating : rating) (db : DB) (row : Rating) :
  first_by fetchTime
    (List.filter (fun r => sql_eq (r_summonerId (entry r)) (r_summonerId new_rating))
                 (ratings db)) = Some row ->
  (forall r, In r (ratings db) ->
             sql_eq (r_summonerId (entry r)) (r_summonerId new_rating) = true ->
             fetchTime row <= fetchTime r)
  /\ rating_up_to_date new_rating db
     = py_eq (r_leaguePoints (entry row)) (r_leaguePoints new_rating)
       && py_eq (r_wins (entry row)) (r_wins new_rating)
       && py_eq (r_losses (entry row)) (r_losses new_rating).
Proof.
  intros H. split.
  - intros r Hin Hid. apply (first_by_least _ _ _ H). apply filter_In. auto.
  - unfold rating_up_to_date. rewrite H. reflexivity.
Qed.

(** C2: the ladder crawler run on a table that already holds an older
    snapshot of the summoner.  The same payload, handled twice in a row, is
    stored twice: it is compared with the earliest snapshot, not the latest.
    For the same reason a payload equal to the earliest snapshot is not
    stored although it differs from the latest one. *)
Theorem same_rating_stored_twice :
  let db0 := {| players := []; matches := []; stats := [];
                ratings := [sample_rating_row "s1" 10 4 3 1000] |} in
  let payload := VList [sample_rating_entry "s1" 20 5 3] in
  let db1 := snd (store_ratings 2000 payload "br1" false db0) in
  let db2 := snd (store_ratings 3000 payload "br1" false db1) in
  let back := VList [sample_rating_entry "s1" 10 4 3] in
  let db3 := snd (store_ratings 4000 back "br1" false db2) in
  List.map rating_summary (ratings db2)
  = [ (VInt 10, VInt 4, VInt 3, 1000);
      (VInt 20, VInt 5, VInt 3, 2000);
      (VInt 20, VInt 5, VInt 3, 3000) ]
  /\ ratings db3 = ratings db2.
Proof. split; reflexivity. Qed.

(** On a table without a snapshot of the summoner the same payload is stored
    once. *)
Example first_rating_stored_once :
  let payload := VList [sample_rating_entry "s1" 20 5 3] in
  let db1 := snd (store_ratings 2000 payload "br1" false empty_db) in
  let db2 := snd (store_ratings 3000 payload "br1" false db1) in
  List.map rating_summary (ratings db2) = [(VInt 20, VInt 5, VInt 3, 2000)].
Proof. reflexivity. Qed.

(** ** A failed round of the match crawler *)

Lemma cursors_not_advanced_refl (db : DB) : cursors_not_advanced db db.
Proof.
  exists (players db), []. split; [symmetry; apply app_nil_r|].
  induction (players db); constructor; auto. split; [reflexivity|lia].
Qed.

Lemma cursors_not_advanced_trans (a b c : DB) :
  cursors_not_advanced a b -> cursors_not_advanced b c -> cursors_not_advanced a c.
Proof.
  intros (old1 & new1 & Hb & H1) (old2 & new2 & Hc & H2).
  rewrite Hb in H2. apply Forall2_app_inv_l in H2 as (o2a & o2b & Ha2 & Hb2 & ->).
  exists o2a, (o2b ++ new2). split; [rewrite Hc, app_assoc; reflexivity|].
  clear - H1 Ha2. revert o2a Ha2.
  induction H1 as [|x y xs ys [Hid Hle] _ IH]; intros o2a Ha2.
  - inversion Ha2. constructor.
  - inversion Ha2 as [|? z ? zs [Hid' Hle'] Hrest]; subst. constructor; [|auto].
    split; [congruence|lia].
Qed.

Lemma cursors_not_advanced_same_players (db db' : DB) :
  players db' = players db -> cursors_not_advanced db db'.
Proof.
  intros H. destruct (cursors_not_advanced_refl db) as (old & new & Hp & HF).
  exists old, new. rewrite H. auto.
Qed.

Lemma update_player_if_exists_not_advanced (player : player_info) (matchDate : Z)
    (db : DB) :
  cursors_not_advanced db (snd (update_player_if_exists player matchDate db)).
Proof.
  rewrite update_player_if_exists_eq.
  destruct (List.find (has_puuid (puuid player)) (players db)) as [stored|] eqn:E;
    [|apply cursors_not_advanced_refl].
  destruct (Z.ltb_spec matchDate (lastMatchFetch stored)) as [Hlt|Hge];
    [|apply cursors_not_advanced_refl].
  simpl. exists (update_first (has_puuid (puuid player))
                   (refreshed player matchDate) (players db)), [].
  split; [symmetry; apply app_nil_r|].
  revert E. induction (players db) as [|x rest IH]; intros E; simpl in *;
    [discriminate|].
  destruct (has_puuid (puuid player) x) eqn:Hx.
  - injection E as ->. constructor.
    + simpl. split; [reflexivity|lia].
    + clear. induction rest; constructor; auto. split; [reflexivity|lia].
  - constructor; [split; [reflexivity|lia]|auto].
Qed.

Lemma insert_player_list_not_advanced (data_list : list player_info) (db : DB) :
  cursors_not_advanced db (snd (insert_player_list data_list db)).
Proof.
  unfold insert_player_list. destruct (puuid_constraints _ _); simpl;
    [|apply cursors_not_advanced_refl].
  destruct (cursors_not_advanced_refl db) as (old & new & Hp & HF).
  eexists (players db), _. split; [reflexivity|].
  clear. induction (players db); constructor; auto. split; [reflexivity|lia].
Qed.

Lemma insert_match_not_advanced (data : match_info) (db : DB) :
  cursors_not_advanced db (insert_match data db).
Proof. apply cursors_not_advanced_same_players. reflexivity. Qed.

Lemma insert_stats_list_not_advanced (data_list : list (list (string * value)))
    (db : DB) :
  cursors_not_advanced db (snd (insert_stats_list data_list db)).
Proof.
  apply cursors_not_advanced_same_players. unfold insert_stats_list.
  destruct (for_each _ _); reflexivity.
Qed.

(** Whatever the match loop does, it advances no cursor. *)
Lemma match_loop_not_advanced (cur_region : string) (match_list : list value) :
  db_related cursors_not_advanced (match_loop cur_region match_list).
Proof.
  apply (keeps_match_loop cursors_not_advanced
           cursors_not_advanced_refl cursors_not_advanced_trans
           update_player_if_exists_not_advanced insert_player_list_not_advanced
           insert_match_not_advanced insert_stats_list_not_advanced).
Qed.

(** An exception while a match is fetched or stored leaves the loop at that
    match: the rest of the list is not looked at. *)
Lemma match_loop_aborts (cur_region : string) (m : value) (rest : list value)
    (w w' : World) (e : exn) :
  match_on_db m (w_db w) = false ->
  bind (get_match_data cur_region m) store_match w = (Raise e, w') ->
  match_loop cur_region (m :: rest) w = (Raise e, w').
Proof.
  intros Hnew Hfail. cbn [match_loop]. unfold bind at 1. unfold query at 1.
  rewrite Hnew. unfold bind in Hfail |- *.
  destruct (get_match_data cur_region m w) as [[d|x|] w1]; [|exact Hfail|discriminate].
  destruct (store_match d w1) as [[[]|x|] w2]; [discriminate|exact Hfail|discriminate].
Qed.

(** A round that raises has advanced no cursor. *)
Lemma crawl_iteration_failure (cur_region : string) (sub_regions : list string)
    (w w' : World) (e : exn) :
  crawl_iteration cur_region sub_regions w = (Raise e, w') ->
  cursors_not_advanced (w_db w) (w_db w').
Proof.
  unfold crawl_iteration. unfold bind at 1. unfold print at 1.
  unfold bind at 1. unfold query at 1.
  set (w0 := emit (EPrint LogNextPlayer) 0 w).
  set (next := get_next_to_fetch sub_regions (w_db w0)).
  change (w_db w) with (w_db w0).
  unfold bind at 1.
  pose proof (keeps_collect_match_list cursors_not_advanced
                cursors_not_advanced_refl cursors_not_advanced_trans
                cur_region next w0) as H1.
  destruct (collect_match_list cur_region next w0) as [[collected|x|] w1];
    simpl in H1; [|intros [= <- <-]; exact H1|discriminate].
  unfold bind at 1.
  pose proof (match_loop_not_advanced cur_region (fst collected) w1) as H2.
  destruct (match_loop cur_region (fst collected) w1) as [[[]|x|] w2];
    simpl in H2; [|intros [= <- <-]; eapply cursors_not_advanced_trans; eauto
                 |discriminate].
  assert (H02 : cursors_not_advanced (w_db w0) (w_db w2))
    by (eapply cursors_not_advanced_trans; eauto).
  unfold bind at 1. destruct next as [np|]; simpl;
    [|intros [= <- <-]; exact H02].
  unfold bind, now, with_db, update_last_fetch. simpl.
  destruct (List.find (has_puuid (np_puuid np)) (players (w_db w2)));
    [discriminate|].
  intros [= <- <-]. destruct w2. exact H02.
Qed.

(** The matches before the one that fails have been dealt with; the loop
    goes on from the state they left. *)
Lemma match_loop_app (cur_region : string) (done rest : list value) (w wm : World) :
  match_loop cur_region done w = (Ok tt, wm) ->
  match_loop cur_region (done ++ rest) w = match_loop cur_region rest wm.
Proof.
  revert w. induction done as [|m done' IH]; intros w.
  - intros [= <-]. reflexivity.
  - rewrite <- app_comm_cons. cbn [match_loop]. intros H.
    unfold bind at 1 in H. unfold query at 1 in H.
    unfold bind at 1. unfold query at 1.
    destruct (match_on_db m (w_db w)); [apply IH; exact H|].
    unfold bind at 1 in H. unfold bind at 1.
    destruct (get_match_data cur_region m w) as [[d|x|] w1]; try discriminate.
    unfold bind at 1 in H. unfold bind at 1.
    destruct (store_match d w1) as [[[]|x|] w2]; try discriminate.
    apply IH. exact H.
Qed.

(** After [k] completed rounds the outer loop goes on from the state they
    left. *)
Lemma crawl_loop_after_rounds (k fuel : nat) (cur_region : string)
    (sub_regions : list string) (w1 w : World) :
  (k <= fuel)%nat ->
  crawl_rounds k cur_region sub_regions w1 = (Ok tt, w) ->
  crawl_loop fuel cur_region sub_regions w1
  = crawl_loop (fuel - k) cur_region sub_regions w.
Proof.
  revert fuel w1. induction k as [|k IH]; intros fuel w1 Hk.
  - intros [= <-]. rewrite Nat.sub_0_r. reflexivity.
  - destruct fuel as [|fuel]; [lia|]. cbn [crawl_rounds crawl_loop Nat.sub].
    intros H. unfold bind at 1 in H. unfold bind at 1.
    destruct (crawl_iteration cur_region sub_regions w1) as [[[]|x|] w2];
      try discriminate.
    apply IH; [lia|exact H].
Qed.

(** C6, as the code has it, for a failure in any round of the outer loop:
    after the start-up and [k] completed rounds, an exception while one
    match of the list is fetched or transformed ends the loop over the
    match list at that match (the matches after it are not looked at), the
    round raises without having advanced any cursor, and the exception
    leaves the outer loop as well: the handler of [main_region_fetching]
    prints it and the worker returns in the state the failing match left,
    so this worker makes no later pass. *)
Theorem failed_round_ends_worker (api_key : value) (fuel k : nat)
    (cur_region : string) (sub_regions : list string) (w0 w1 w w' : World) (e : exn)
    (Hfuel : (k < fuel)%nat)
    (Hstart : start_worker api_key fuel cur_region sub_regions w0 = (Ok tt, w1))
    (Hrounds : crawl_rounds k cur_region sub_regions w1 = (Ok tt, w))
    (Hfail : crawl_iteration cur_region sub_regions w = (Raise e, w')) :
  (forall done m rest size wc wm w2 e1,
     collect_match_list cur_region (get_next_to_fetch sub_regions (w_db w))
       (emit (EPrint LogNextPlayer) 0 w)
     = (Ok (done ++ m :: rest, size), wc) ->
     match_loop cur_region done wc = (Ok tt, wm) ->
     match_on_db m (w_db wm) = false ->
     bind (get_match_data cur_region m) store_match wm = (Raise e1, w2) ->
     match_loop cur_region (done ++ m :: rest) wc = (Raise e1, w2)
     /\ e1 = e /\ w2 = w')
  /\ (forall m rest w1 w2 e1,
        match_on_db m (w_db w1) = false ->
        bind (get_match_data cur_region m) store_match w1 = (Raise e1, w2) ->
        match_loop cur_region (m :: rest) w1 = (Raise e1, w2))
  /\ cursors_not_advanced (w_db w) (w_db w')
  /\ crawl_loop fuel cur_region sub_regions w1 = (Raise e, w')
  /\ main_region_fetching api_key fuel cur_region sub_regions w0
     = (Ok tt, emit (EPrint (LogMainError cur_region e)) 0 w').
Proof.
  assert (Hloop : crawl_loop fuel cur_region sub_regions w1 = (Raise e, w')).
  { rewrite (crawl_loop_after_rounds k fuel cur_region sub_regions w1 w)
      by (lia || exact Hrounds).
    destruct (fuel - k)%nat as [|n] eqn:E; [lia|].
    cbn [crawl_loop]. unfold bind at 1. rewrite Hfail. reflexivity. }
  split; [|split; [|split; [|split]]].
  - intros done m rest size wc wm w2 e1 Hcollect Hdone Hnew Hmatch.
    assert (Hlist : match_loop cur_region (done ++ m :: rest) wc = (Raise e1, w2)).
    { rewrite (match_loop_app cur_region done (m :: rest) wc wm Hdone).
      apply match_loop_aborts; assumption. }
    split; [exact Hlist|].
    unfold crawl_iteration in Hfail. unfold bind at 1 in Hfail.
    unfold print at 1 in Hfail. unfold bind at 1 in Hfail.
    unfold query at 1 in Hfail. cbn [w_db emit] in Hfail.
    unfold bind at 1 in Hfail. rewrite Hcollect in Hfail.
    unfold bind at 1 in Hfail. cbn [fst] in Hfail. rewrite Hlist in Hfail.
    injection Hfail as He Hw. auto.
  - intros m rest wa wb e1. apply match_loop_aborts.
  - apply (crawl_iteration_failure cur_region sub_regions w w' e Hfail).
  - exact Hloop.
  - unfold main_region_fetching, try_except. unfold bind at 1.
    rewrite Hstart, Hloop. reflexivity.
Qed.

Lemma failed_round_ends_worker_witness :
  let w0 := fresh_world (VStr "key")
              [ page_reply (5%N, []);
                page_reply (0%N, [VStr "BR1_1"; VStr "BR1_2"]);
                Failed 0;
                ok_reply (sample_match "BR1_2" "GameComplete" 1715000000000 1800
                            [sample_participant "p1" "Ann" 100]) ]
              1716000000000000
              (set_players [sample_player "p1" "Ann" default_lastMatchFetch] empty_db) in
  let out := main_region_fetching (VStr "key") 5 "americas" ["br1"] w0 in
  fst out = Ok tt
  /\ w_trace (snd out)
     = [ EPrint (LogStartingMain "americas");
         EPrint LogNextPlayer;
         EGet (UrlMatchList "americas" (VStr "p1") 1714521601 420 0 100) (VStr "key");
         EPrint LogNextPlayer;
         EGet (UrlMatchList "americas" (VStr "p1") 1716000000 420 0 100) (VStr "key");
         EGet (UrlMatchData "americas" (VStr "BR1_1")) (VStr "key");
         EPrint (LogMainError "americas"
                   (ExceptionCtx "Error occured on get_match_data" RequestException)) ]
  /\ List.map lastMatchFetch (players (w_db (snd out))) = [1716000000000005]
  /\ length (w_script (snd out)) = 1%nat.
Proof.
  intros w0 out.
  pose (w1 := snd (start_worker (VStr "key") 5 "americas" ["br1"] w0)).
  pose (w := snd (crawl_rounds 1 "americas" ["br1"] w1)).
  destruct (failed_round_ends_worker (VStr "key") 5 1 "americas" ["br1"] w0 w1 w
              (snd (crawl_iteration "americas" ["br1"] w))
              (ExceptionCtx "Error occured on get_match_data" RequestException))
    as (_ & _ & _ & _ & Hmain).
  - lia.
  - vm_compute. reflexivity.
  - vm_compute. reflexivity.
  - vm_compute. reflexivity.
  - subst out. rewrite Hmain. vm_compute. repeat split.
Defined.

(** The claim C6 as stated fails in its last part: after an error on a
    match (here the transport fails, or the payload has no [info]) the
    worker has returned; one round was started and no other, although
    replies for a later round were there to be had. *)
Lemma worker_returns_after_match_error :
  let run second :=
    main_region_fetching (VStr "key") 5 "americas" ["br1"] (sample_crawl_world second) in
  let malformed := ok_reply (VDict [("metadata", VDict [("matchId", VStr "BR1_1")])]) in
  fst (run (Failed 0)) = Ok tt
  /\ rounds_started (w_trace (snd (run (Failed 0)))) = 1%nat
  /\ length (w_script (snd (run (Failed 0)))) = 2%nat
  /\ players (w_db (snd (run (Failed 0))))
     = [sample_player "p1" "Ann" default_lastMatchFetch]
  /\ fst (run malformed) = Ok tt
  /\ rounds_started (w_trace (snd (run malformed))) = 1%nat
  /\ length (w_script (snd (run malformed))) = 2%nat
  /\ players (w_db (snd (run malformed)))
     = [sample_player "p1" "Ann" default_lastMatchFetch].
Proof. vm_compute. repeat split. Qed.

(** ** The cursor and the clock

    The clock of the model only moves forward, and every cursor the worker
    writes is either the clock ([update_last_fetch]), the column default (a
    new row) or a date earlier than the cursor it replaces
    ([update_player_if_exists]).  So no cursor ever lies in the future, and
    the cursor [update_last_fetch] writes is never earlier than the one it
    replaces. *)

Section Maintains.
Variable Inv : World -> Prop.

Lemma maintains_ret {A} (a : A) : maintains Inv (ret a).
Proof. intros w H. exact H. Qed.

Lemma maintains_raise {A} (e : exn) : maintains Inv (@raise A e).
Proof. intros w H. exact H. Qed.

Lemma maintains_stuck {A} : maintains Inv (@stuck A).
Proof. intros w H. exact H. Qed.

Lemma maintains_lift {A} (r : res A) : maintains Inv (lift r).
Proof. intros w H. exact H. Qed.

Lemma maintains_query {A} (f : DB -> A) : maintains Inv (query f).
Proof. intros w H. exact H. Qed.

Lemma maintains_bind {A B} (m : M A) (k : A -> M B) :
  maintains Inv m -> (forall a, maintains Inv (k a)) -> maintains Inv (bind m k).
Proof.
  intros Hm Hk w H. unfold bind. specialize (Hm w H).
  destruct (m w) as [[a|e|] w1]; simpl in *; auto. apply Hk. exact Hm.
Qed.

Lemma maintains_try_except {A} (m : M A) (h : exn -> M A) :
  maintains Inv m -> (forall e, maintains Inv (h e)) -> maintains Inv (try_except m h).
Proof.
  intros Hm Hh w H. unfold try_except. specialize (Hm w H).
  destruct (m w) as [[a|e|] w1]; simpl in *; auto. apply Hh. exact Hm.
Qed.
End Maintains.

Lemma cursors_in_past_later (w w' : World) :
  cursors_in_past w -> w_db w' = w_db w -> w_clock w <= w_clock w' ->
  cursors_in_past w'.
Proof.
  intros [Hd Hrows] Hdb Hclock. split; [lia|]. rewrite Hdb.
  eapply Forall_impl; [exact Hrows|]. simpl. intros row Hrow. lia.
Qed.

Lemma microseconds_nonneg (q : Q) : Qle_bool 0 q = true -> 0 <= microseconds q.
Proof.
  intros H. apply Qle_bool_iff in H. unfold microseconds.
  apply Z.div_pos; [|reflexivity].
  destruct q as [n d]. unfold Qle in H. simpl in *. lia.
Qed.

Lemma print_in_past (line : logline) : maintains cursors_in_past (print line).
Proof.
  intros w H. apply (cursors_in_past_later w); [exact H|reflexivity|simpl; lia].
Qed.

Lemma sleep_in_past (seconds : value) : maintains cursors_in_past (sleep seconds).
Proof.
  intros w H. unfold sleep. destruct (as_number seconds) as [q|]; [|exact H].
  destruct (Qle_bool 0 q) eqn:E; [|exact H].
  apply (cursors_in_past_later w); [exact H|reflexivity|].
  simpl. pose proof (microseconds_nonneg q E). lia.
Qed.

Lemma getattr_in_past (name : string) : maintains cursors_in_past (getattr name).
Proof.
  intros w H. unfold getattr. destruct (w_self w !! name); [exact H|].
  destruct (existsb _ _); exact H.
Qed.

Lemma setattr_in_past (name : string) (v : value) :
  maintains cursors_in_past (setattr name v).
Proof. intros w H. exact H. Qed.

Lemma new_fetcher_in_past (api_key : value) :
  maintains cursors_in_past (new_fetcher api_key).
Proof. intros w H. exact H. Qed.

Lemma session_get_in_past (u : url) (token : value) :
  maintains cursors_in_past (session_get u token).
Proof.
  intros w H. unfold session_get. destruct (w_script w) as [|r rest]; [exact H|].
  assert (Hlater : cursors_in_past
            {| w_self := w_self w; w_script := rest;
               w_trace := w_trace w ++ [EGet u token];
               w_clock := w_clock w +
                          Z.of_N match r with Replied dt _ => dt | Failed dt => dt end;
               w_db := w_db w |}).
  { apply (cursors_in_past_later w); [exact H|reflexivity|simpl; lia]. }
  destruct r; exact Hlater.
Qed.

Lemma response_json_in_past (r : response) : maintains cursors_in_past (response_json r).
Proof.
  unfold response_json. destruct (body r); [apply maintains_ret|apply maintains_raise].
Qed.

Ltac in_past_step :=
  first
    [ apply maintains_ret | apply maintains_raise | apply maintains_stuck
    | apply maintains_lift | apply maintains_query
    | apply print_in_past | apply sleep_in_past | apply getattr_in_past
    | apply setattr_in_past | apply session_get_in_past
    | apply response_json_in_past | apply new_fetcher_in_past
    | apply maintains_bind; [|intros ?]
    | apply maintains_try_except; [|intros ?]
    | match goal with
      | |- maintains _ (if ?b then _ else _) => destruct b
      | |- maintains _ (match ?x with Some _ => _ | None => _ end) => destruct x
      end ].

Lemma fetch_loop_in_past (fuel : nat) (u : url) :
  maintains cursors_in_past (fetch_loop fuel u).
Proof.
  induction fuel as [|fuel IH]; simpl; [apply maintains_stuck|].
  repeat first [exact IH | in_past_step].
Qed.

Lemma fetch_in_past (u : url) : maintains cursors_in_past (fetch u).
Proof. intros w. unfold fetch. apply fetch_loop_in_past. Qed.

Lemma page_loop_in_past (fuel : nat) (r : string) (next : option next_player)
    (acc : list value) (size : Z) :
  maintains cursors_in_past (page_loop fuel r next acc size).
Proof.
  revert acc size. induction fuel as [|fuel IH]; intros acc size; simpl;
    [apply maintains_stuck|].
  apply maintains_bind; [destruct next; in_past_step|intros np].
  unfold get_match_list.
  repeat first [apply IH | apply fetch_in_past | in_past_step].
Qed.

Lemma update_player_if_exists_in_past (player : player_info) (matchDate : Z) :
  maintains cursors_in_past
    (with_db (fun db =>
                let (r, db') := update_player_if_exists player matchDate db in
                (Ok r, db'))).
Proof.
  intros w [Hd Hrows]. unfold with_db. rewrite update_player_if_exists_eq.
  destruct (List.find (has_puuid (puuid player)) (players (w_db w))) as [stored|] eqn:E;
    [|split; assumption].
  destruct (Z.ltb_spec matchDate (lastMatchFetch stored)) as [Hlt|Hge];
    [|split; assumption].
  split; [exact Hd|]. simpl.
  apply find_some in E as [Hin _].
  assert (Hstored : lastMatchFetch stored <= w_clock w).
  { rewrite List.Forall_forall in Hrows. apply Hrows. exact Hin. }
  clear Hin. induction Hrows as [|x rest Hx Hrest IH]; simpl; [constructor|].
  destruct (has_puuid (puuid player) x); constructor; auto. simpl. lia.
Qed.

Lemma insert_player_list_in_past (data_list : list player_info) :
  maintains cursors_in_past (with_db (insert_player_list data_list)).
Proof.
  intros w [Hd Hrows]. unfold with_db, insert_player_list.
  destruct (puuid_constraints _ _); [|split; assumption].
  split; [exact Hd|]. simpl. apply Forall_app. split; [exact Hrows|].
  apply List.Forall_forall. intros row Hin. apply in_map_iff in Hin as (p & <- & _).
  exact Hd.
Qed.

Lemma insert_stats_list_in_past (data_list : list (list (string * value))) :
  maintains cursors_in_past (with_db (insert_stats_list data_list)).
Proof.
  intros w H. unfold with_db, insert_stats_list.
  destruct (for_each _ _); exact H.
Qed.

Lemma update_last_fetch_in_past (id : value) :
  maintains cursors_in_past
    (bind now (fun t => with_db (update_last_fetch t id))).
Proof.
  intros w [Hd Hrows]. unfold bind, now, with_db, update_last_fetch.
  destruct (List.find (has_puuid id) (players (w_db w))); [|split; assumption].
  split; [exact Hd|]. simpl.
  induction Hrows as [|x rest Hx Hrest IH]; simpl; [constructor|].
  destruct (has_puuid id x); constructor; auto. simpl. lia.
Qed.

Lemma match_loop_in_past (r : string) (match_list : list value) :
  maintains cursors_in_past (match_loop r match_list).
Proof.
  induction match_list as [|m rest IH]; simpl; [apply maintains_ret|].
  apply maintains_bind; [apply maintains_query|intros known].
  destruct known; [exact IH|].
  apply maintains_bind;
    [unfold get_match_data; repeat first [apply fetch_in_past | in_past_step]|].
  intros match_data. apply maintains_bind; [|intros _; exact IH].
  unfold store_match.
  apply maintains_bind; [apply maintains_lift|intros [m_info|]];
    [|apply maintains_ret].
  apply maintains_bind; [apply maintains_lift|intros p_info].
  apply maintains_bind; [apply maintains_lift|intros p_stats].
  apply maintains_bind.
  - generalize (@nil player_info) as batch.
    induction p_info as [|player others IHp]; intros batch; simpl;
      [apply maintains_ret|].
    apply maintains_bind; [apply update_player_if_exists_in_past|intros v].
    destruct (py_eq v (VBool true)); apply IHp.
  - intros new_p_info.
    apply maintains_bind; [apply insert_player_list_in_past|intros _].
    apply maintains_bind; [|intros _; apply insert_stats_list_in_past].
    intros w H. exact H.
Qed.

(** Every round of the worker, whatever its outcome, leaves all cursors in
    the past. *)
Lemma crawl_iteration_in_past (cur_region : string) (sub_regions : list string) :
  maintains cursors_in_past (crawl_iteration cur_region sub_regions).
Proof.
  unfold crawl_iteration.
  apply maintains_bind; [apply print_in_past|intros _].
  apply maintains_bind; [apply maintains_query|intros next].
  apply maintains_bind;
    [intros w; unfold collect_match_list; apply page_loop_in_past|intros collected].
  apply maintains_bind; [apply match_loop_in_past|intros _].
  apply maintains_bind; [destruct next; in_past_step|intros np].
  apply update_last_fetch_in_past.
Qed.

(** X16: The invariant of the loop of the crawler: if no stored cursor is
    later than the clock when the outer loop starts, none is after any
    number of rounds, however the loop ended. *)
Lemma crawl_loop_in_past (fuel : nat) (cur_region : string)
    (sub_regions : list string) :
  maintains cursors_in_past (crawl_loop fuel cur_region sub_regions).
Proof.
  induction fuel as [|n IH]; simpl; [apply maintains_stuck|].
  apply maintains_bind; [apply crawl_iteration_in_past|intros _; exact IH].
Qed.

(** * Further properties of the code *)

(** ** Equality of column values *)

Lemma py_eq_sym (a b : value) : py_eq a b = py_eq b a.
Proof.
  assert (Hq : forall x y, Qeq_bool x y = Qeq_bool y x).
  { intros x y. destruct (Qeq_bool x y) eqn:E.
    - symmetry. apply Qeq_bool_iff. symmetry. apply Qeq_bool_iff. exact E.
    - symmetry. apply not_true_is_false. intros H. apply Qeq_bool_iff in H.
      symmetry in H. apply Qeq_bool_iff in H. congruence. }
  destruct a, b; simpl; auto using String.eqb_sym, Z.eqb_sym.
Qed.

Lemma sql_eq_sym (a b : value) : sql_eq a b = sql_eq b a.
Proof.
  destruct a, b; try reflexivity;
    match goal with |- sql_eq ?x ?y = _ => exact (py_eq_sym x y) end.
Qed.

Lemma sql_eq_str (s t : string) : sql_eq (VStr s) (VStr t) = String.eqb s t.
Proof. reflexivity. Qed.

Lemma sql_eq_str_refl (s : string) : sql_eq (VStr s) (VStr s) = true.
Proof. simpl. apply String.eqb_refl. Qed.

(** ** Is the region started? *)

(** X1: The two tests for a first player agree: [main_region_is_started] is
    true exactly when [get_next_to_fetch] has a player to return, and for
    one region it is the test that [get_player_from_region_count] is
    positive. *)
Theorem main_region_is_started_agrees (regions : list string) (r : string) (db : DB) :
  main_region_is_started regions db
  = match get_next_to_fetch regions db with Some _ => true | None => false end
  /\ main_region_is_started [r] db = (0 <? get_player_from_region_count r db).
Proof.
  split.
  - unfold main_region_is_started, get_next_to_fetch.
    destruct (List.filter _ (players db)) as [|x rest] eqn:E.
    + reflexivity.
    + destruct (first_by lastMatchFetch (x :: rest)) eqn:F; [reflexivity|].
      apply first_by_None in F. discriminate.
  - unfold main_region_is_started, get_player_from_region_count.
    do 3 f_equal. apply filter_ext. intros p. unfold sql_in. simpl.
    apply orb_false_r.
Qed.

(** ** Player rows: ids and uniqueness *)

Section FirstId.
Context {A : Type} (p : A -> bool).

Lemma first_id_range (rows : list A) (n : Z) :
  first_id p rows = Some n -> 1 <= n <= Z.of_nat (length rows).
Proof.
  revert n. induction rows as [|x rest IH]; simpl; intros n H; [discriminate|].
  destruct (p x); [injection H as <-; lia|].
  destruct (first_id p rest) as [m|]; simpl in H; [|discriminate].
  injection H as <-. specialize (IH m eq_refl). lia.
Qed.

Lemma first_id_None (rows : list A) :
  first_id p rows = None <-> forallb (fun x => negb (p x)) rows = true.
Proof.
  induction rows as [|x rest IH]; simpl; [tauto|].
  destruct (p x); simpl; [split; discriminate|].
  destruct (first_id p rest); simpl in *; [|tauto].
  split; [discriminate|]. intros H. apply IH in H. discriminate.
Qed.

Lemma first_id_app (rows more : list A) :
  first_id p (rows ++ more)
  = match first_id p rows with
    | Some n => Some n
    | None => Z.add (Z.of_nat (length rows)) <$> first_id p more
    end.
Proof.
  induction rows as [|x rest IH]; simpl.
  - destruct (first_id p more); reflexivity.
  - destruct (p x); [reflexivity|]. rewrite IH.
    destruct (first_id p rest); simpl; [reflexivity|].
    destruct (first_id p more); simpl; [f_equal; lia|reflexivity].
Qed.
End FirstId.

(** The check on a batch, one row at a time. *)
Lemma puuid_constraints_cons (q : player_info) (rest : list player_info)
    (present : list value) :
  puuid_constraints (q :: rest) present
  = is_not_None (puuid q)
    && negb (existsb (sql_eq (puuid q)) present)
    && puuid_constraints rest (puuid q :: present).
Proof. simpl. destruct (puuid q); reflexivity. Qed.

(** Every row of an accepted batch has a puuid that is not NULL and equals
    none of those present before. *)
Lemma puuid_constraints_In (batch : list player_info) (present : list value)
    (p : player_info) :
  puuid_constraints batch present = true -> In p batch ->
  puuid p <> VNone /\ existsb (sql_eq (puuid p)) present = false.
Proof.
  revert present. induction batch as [|q rest IH]; intros present H Hin;
    [destruct Hin|].
  rewrite puuid_constraints_cons in H.
  apply andb_true_iff in H as [H Hrest]. apply andb_true_iff in H as [Hnn Hfresh].
  apply negb_true_iff in Hfresh.
  destruct Hin as [<-|Hin].
  - split; [|exact Hfresh]. intros E. rewrite E in Hnn. discriminate.
  - destruct (IH _ Hrest Hin) as [Hp Hex]. split; [exact Hp|].
    simpl in Hex. apply orb_false_iff in Hex. tauto.
Qed.

(** The check depends on the puuids present, not on their order. *)
Lemma puuid_constraints_ext (batch : list player_info) (present present' : list value) :
  (forall id, existsb (sql_eq id) present = existsb (sql_eq id) present') ->
  puuid_constraints batch present = puuid_constraints batch present'.
Proof.
  revert present present'. induction batch as [|q rest IH]; intros p1 p2 H;
    [reflexivity|].
  rewrite !puuid_constraints_cons. rewrite (H (puuid q)).
  rewrite (IH (puuid q :: p1) (puuid q :: p2)); [reflexivity|].
  intros id. simpl. rewrite H. reflexivity.
Qed.

Lemma puuid_constraints_app (batch more : list player_info) (present : list value) :
  puuid_constraints (batch ++ more) present
  = puuid_constraints batch present
    && puuid_constraints more (rev (List.map puuid batch) ++ present).
Proof.
  revert present. induction batch as [|q rest IH]; intros present; [reflexivity|].
  rewrite <- app_comm_cons, !puuid_constraints_cons, IH.
  rewrite (puuid_constraints_ext more
             (rev (List.map puuid (q :: rest)) ++ present)
             (rev (List.map puuid rest) ++ puuid q :: present)).
  - rewrite !andb_assoc. reflexivity.
  - intros id. simpl. rewrite <- app_assoc. reflexivity.
Qed.

(** X2: Insert, then look up: after [insert_player_list] has accepted a batch,
    [get_player_id] answers as before for every player that was stored, and
    every player of the batch (with a string puuid), who was not found
    before, is found now, under an id that no stored player had. *)
Theorem insert_player_list_then_get_player_id (data_list : list player_info)
    (db db' : DB)
    (Hinsert : insert_player_list data_list db = (Ok tt, db')) :
  (forall id v, get_player_id id db = Ok v -> get_player_id id db' = Ok v)
  /\ (forall p s,
        In p data_list -> puuid p = VStr s ->
        get_player_id (puuid p) db = Raise (AttributeError "id")
        /\ exists n,
             get_player_id (puuid p) db' = Ok (VInt n)
             /\ forall id v, get_player_id id db = Ok v -> v <> VInt n).
Proof.
  unfold insert_player_list in Hinsert.
  destruct (puuid_constraints data_list _) eqn:Hc; [|discriminate].
  injection Hinsert as <-. unfold get_player_id. cbn [players set_players].
  split.
  - intros id v H. rewrite first_id_app.
    destruct (first_id (has_puuid id) (players db)); [exact H|discriminate].
  - intros p s Hin Hs.
    destruct (puuid_constraints_In _ _ p Hc Hin) as [_ Hfresh].
    rewrite first_id_app.
    assert (Hold : first_id (has_puuid (puuid p)) (players db) = None).
    { apply first_id_None. apply forallb_forall. intros row Hrow.
      apply negb_true_iff. unfold has_puuid. rewrite sql_eq_sym.
      destruct (sql_eq (puuid p) (puuid (info row))) eqn:E; [|reflexivity].
      assert (Hex : existsb (sql_eq (puuid p))
                      (List.map (fun r => puuid (info r)) (players db)) = true).
      { apply existsb_exists. exists (puuid (info row)). split; [|exact E].
        apply in_map_iff. eauto. }
      congruence. }
    rewrite Hold. split; [reflexivity|].
    destruct (first_id (has_puuid (puuid p))
                (List.map (fun q => {| info := q;
                                       lastMatchFetch := default_lastMatchFetch |})
                          data_list)) as [n|] eqn:Hnew.
    + exists (Z.of_nat (length (players db)) + n). split; [reflexivity|].
      apply first_id_range in Hnew.
      intros id v Hv.
      destruct (first_id (has_puuid id) (players db)) as [m|] eqn:Hm;
        [|discriminate].
      apply first_id_range in Hm. injection Hv as <-. intros [= E]. lia.
    + exfalso. apply first_id_None in Hnew. rewrite forallb_forall in Hnew.
      specialize (Hnew {| info := p; lastMatchFetch := default_lastMatchFetch |}).
      unfold has_puuid in Hnew. simpl in Hnew. rewrite Hs, sql_eq_str_refl in Hnew.
      discriminate Hnew. apply in_map_iff. eauto.
Qed.

Lemma insert_player_list_then_get_player_id_witness :
  let db := set_players [sample_player "p1" "Ann" 1000] empty_db in
  let batch := [info (sample_player "p2" "Bob" 0); info (sample_player "p3" "Cid" 0)] in
  let db' := snd (insert_player_list batch db) in
  get_player_id (VStr "p1") db' = get_player_id (VStr "p1") db
  /\ get_player_id (VStr "p3") db = Raise (AttributeError "id")
  /\ exists n,
       get_player_id (VStr "p3") db' = Ok (VInt n)
       /\ get_player_id (VStr "p1") db' <> Ok (VInt n).
Proof.
  intros db batch db'.
  destruct (insert_player_list_then_get_player_id batch db db' eq_refl) as [Hold Hnew].
  destruct (Hnew (info (sample_player "p3" "Cid" 0)) "p3") as (Hbefore & n & Hn & Hfresh).
  - simpl. tauto.
  - reflexivity.
  - split; [apply Hold; reflexivity|]. split; [exact Hbefore|].
    exists n. split; [exact Hn|].
    rewrite (Hold (VStr "p1") (VInt 1) eq_refl). intros [= E].
    apply (Hfresh (VStr "p1") (VInt 1) eq_refl). f_equal. exact E.
Defined.

(** ** What the loop of the crawler leaves of the tables *)

Section KeepsWorker.
Variable P : DB -> DB -> Prop.
Hypothesis P_refl : forall db, P db db.
Hypothesis P_trans : forall a b c, P a b -> P b c -> P a c.
Hypothesis P_update_player_if_exists :
  forall player matchDate db, P db (snd (update_player_if_exists player matchDate db)).
Hypothesis P_insert_player_list :
  forall data_list db, P db (snd (insert_player_list data_list db)).
Hypothesis P_insert_match : forall data db, P db (insert_match data db).
Hypothesis P_insert_stats_list :
  forall data_list db, P db (snd (insert_stats_list data_list db)).
Hypothesis P_update_last_fetch :
  forall t id db, P db (snd (update_last_fetch t id db)).

Lemma keeps_crawl_iteration (r : string) (subs : list string) :
  db_related P (crawl_iteration r subs).
Proof.
  unfold crawl_iteration.
  apply keeps_bind; auto using keeps_print. intros _.
  apply keeps_bind; auto using keeps_query. intros next.
  apply keeps_bind; auto using keeps_collect_match_list. intros collected.
  apply keeps_bind; auto using keeps_match_loop. intros _.
  apply keeps_bind; auto using keeps_subscript_next. intros np.
  apply keeps_bind; auto using keeps_now. intros t.
  apply keeps_with_db. auto.
Qed.

Lemma keeps_crawl_loop (fuel : nat) (r : string) (subs : list string) :
  db_related P (crawl_loop fuel r subs).
Proof.
  induction fuel as [|fuel IH]; simpl; [apply keeps_stuck; auto|].
  apply keeps_bind; auto using keeps_crawl_iteration.
Qed.

End KeepsWorker.

Lemma existsb_rev {A} (f : A -> bool) (l : list A) : existsb f (rev l) = existsb f l.
Proof.
  induction l as [|x rest IH]; [reflexivity|].
  simpl. rewrite existsb_app, IH. simpl. rewrite orb_false_r. apply orb_comm.
Qed.

(** The check looks at the puuids of a batch only. *)
Lemma puuid_constraints_puuids (batch batch' : list player_info) (present : list value) :
  List.map puuid batch = List.map puuid batch' ->
  puuid_constraints batch present = puuid_constraints batch' present.
Proof.
  revert batch' present. induction batch as [|q rest IH]; intros [|q' rest'] present H;
    try discriminate; [reflexivity|].
  injection H as Hq Hrest. rewrite !puuid_constraints_cons, Hq.
  rewrite (IH rest' _ Hrest). reflexivity.
Qed.

Lemma update_first_puuids (p : Player -> bool) (f : Player -> Player)
    (rows : list Player) :
  (forall row, puuid (info (f row)) = puuid (info row)) ->
  List.map puuid (List.map info (update_first p f rows))
  = List.map puuid (List.map info rows).
Proof.
  intros Hf. induction rows as [|x rest IH]; [reflexivity|].
  simpl. destruct (p x); simpl; [rewrite Hf|rewrite IH]; reflexivity.
Qed.

Lemma update_player_if_exists_unique (player : player_info) (matchDate : Z) (db : DB) :
  unique_puuids db ->
  unique_puuids (snd (update_player_if_exists player matchDate db)).
Proof.
  rewrite update_player_if_exists_eq.
  destruct (List.find _ (players db)) as [stored|]; [|auto].
  destruct (matchDate <? lastMatchFetch stored); [|auto].
  unfold unique_puuids. simpl. intros H. rewrite <- H.
  apply puuid_constraints_puuids, update_first_puuids. reflexivity.
Qed.

Lemma update_last_fetch_unique (t : Z) (id : value) (db : DB) :
  unique_puuids db -> unique_puuids (snd (update_last_fetch t id db)).
Proof.
  unfold update_last_fetch. destruct (List.find _ (players db)); [|auto].
  unfold unique_puuids. simpl. intros H. rewrite <- H.
  apply puuid_constraints_puuids, update_first_puuids. reflexivity.
Qed.

Lemma insert_player_list_unique (data_list : list player_info) (db : DB) :
  unique_puuids db -> unique_puuids (snd (insert_player_list data_list db)).
Proof.
  unfold insert_player_list.
  destruct (puuid_constraints data_list _) eqn:Hc; [|auto].
  unfold unique_puuids. simpl. intros H.
  rewrite map_app, map_map. simpl. rewrite map_id.
  rewrite puuid_constraints_app, H. simpl. rewrite <- Hc.
  apply puuid_constraints_ext. intros id.
  rewrite app_nil_r, existsb_rev, map_map. reflexivity.
Qed.

Lemma insert_stats_list_players (data_list : list (list (string * value))) (db : DB) :
  players (snd (insert_stats_list data_list db)) = players db.
Proof. unfold insert_stats_list. destruct (for_each _ _); reflexivity. Qed.

(** X3: The uniqueness of [Player.puuid] is an invariant of the loop of the
    crawler: if no two rows of [players] share a puuid and none has a NULL
    one when the outer loop starts, that is still so after any number of
    rounds, whether the loop ended by an exception or not. *)
Theorem crawl_loop_keeps_puuids_unique (fuel : nat) (cur_region : string)
    (sub_regions : list string) (w : World)
    (Hunique : unique_puuids (w_db w)) :
  unique_puuids (w_db (snd (crawl_loop fuel cur_region sub_regions w))).
Proof.
  revert Hunique.
  apply (keeps_crawl_loop (fun db db' => unique_puuids db -> unique_puuids db')).
  - auto.
  - auto.
  - apply update_player_if_exists_unique.
  - apply insert_player_list_unique.
  - intros data db H. exact H.
  - intros data db. unfold unique_puuids.
    rewrite insert_stats_list_players. auto.
  - apply update_last_fetch_unique.
Qed.

Lemma crawl_loop_keeps_puuids_unique_witness :
  let w := fresh_world (VStr "key")
             [ page_reply (0%N, [VStr "BR1_1"]);
               ok_reply (sample_match "BR1_1" "GameComplete" 1715000000000 1800
                           [ sample_participant "p1" "Ann" 100;
                             sample_participant "p2" "Bob" 200 ]) ]
             1716000000000000
             (set_players [sample_player "p1" "Ann" default_lastMatchFetch] empty_db) in
  let w' := snd (crawl_loop 3 "americas" ["br1"] w) in
  List.map (fun row => puuid (info row)) (players (w_db w')) = [VStr "p1"; VStr "p2"]
  /\ unique_puuids (w_db w').
Proof.
  intros w w'. split; [vm_compute; reflexivity|].
  apply (crawl_loop_keeps_puuids_unique 3 "americas" ["br1"] w).
  reflexivity.
Defined.

(** ** The dedup gate of the match loop *)

(** X4: A list of matches that are all stored already costs nothing: the loop
    sends no request, writes nothing and returns. *)
Theorem match_loop_known_is_noop (cur_region : string) (match_list : list value)
    (w : World)
    (Hknown : forallb (fun m => match_on_db m (w_db w)) match_list = true) :
  match_loop cur_region match_list w = (Ok tt, w).
Proof.
  induction match_list as [|m rest IH]; [reflexivity|].
  simpl in Hknown. apply andb_true_iff in Hknown as [Hm Hrest].
  cbn [match_loop]. unfold bind at 1. unfold query at 1. rewrite Hm.
  apply IH. exact Hrest.
Qed.

Lemma match_on_db_insert_match (mi : match_info) (id : value) (db : DB) :
  match_on_db id (insert_match mi db)
  = match_on_db id db || sql_eq (matchId mi) id.
Proof.
  unfold match_on_db, insert_match. cbn [matches].
  induction (matches db) as [|x rest IH]; simpl.
  - destruct (sql_eq (matchId mi) id); reflexivity.
  - destruct (sql_eq (matchId x) id); [reflexivity|exact IH].
Qed.

Lemma player_loop_matches (p_info : list player_info) (start : Z)
    (batch : list player_info) (w : World) :
  matches (w_db (snd (player_loop p_info start batch w))) = matches (w_db w).
Proof.
  apply (keeps_player_loop (fun db db' => matches db' = matches db)); auto.
  - intros a b c Hab Hbc. congruence.
  - intros player matchDate db. rewrite update_player_if_exists_eq.
    destruct (List.find _ (players db)) as [stored|]; [|reflexivity].
    destruct (matchDate <? lastMatchFetch stored); reflexivity.
Qed.

(** What [store_match] has done when it returns for a game that was not
    aborted: the match row is the last of [matches], the tables of players
    and matches are the ones the stats were resolved against, and one stats
    row per participant has been added. *)
Lemma store_match_Ok (data : value) (mi : match_info) (w w' : World) :
  get_match_info data = Ok (Some mi) ->
  store_match data w = (Ok tt, w') ->
  exists p_stats,
    get_player_stats data = Ok p_stats
    /\ matches (w_db w') = matches (w_db w) ++ [mi]
    /\ exists db1,
         players db1 = players (w_db w') /\ matches db1 = matches (w_db w')
         /\ stats db1 = stats (w_db w)
         /\ insert_stats_list p_stats db1 = (Ok tt, w_db w').
Proof.
  intros Hinfo. unfold store_match. unfold bind at 1. unfold lift at 1.
  rewrite Hinfo.
  unfold bind at 1. unfold lift at 1.
  destruct (get_player_info data) as [p_info| |]; try discriminate.
  unfold bind at 1. unfold lift at 1.
  destruct (get_player_stats data) as [p_stats| |]; try discriminate.
  unfold bind at 1.
  pose proof (player_loop_matches p_info (matchStart mi) [] w) as Hm1.
  assert (Hs1 : stats (w_db (snd (player_loop p_info (matchStart mi) [] w)))
                = stats (w_db w)).
  { apply (keeps_player_loop (fun db db' => stats db' = stats db)); auto.
    - intros a b c Hab Hbc. congruence.
    - intros player matchDate db. rewrite update_player_if_exists_eq.
      destruct (List.find _ (players db)) as [stored|]; [|reflexivity].
      destruct (matchDate <? lastMatchFetch stored); reflexivity. }
  destruct (player_loop p_info (matchStart mi) [] w) as [[new_p_info| |] w1];
    try discriminate.
  simpl in Hm1, Hs1.
  unfold bind at 1. unfold with_db at 1. unfold insert_player_list.
  destruct (puuid_constraints new_p_info _); [|discriminate].
  unfold bind at 1. unfold with_db at 1. cbn [w_db set_db].
  unfold with_db. cbn [w_db set_db].
  set (db1 := insert_match mi _).
  destruct (insert_stats_list p_stats db1) as [[[]| |] db2] eqn:Hstats;
    try discriminate.
  intros [= Hw]. subst w'. cbn [w_db set_db].
  assert (Hdb2 : players db2 = players db1 /\ matches db2 = matches db1).
  { unfold insert_stats_list in Hstats.
    destruct (for_each _ _); inversion Hstats; subst; auto. }
  destruct Hdb2 as [Hp2 Hm2].
  exists p_stats. split; [reflexivity|]. split.
  - rewrite Hm2. subst db1. cbn [matches insert_match set_players]. rewrite Hm1.
    reflexivity.
  - exists db1. repeat split; auto.
Qed.

(** X5: Store, then ask the gate: once [store_match] has returned for a game
    that was not aborted, [match_on_db] knows the id of the match, so a
    later pass over the same list skips it. *)
Theorem store_match_then_match_on_db (data : value) (mi : match_info) (s : string)
    (w w' : World)
    (Hinfo : get_match_info data = Ok (Some mi))
    (Hid : matchId mi = VStr s)
    (Hstore : store_match data w = (Ok tt, w')) :
  match_on_db (VStr s) (w_db w') = true.
Proof.
  destruct (store_match_Ok data mi w w' Hinfo Hstore) as (_ & _ & Hm & _).
  unfold match_on_db. rewrite Hm.
  destruct (List.find _ (matches (w_db w) ++ [mi])) eqn:E; [reflexivity|].
  assert (Hmi : sql_eq (matchId mi) (VStr s) = false).
  { apply (find_none _ _ E mi). apply in_or_app. right. simpl. auto. }
  rewrite Hid, sql_eq_str_refl in Hmi. discriminate.
Qed.

Lemma store_match_then_match_on_db_witness :
  let data := sample_match "BR1_1" "GameComplete" 1715000000000 1800
                [sample_participant "p1" "Ann" 100] in
  let w := fresh_world (VStr "key") [] 1716000000000000 empty_db in
  match_on_db (VStr "BR1_1") (w_db w) = false
  /\ match_on_db (VStr "BR1_1") (w_db (snd (store_match data w))) = true.
Proof.
  intros data w. split; [reflexivity|].
  apply (store_match_then_match_on_db data
           {| gameVersion := VStr "14.9.580"; matchId := VStr "BR1_1";
              matchStart := 1715000000000000; matchDuration := VInt 1800;
              matchWinner := false; matchSurrender := VBool false;
              matchRemake := VBool false |}
           "BR1_1" w).
  - reflexivity.
  - reflexivity.
  - vm_compute. reflexivity.
Defined.

Lemma match_loop_known_is_noop_witness :
  let data := sample_match "BR1_1" "GameComplete" 1715000000000 1800
                [sample_participant "p1" "Ann" 100] in
  let w := snd (store_match data (fresh_world (VStr "key") [] 1716000000000000 empty_db)) in
  match_loop "americas" [VStr "BR1_1"; VStr "BR1_1"] w = (Ok tt, w).
Proof.
  intros data w.
  apply (match_loop_known_is_noop "americas" [VStr "BR1_1"; VStr "BR1_1"] w).
  reflexivity.
Defined.

(** ** Stats rows and the rows they refer to *)

Lemma lookup_key_setitem_eq (k : string) (v : value) (kv : list (string * value)) :
  lookup_key k (setitem k v kv) = Some v.
Proof.
  unfold lookup_key. induction kv as [|[k' v'] rest IH]; simpl.
  - rewrite String.eqb_refl. reflexivity.
  - destruct (String.eqb k' k) eqn:E; simpl.
    + rewrite String.eqb_refl. reflexivity.
    + rewrite E. exact IH.
Qed.

Lemma lookup_key_setitem_ne (k k' : string) (v : value) (kv : list (string * value)) :
  k <> k' -> lookup_key k' (setitem k v kv) = lookup_key k' kv.
Proof.
  intros Hne. unfold lookup_key. induction kv as [|[k0 v0] rest IH]; simpl.
  - destruct (String.eqb_spec k k'); [contradiction|reflexivity].
  - destruct (String.eqb_spec k0 k) as [->|Hk]; simpl.
    + destruct (String.eqb_spec k k'); [contradiction|reflexivity].
    + destruct (String.eqb k0 k'); [reflexivity|exact IH].
Qed.

Lemma lookup_key_filter (columns : list string) (k : string)
    (stat : list (string * value)) :
  existsb (String.eqb k) columns = true ->
  lookup_key k (List.filter (fun p => existsb (String.eqb (fst p)) columns) stat)
  = lookup_key k stat.
Proof.
  intros Hk. unfold lookup_key.
  induction stat as [|[k0 v0] rest IH]; [reflexivity|].
  cbn [List.filter List.find fst]. destruct (String.eqb_spec k0 k) as [->|Hne].
  - rewrite Hk. cbn [List.find fst]. rewrite String.eqb_refl. reflexivity.
  - destruct (existsb (String.eqb k0) columns); cbn [List.find fst]; [|exact IH].
    destruct (String.eqb_spec k0 k); [contradiction|exact IH].
Qed.

Lemma lookup_key_stats_row (k : string) (stat : list (string * value)) :
  existsb (String.eqb k) stats_columns = true ->
  lookup_key k (stats_row stat) = lookup_key k stat.
Proof. apply lookup_key_filter. Qed.

Lemma for_each_Forall2 {A B} (f : A -> res B) (items : list A) (out : list B) :
  for_each f items = Ok out -> Forall2 (fun x y => f x = Ok y) items out.
Proof.
  revert out. induction items as [|x rest IH]; simpl; intros out H.
  - injection H as <-. constructor.
  - destruct (f x) as [y| |] eqn:E; simpl in H; try discriminate.
    destruct (for_each f rest) as [ys| |]; simpl in H; try discriminate.
    injection H as <-. constructor; auto.
Qed.

(** What [resolve_stat] makes of a mapping: [playerId] and [matchId] are
    replaced by what [get_player_id] and [get_match_id] return for them, so
    both lookups found a row; the other columns are kept. *)
Lemma resolve_stat_references (db : DB) (stat row : list (string * value)) :
  resolve_stat db stat = Ok row ->
  exists p m pid mid,
    lookup_key "playerId" stat = Some p
    /\ lookup_key "matchId" stat = Some m
    /\ get_player_id p db = Ok pid
    /\ get_match_id m db = Ok mid
    /\ lookup_key "playerId" (stats_row row) = Some pid
    /\ lookup_key "matchId" (stats_row row) = Some mid
    /\ forall k,
         existsb (String.eqb k) stats_columns = true ->
         k <> "playerId" -> k <> "matchId" ->
         lookup_key k (stats_row row) = lookup_key k stat.
Proof.
  unfold resolve_stat, getitem. intros H.
  destruct (lookup_key "playerId" stat) as [p|] eqn:Hp; cbn [res_bind] in H;
    try discriminate.
  destruct (get_player_id p db) as [pid| |] eqn:Hpid; cbn [res_bind] in H;
    try discriminate.
  rewrite lookup_key_setitem_ne in H by discriminate.
  destruct (lookup_key "matchId" stat) as [m|] eqn:Hm; cbn [res_bind] in H;
    try discriminate.
  destruct (get_match_id m db) as [mid| |] eqn:Hmid; cbn [res_bind] in H;
    try discriminate.
  injection H as Hrow. subst row. exists p, m, pid, mid.
  rewrite !lookup_key_stats_row by reflexivity.
  rewrite lookup_key_setitem_ne by discriminate.
  rewrite !lookup_key_setitem_eq.
  repeat split; auto.
  intros k Hk Hnp Hnm. rewrite lookup_key_stats_row by exact Hk.
  rewrite !lookup_key_setitem_ne by congruence. reflexivity.
Qed.

(** X6: Referential integrity of [insert_stats_list]: when it returns, it has
    added one row per mapping, in order, and left the other tables alone;
    in every added row [playerId] and [matchId] are what [get_player_id]
    and [get_match_id] return for the puuid and the match id of the
    mapping, hence ids of rows that exist, and the other columns are those
    of the mapping. *)
Theorem insert_stats_list_references (data_list : list (list (string * value)))
    (db db' : DB)
    (Hinsert : insert_stats_list data_list db = (Ok tt, db')) :
  players db' = players db /\ matches db' = matches db /\ ratings db' = ratings db
  /\ exists added,
       stats db' = stats db ++ added
       /\ Forall2 (fun stat row =>
                     exists p m pid mid,
                       lookup_key "playerId" stat = Some p
                       /\ lookup_key "matchId" stat = Some m
                       /\ get_player_id p db' = Ok pid
                       /\ get_match_id m db' = Ok mid
                       /\ lookup_key "playerId" row = Some pid
                       /\ lookup_key "matchId" row = Some mid
                       /\ forall k,
                            existsb (String.eqb k) stats_columns = true ->
                            k <> "playerId" -> k <> "matchId" ->
                            lookup_key k row = lookup_key k stat)
                  data_list added.
Proof.
  unfold insert_stats_list in Hinsert.
  destruct (for_each (resolve_stat db) data_list) as [resolved| |] eqn:E;
    try discriminate.
  injection Hinsert as Hdb. subst db'. cbn [players matches ratings stats].
  repeat split. exists (List.map stats_row resolved).
  apply for_each_Forall2 in E.
  split; [reflexivity|].
  clear -E. induction E as [|stat row stats rows Hrow _ IH]; simpl;
    constructor; auto.
  apply (resolve_stat_references db stat row Hrow).
Qed.

Lemma insert_stats_list_references_witness :
  let db := insert_match
              {| gameVersion := VStr "14.9.580"; matchId := VStr "BR1_1";
                 matchStart := 0; matchDuration := VInt 1800;
                 matchWinner := false; matchSurrender := VBool false;
                 matchRemake := VBool false |}
              (set_players [sample_player "p1" "Ann" 0; sample_player "p2" "Bob" 0]
                 empty_db) in
  let data := [ [("playerId", VStr "p2"); ("matchId", VStr "BR1_1");
                 ("kills", VInt 7); ("csPerMin", VFloat 5)] ] in
  let db' := snd (insert_stats_list data db) in
  players db' = players db
  /\ exists row pid mid,
       stats db' = [row]
       /\ get_player_id (VStr "p2") db = Ok pid
       /\ get_match_id (VStr "BR1_1") db = Ok mid
       /\ lookup_key "playerId" row = Some pid
       /\ lookup_key "matchId" row = Some mid
       /\ lookup_key "kills" row = Some (VInt 7)
       /\ lookup_key "csPerMin" row = None.
Proof.
  intros db data db'.
  destruct (insert_stats_list_references data db db' eq_refl)
    as (Hplayers & _ & _ & added & Hstats & Hrows).
  split; [exact Hplayers|].
  inversion Hrows as [|stat row stats rows Hrow Hrest]; subst.
  inversion Hrest; subst.
  destruct Hrow as (p & m & pid & mid & Hp & Hm & _ & _ & Hpid & Hmid & Hother).
  exists row, pid, mid. split; [exact Hstats|].
  vm_compute in Hstats. injection Hstats as <-.
  vm_compute in Hpid, Hmid. injection Hpid as <-. injection Hmid as <-.
  repeat split.
Defined.

(** ** The two per-participant transformers *)

Lemma dict_display_cons (k : string) (e : res value) (rest : list (string * res value)) :
  dict_display ((k, e) :: rest)
  = (let? v := e in let? vs := dict_display rest in Ok ((k, v) :: vs)).
Proof. reflexivity. Qed.

Lemma reraise_Ok {A} (prefix : string) (r : res A) (a : A) :
  reraise prefix r = Ok a -> r = Ok a.
Proof. destruct r; simpl; intros H; congruence. Qed.

(** The first two entries of a stats dict: the puuid of the participant
    and the match id of the payload. *)
Lemma player_stats_ids (data participant : value) (stat : list (string * value)) :
  dict_display (player_stats_entries data participant) = Ok stat ->
  exists id m,
    getitem participant "puuid" = Ok id
    /\ subscript data [K "metadata"; K "matchId"] = Ok m
    /\ lookup_key "playerId" stat = Some id
    /\ lookup_key "matchId" stat = Some m.
Proof.
  unfold player_stats_entries.
  match goal with
  | |- dict_display (_ :: _ :: ?rest) = _ -> _ => generalize rest
  end.
  intros rest. rewrite 2 dict_display_cons. cbn [subscript].
  destruct (getitem participant "puuid") as [id| |]; cbn [res_bind];
    try discriminate.
  destruct (getitem data "metadata") as [meta| |]; cbn [res_bind];
    try discriminate.
  destruct (getitem meta "matchId") as [m| |]; cbn [res_bind];
    try discriminate.
  destruct (dict_display rest) as [vs| |]; cbn [res_bind]; try discriminate.
  intros H. injection H as Hstat. subst stat. exists id, m.
  repeat split; reflexivity.
Qed.

(** Player dicts and stats dicts, position by position. *)
Lemma player_stats_aligned (data : value) (p_info : list player_info)
    (p_stats : list (list (string * value))) :
  get_player_info data = Ok p_info ->
  get_player_stats data = Ok p_stats ->
  Forall2 (fun player stat =>
             lookup_key "playerId" stat = Some (puuid player)
             /\ exists m,
                  lookup_key "matchId" stat = Some m
                  /\ subscript data [K "metadata"; K "matchId"] = Ok m)
          p_info p_stats.
Proof.
  intros Hinfo Hstats.
  apply reraise_Ok in Hinfo. apply reraise_Ok in Hstats.
  destruct (subscript data [K "info"; K "participants"]) as [participants| |];
    cbn [res_bind] in *; try discriminate.
  destruct (iterate participants) as [items| |]; cbn [res_bind] in *;
    try discriminate.
  apply for_each_Forall2 in Hinfo. apply for_each_Forall2 in Hstats.
  revert p_stats Hstats.
  induction Hinfo as [|item player items players Hplayer _ IH];
    intros p_stats Hstats; inversion Hstats as [|? stat ? stats Hstat Hrest];
    subst; constructor; auto.
  destruct (player_stats_ids data item stat Hstat) as (id & m & Hid & Hm & Hp & Hmid).
  split; [|eauto].
  rewrite Hp. f_equal. unfold get_player_info_of in Hplayer. rewrite Hid in Hplayer.
  cbn [res_bind] in Hplayer.
  repeat match type of Hplayer with
         | res_bind ?r _ = Ok _ =>
             destruct r; cbn [res_bind] in Hplayer; try discriminate
         end.
  injection Hplayer as <-. reflexivity.
Qed.

(** X7: [get_player_info] and [get_player_stats] go through the participants
    in the same order: when both return, they return one dict per
    participant, the [playerId] of the n-th stats dict is the [puuid] of the
    n-th player dict, and every stats dict carries the match id of the
    payload. *)
Theorem player_stats_follow_player_info (data : value) (p_info : list player_info)
    (p_stats : list (list (string * value)))
    (Hinfo : get_player_info data = Ok p_info)
    (Hstats : get_player_stats data = Ok p_stats) :
  exists participants items,
    subscript data [K "info"; K "participants"] = Ok participants
    /\ iterate participants = Ok items
    /\ length p_info = length items
    /\ length p_stats = length items
    /\ Forall2 (fun player stat =>
                  lookup_key "playerId" stat = Some (puuid player)
                  /\ exists m,
                       lookup_key "matchId" stat = Some m
                       /\ subscript data [K "metadata"; K "matchId"] = Ok m)
               p_info p_stats.
Proof.
  pose proof (player_stats_aligned data p_info p_stats Hinfo Hstats) as Haligned.
  apply reraise_Ok in Hinfo. apply reraise_Ok in Hstats.
  destruct (subscript data [K "info"; K "participants"]) as [participants| |];
    cbn [res_bind] in *; try discriminate.
  destruct (iterate participants) as [items| |] eqn:Hitems; cbn [res_bind] in *;
    try discriminate.
  apply for_each_Forall2 in Hinfo. apply for_each_Forall2 in Hstats.
  exists participants, items. split; [reflexivity|]. split; [exact Hitems|].
  split; [symmetry; eapply Forall2_length; exact Hinfo|].
  split; [symmetry; eapply Forall2_length; exact Hstats|].
  exact Haligned.
Qed.

Lemma player_stats_follow_player_info_witness :
  let data := sample_match "BR1_1" "GameComplete" 1715000000000 1800
                [sample_participant "p1" "Ann" 100; sample_participant "p2" "Bob" 200] in
  exists p_info p_stats,
    get_player_info data = Ok p_info /\ get_player_stats data = Ok p_stats
    /\ List.map puuid p_info = [VStr "p1"; VStr "p2"]
    /\ Forall2 (fun player stat =>
                  lookup_key "playerId" stat = Some (puuid player)
                  /\ exists m,
                       lookup_key "matchId" stat = Some m
                       /\ subscript data [K "metadata"; K "matchId"] = Ok m)
               p_info p_stats.
Proof.
  intros data.
  destruct (get_player_info data) as [p_info| |] eqn:Hi; try discriminate.
  destruct (get_player_stats data) as [p_stats| |] eqn:Hs; try discriminate.
  exists p_info, p_stats.
  destruct (player_stats_follow_player_info data p_info p_stats Hi Hs)
    as (_ & _ & _ & _ & _ & _ & H).
  repeat split; [|exact H].
  vm_compute in Hi. injection Hi as <-. reflexivity.
Defined.

(** ** The outcomes of [get_match_info] *)

Lemma py_eq_VStr (v : value) (s : string) : py_eq v (VStr s) = true -> v = VStr s.
Proof.
  destruct v; simpl; try discriminate.
  intros H. apply String.eqb_eq in H. congruence.
Qed.

(** X8: The three outcomes of [get_match_info]: [None] only for an aborted
    game; a dict only for a game that was not aborted, and then with the
    match id and the duration of the payload; an exception that either names
    the match (the re-raise) or, when the match id cannot be read, is the
    exception of reading it. *)
Theorem get_match_info_outcomes (data : value) :
  (get_match_info data = Ok None ->
   subscript data [K "info"; K "endOfGameResult"] = Ok (VStr "Abort_Unexpected"))
  /\ (forall mi,
        get_match_info data = Ok (Some mi) ->
        subscript data [K "metadata"; K "matchId"] = Ok (matchId mi)
        /\ subscript data [K "info"; K "gameDuration"] = Ok (matchDuration mi)
        /\ exists result,
             subscript data [K "info"; K "endOfGameResult"] = Ok result
             /\ py_eq result (VStr "Abort_Unexpected") = false)
  /\ (forall e,
        get_match_info data = Raise e ->
        (exists m cause,
           e = ExceptionMatch m cause
           /\ subscript data [K "metadata"; K "matchId"] = Ok m
           /\ get_match_info_body data = Raise cause)
        \/ subscript data [K "metadata"; K "matchId"] = Raise e).
Proof.
  unfold get_match_info.
  assert (Hbody :
    (get_match_info_body data = Ok None ->
     subscript data [K "info"; K "endOfGameResult"] = Ok (VStr "Abort_Unexpected"))
    /\ (forall mi,
          get_match_info_body data = Ok (Some mi) ->
          subscript data [K "metadata"; K "matchId"] = Ok (matchId mi)
          /\ subscript data [K "info"; K "gameDuration"] = Ok (matchDuration mi)
          /\ exists result,
               subscript data [K "info"; K "endOfGameResult"] = Ok result
               /\ py_eq result (VStr "Abort_Unexpected") = false)).
  { unfold get_match_info_body.
    destruct (subscript data [K "info"; K "endOfGameResult"]) as [result| |];
      cbn [res_bind]; [|split; [|intros mi]; discriminate..].
    destruct (py_eq result (VStr "Abort_Unexpected")) eqn:E; cbn [negb].
    - split; [|intros mi; discriminate].
      intros _. f_equal. apply py_eq_VStr. exact E.
    - destruct (subscript data [K "info"; K "gameVersion"]) as [v1| |];
        cbn [res_bind]; [|split; [|intros mi]; discriminate..].
      destruct (subscript data [K "metadata"; K "matchId"]) as [v2| |];
        cbn [res_bind]; [|split; [|intros mi]; discriminate..].
      destruct (subscript data [K "info"; K "gameCreation"]) as [v3| |];
        cbn [res_bind]; [|split; [|intros mi]; discriminate..].
      destruct (truediv v3 (VInt 1000)) as [v4| |];
        cbn [res_bind]; [|split; [|intros mi]; discriminate..].
      destruct (fromtimestamp v4) as [v5| |];
        cbn [res_bind]; [|split; [|intros mi]; discriminate..].
      destruct (subscript data [K "info"; K "gameDuration"]) as [v6| |];
        cbn [res_bind]; [|split; [|intros mi]; discriminate..].
      destruct (subscript data [K "info"; K "teams"; I 0; K "win"]) as [v7| |];
        cbn [res_bind]; [|split; [|intros mi]; discriminate..].
      destruct (subscript data
                  [K "info"; K "participants"; I 0; K "gameEndedInSurrender"])
        as [v8| |]; cbn [res_bind]; [|split; [|intros mi]; discriminate..].
      destruct (subscript data
                  [K "info"; K "participants"; I 0; K "gameEndedInEarlySurrender"])
        as [v9| |]; cbn [res_bind]; [|split; [|intros mi]; discriminate..].
      split; [discriminate|]. intros mi H. injection H as <-. simpl. eauto. }
  destruct Hbody as [Hnone Hsome].
  destruct (get_match_info_body data) as [[mi|]|cause|] eqn:Hb.
  - split; [discriminate|]. split; [|discriminate].
    intros mi' H. injection H as <-. apply Hsome. reflexivity.
  - split; [intros _; apply Hnone; reflexivity|]. split; [|discriminate].
    intros mi H. discriminate.
  - split; [|split; [intros mi|]];
      destruct (subscript data [K "metadata"; K "matchId"]) as [m| |];
      cbn [res_bind]; try discriminate.
    + intros e H. injection H as <-. left. eauto.
    + intros e' H. right. injection H as <-. reflexivity.
  - split; [discriminate|]. split; [intros mi|intros e]; discriminate.
Qed.

(** A payload of a finished game without the list of teams: the re-raise
    names the match; without the match id as well: the [KeyError] of the
    handler. *)
Example get_match_info_raises :
  get_match_info
    (VDict [ ("metadata", VDict [("matchId", VStr "BR1_1")]);
             ("info", VDict [ ("endOfGameResult", VStr "GameComplete");
                              ("gameVersion", VStr "14.9");
                              ("gameCreation", VInt 1715000000000);
                              ("gameDuration", VInt 1800) ]) ])
  = Raise (ExceptionMatch (VStr "BR1_1") (KeyError "teams"))
  /\ get_match_info (VDict [("info", VDict [])]) = Raise (KeyError "metadata").
Proof. split; reflexivity. Qed.

(** ** What [get_rating_list] returns *)

Lemma new_rating_of_fields (rating_response : value) (region_name : string)
    (high_rank : bool) (item : value) (r : rating) :
  new_rating_of rating_response region_name high_rank item = Ok r ->
  r_region r = VStr region_name
  /\ getitem item "summonerId" = Ok (r_summonerId r)
  /\ getitem item "leaguePoints" = Ok (r_leaguePoints r)
  /\ getitem item "wins" = Ok (r_wins r)
  /\ getitem item "losses" = Ok (r_losses r)
  /\ getitem (if high_rank then rating_response else item) "tier" = Ok (r_tier r).
Proof.
  unfold new_rating_of.
  destruct (if high_rank then getitem rating_response "tier" else getitem item "tier")
    as [v1| |] eqn:E1; cbn [res_bind]; try discriminate.
  destruct (getitem item "rank") as [v2| |]; cbn [res_bind]; try discriminate.
  destruct (getitem item "wins") as [v3| |]; cbn [res_bind]; try discriminate.
  destruct (getitem item "losses") as [v4| |]; cbn [res_bind]; try discriminate.
  destruct (getitem item "leaguePoints") as [v5| |]; cbn [res_bind]; try discriminate.
  destruct (getitem item "summonerId") as [v6| |]; cbn [res_bind]; try discriminate.
  intros H. injection H as Hr. subst r. simpl. repeat split.
  destruct high_rank; exact E1.
Qed.

(** The loop of [get_rating_list] keeps what it had, in order, and adds
    entries of the page that are not up to date. *)
Lemma rating_loop_kept (db : DB) (rating_response : value) (region_name : string)
    (high_rank : bool) (items : list value) (acc out : list rating) :
  rating_loop db rating_response region_name high_rank items acc = Ok out ->
  exists kept,
    out = acc ++ kept
    /\ (length kept <= length items)%nat
    /\ Forall (fun r =>
                 rating_up_to_date r db = false
                 /\ exists item,
                      In item items
                      /\ new_rating_of rating_response region_name high_rank item = Ok r)
              kept.
Proof.
  revert acc out. induction items as [|item rest IH]; intros acc out H.
  - simpl in H. injection H as <-. exists []. rewrite app_nil_r.
    repeat split; auto.
  - cbn [rating_loop] in H.
    destruct (new_rating_of rating_response region_name high_rank item)
      as [r| |] eqn:Hr; cbn [res_bind] in H; try discriminate.
    destruct (IH _ _ H) as (kept & -> & Hlen & Hall).
    assert (Hall' : Forall (fun r0 =>
                      rating_up_to_date r0 db = false
                      /\ exists item0,
                           In item0 (item :: rest)
                           /\ new_rating_of rating_response region_name high_rank item0
                              = Ok r0) kept).
    { eapply Forall_impl; [exact Hall|]. simpl.
      intros r0 (Hu & item0 & Hin & Hn). split; [exact Hu|]. eauto. }
    destruct (rating_up_to_date r db) eqn:Hu; cbn [negb].
    + exists kept. repeat split; auto. simpl. lia.
    + exists (r :: kept). rewrite <- app_assoc. repeat split; simpl; auto; [lia|].
      constructor; [|exact Hall']. split; [exact Hu|]. exists item. auto.
Qed.

(** X9: The result of [get_rating_list]: no more entries than the page has,
    each built from an entry of the page, tagged with the region, and none
    of them up to date in the table the function read. *)
Theorem get_rating_list_result (db : DB) (rating_response : value)
    (region_name : string) (high_rank : bool) (out : list rating)
    (Hout : get_rating_list db rating_response region_name high_rank = Ok out) :
  exists items,
    iterate_source rating_response high_rank = Ok items
    /\ (length out <= length items)%nat
    /\ Forall (fun r =>
                 rating_up_to_date r db = false
                 /\ r_region r = VStr region_name
                 /\ exists item,
                      In item items
                      /\ getitem item "summonerId" = Ok (r_summonerId r)
                      /\ getitem item "leaguePoints" = Ok (r_leaguePoints r)
                      /\ getitem item "wins" = Ok (r_wins r)
                      /\ getitem item "losses" = Ok (r_losses r)
                      /\ getitem (if high_rank then rating_response else item) "tier"
                         = Ok (r_tier r))
              out.
Proof.
  apply reraise_Ok in Hout. unfold iterate_source.
  destruct (if high_rank then getitem rating_response "entries" else Ok rating_response)
    as [source| |]; cbn [res_bind] in *; try discriminate.
  destruct (iterate source) as [items| |]; cbn [res_bind] in *; try discriminate.
  destruct (rating_loop_kept _ _ _ _ _ _ _ Hout) as (kept & -> & Hlen & Hall).
  exists items. split; [reflexivity|]. split; [exact Hlen|].
  eapply Forall_impl; [exact Hall|]. simpl.
  intros r (Hu & item & Hin & Hn).
  destruct (new_rating_of_fields _ _ _ _ _ Hn) as (H1 & H2 & H3 & H4 & H5 & H6).
  split; [exact Hu|]. split; [exact H1|]. exists item. auto 10.
Qed.

Lemma get_rating_list_result_witness :
  let db := {| players := []; matches := []; stats := [];
               ratings := [sample_rating_row "s1" 10 4 3 1000] |} in
  let page := VDict [ ("tier", VStr "MASTER");
                      ("entries",
                        VList [ sample_rating_entry "s1" 10 4 3;
                                sample_rating_entry "s2" 55 9 1 ]) ] in
  exists out,
    get_rating_list db page "br1" true = Ok out
    /\ List.map (fun r => (r_summonerId r, r_tier r, r_region r)) out
       = [(VStr "s2", VStr "MASTER", VStr "br1")]
    /\ Forall (fun r => rating_up_to_date r db = false) out.
Proof.
  intros db page.
  destruct (get_rating_list db page "br1" true) as [out| |] eqn:E; try discriminate.
  exists out. split; [reflexivity|].
  destruct (get_rating_list_result db page "br1" true out E) as (items & _ & _ & H).
  split.
  - vm_compute in E. injection E as <-. reflexivity.
  - eapply Forall_impl; [exact H|]. simpl. tauto.
Defined.

(** ** The bootstrap row *)

Lemma sql_in_In (r : string) (regions : list string) :
  In r regions -> sql_in (VStr r) regions = true.
Proof.
  intros H. unfold sql_in. apply existsb_exists. exists r. split; [exact H|].
  apply sql_eq_str_refl.
Qed.

(** X10: The hand-off from the ladder worker: once [insert_starting_point] has
    inserted a row for a sub-region, [get_next_to_fetch] has a player for
    every region list that names the sub-region, the new row carries the
    default cursor, and the wait of [main_region_fetching] ends at its first
    test, without a sleep. *)
Theorem insert_starting_point_starts_region (player : value) (region_name : string)
    (db db' : DB) (regions : list string)
    (Hinsert : insert_starting_point player region_name db = (Ok tt, db'))
    (Hregion : In region_name regions) :
  (exists id icon sid,
     getitem player "puuid" = Ok id /\ getitem player "profileIconId" = Ok icon
     /\ getitem player "id" = Ok sid
     /\ players db'
        = players db
          ++ [ {| info := {| puuid := id; summonerId := sid; gameName := VNone;
                             tagLine := VNone; profileIconId := icon;
                             summonerLevel := VNone; region := VStr region_name |};
                  lastMatchFetch := default_lastMatchFetch |} ])
  /\ (exists np, get_next_to_fetch regions db' = Some np)
  /\ (forall fuel cur_region w,
        w_db w = db' ->
        await_start (S fuel) cur_region regions w = (Ok tt, w)).
Proof.
  unfold insert_starting_point in Hinsert.
  destruct (getitem player "puuid") as [id| |]; cbn [res_bind] in Hinsert;
    try (injection Hinsert; discriminate).
  destruct (getitem player "profileIconId") as [icon| |]; cbn [res_bind] in Hinsert;
    try (injection Hinsert; discriminate).
  destruct (getitem player "id") as [sid| |]; cbn [res_bind] in Hinsert;
    try (injection Hinsert; discriminate).
  unfold insert_player_list in Hinsert.
  destruct (puuid_constraints _ _); [|injection Hinsert; discriminate].
  injection Hinsert as Hdb. subst db'.
  assert (Hnext : exists np,
            get_next_to_fetch regions
              (set_players
                 (players db ++
                  List.map (fun p => {| info := p;
                                        lastMatchFetch := default_lastMatchFetch |})
                    [ {| puuid := id; summonerId := sid; gameName := VNone;
                         tagLine := VNone; profileIconId := icon;
                         summonerLevel := VNone; region := VStr region_name |} ])
                 db) = Some np).
  { unfold get_next_to_fetch. cbn [players set_players].
    rewrite List.filter_app. cbn [List.map List.filter info region].
    rewrite (sql_in_In _ _ Hregion).
    destruct (first_by lastMatchFetch _) as [x|] eqn:E; [eauto|].
    apply first_by_None in E. apply app_eq_nil in E as [_ E]. discriminate. }
  split; [exists id, icon, sid; repeat split|].
  split; [exact Hnext|].
  intros fuel cur_region w Hw. destruct Hnext as [np Hnp].
  assert (Hw' : get_next_to_fetch regions (w_db w) = Some np)
    by (rewrite Hw; exact Hnp).
  cbn [await_start]. unfold bind, query. rewrite Hw'. reflexivity.
Qed.

Lemma insert_starting_point_starts_region_witness :
  let summoner := VDict [ ("id", VStr "s-p9"); ("puuid", VStr "p9");
                          ("profileIconId", VInt 12); ("summonerLevel", VInt 40) ] in
  let db' := snd (insert_starting_point summoner "br1" empty_db) in
  get_next_to_fetch ["na1"; "br1"] empty_db = None
  /\ get_next_to_fetch ["na1"; "br1"] db'
     = Some {| np_puuid := VStr "p9"; np_lastFetch := default_lastMatchFetch |}.
Proof.
  intros summoner db'.
  destruct (insert_starting_point_starts_region summoner "br1" empty_db db'
              ["na1"; "br1"] eq_refl) as (_ & [np Hnp] & _).
  - simpl. tauto.
  - split; [reflexivity|]. rewrite Hnp. vm_compute in Hnp. symmetry. exact Hnp.
Defined.

(** ** Who is fetched next *)

Lemma update_first_keeps {A} (p : A -> bool) (f : A -> A) (rows : list A) (x : A) :
  In x rows -> p x = false -> In x (update_first p f rows).
Proof.
  intros Hin Hx. induction rows as [|y rest IH]; [destruct Hin|].
  simpl. destruct (p y) eqn:E.
  - destruct Hin as [->|Hin]; [congruence|]. right. exact Hin.
  - destruct Hin as [->|Hin]; [left; reflexivity|]. right. auto.
Qed.

Lemma sql_eq_VStr (v : value) (s : string) : sql_eq v (VStr s) = true -> v = VStr s.
Proof. destruct v; try discriminate; apply py_eq_VStr. Qed.

(** Under the constraints of the column, the rows after the one found under
    a puuid do not have that puuid. *)
Lemma unique_puuids_after (before after : list Player) (found : Player) (s : string) :
  puuid_constraints (List.map info (before ++ found :: after)) [] = true ->
  has_puuid (VStr s) found = true ->
  Forall (fun row => has_puuid (VStr s) row = false) after.
Proof.
  intros Hunique Hfound. apply sql_eq_VStr in Hfound.
  rewrite map_app, puuid_constraints_app in Hunique.
  apply andb_true_iff in Hunique as [_ Hrest].
  cbn [List.map] in Hrest. rewrite puuid_constraints_cons in Hrest.
  apply andb_true_iff in Hrest as [_ Hafter].
  apply List.Forall_forall. intros row Hrow.
  destruct (puuid_constraints_In _ _ (info row) Hafter) as [_ Hfresh];
    [apply in_map; exact Hrow|].
  cbn [existsb] in Hfresh. apply orb_false_iff in Hfresh as [Hne _].
  unfold has_puuid. rewrite <- Hfound. exact Hne.
Qed.

Lemma find_after {A} (p : A -> bool) (before rest : list A) :
  Forall (fun x => p x = false) before ->
  List.find p (before ++ rest) = List.find p rest.
Proof. induction 1 as [|x l Hx _ IH]; simpl; [|rewrite Hx]; auto. Qed.

(** X11: The assurance of [update_last_fetch]: it writes [now] into the cursor
    of the player, and then that player is not chosen again while another
    player of the regions has an earlier cursor: [get_next_to_fetch] returns
    a player with another puuid, whose cursor is at most the other
    player's, hence earlier than [now]. *)
Theorem update_last_fetch_lets_others_first (regions : list string) (db db' : DB)
    (s : string) (now_ : Z) (other : Player)
    (Hunique : unique_puuids db)
    (Hupdate : update_last_fetch now_ (VStr s) db = (Ok tt, db'))
    (Hother : In other (players db))
    (Hregion : sql_in (region (info other)) regions = true)
    (Hdistinct : has_puuid (VStr s) other = false)
    (Hearlier : lastMatchFetch other < now_) :
  (exists row,
     List.find (has_puuid (VStr s)) (players db') = Some row
     /\ lastMatchFetch row = now_)
  /\ exists np,
       get_next_to_fetch regions db' = Some np
       /\ sql_eq (np_puuid np) (VStr s) = false
       /\ np_lastFetch np <= lastMatchFetch other
       /\ np_lastFetch np < now_.
Proof.
  pose proof (update_last_fetch_exact now_ (VStr s) db) as Hexact.
  destruct (List.find (has_puuid (VStr s)) (players db)) as [found|] eqn:Hfind;
    [|rewrite Hexact in Hupdate; discriminate].
  destruct Hexact as (before & after & Hrows & Hbefore & Hfound & Hexact).
  rewrite Hexact in Hupdate. injection Hupdate as Hdb. subst db'.
  cbn [players].
  assert (Hafter : Forall (fun row => has_puuid (VStr s) row = false) after).
  { apply (unique_puuids_after before after found s); [|exact Hfound].
    unfold unique_puuids in Hunique. rewrite Hrows in Hunique. exact Hunique. }
  split.
  - exists {| info := info found; lastMatchFetch := now_ |}. split; [|reflexivity].
    rewrite (find_after _ _ _ Hbefore).
    cbn [List.find]. unfold has_puuid in Hfound |- *. cbn [info]. rewrite Hfound.
    reflexivity.
  - rewrite List.Forall_forall in Hbefore, Hafter.
    unfold get_next_to_fetch. cbn [players].
    set (rows := before ++ _ :: after).
    assert (Hin : In other (List.filter (fun p => sql_in (region (info p)) regions) rows)).
    { apply filter_In. split; [|exact Hregion].
      rewrite Hrows in Hother. subst rows.
      apply in_app_or in Hother as [H|[H|H]].
      - apply in_or_app. left. exact H.
      - subst other. congruence.
      - apply in_or_app. right. right. exact H. }
    destruct (first_by lastMatchFetch _) as [x|] eqn:E.
    + exists {| np_puuid := puuid (info x); np_lastFetch := lastMatchFetch x |}.
      split; [reflexivity|]. cbn [np_puuid np_lastFetch].
      pose proof (first_by_least _ _ _ E other Hin) as Hleast.
      apply first_by_In in E. apply filter_In in E as [Hx _].
      split; [|lia]. subst rows.
      apply in_app_or in Hx as [H|[H|H]].
      * apply (Hbefore x H).
      * subst x. cbn [lastMatchFetch] in Hleast. lia.
      * apply (Hafter x H).
    + apply first_by_None in E. rewrite E in Hin. destruct Hin.
Qed.

Lemma update_last_fetch_lets_others_first_witness :
  let db := set_players [sample_player "p1" "Ann" 1000; sample_player "p2" "Bob" 2000]
              empty_db in
  let db' := snd (update_last_fetch 5000 (VStr "p1") db) in
  get_next_to_fetch ["br1"] db = Some {| np_puuid := VStr "p1"; np_lastFetch := 1000 |}
  /\ exists np,
       get_next_to_fetch ["br1"] db' = Some np
       /\ sql_eq (np_puuid np) (VStr "p1") = false
       /\ np_lastFetch np <= 2000.
Proof.
  intros db db'. split; [reflexivity|].
  destruct (update_last_fetch_lets_others_first ["br1"] db db' "p1" 5000
              (sample_player "p2" "Bob" 2000) eq_refl eq_refl)
    as (_ & np & Hnp & Hne & Hle & _).
  - simpl. tauto.
  - reflexivity.
  - reflexivity.
  - reflexivity.
  - exists np. split; [exact Hnp|]. split; [exact Hne|exact Hle].
Defined.

(** ** One call of [fetch], whatever the reply *)

(** The first round of [fetch] on a fetcher as it is built, reply by
    reply. *)
Lemma fetch_as_built (u : url) (w : World) (session api_key : value)
    (rp : reply) (rest : list reply) :
  fetcher_as_built session api_key w ->
  w_script w = rp :: rest ->
  fetch u w
  = let after := world_after_request w u api_key (reply_elapsed rp) rest in
    match rp with
    | Failed _ => (Raise RequestException, after (w_self w))
    | Replied _ r =>
        if status_code r =? 200 then
          (match body r with Some v => Ok v | None => Raise ValueError end,
           after (<["retry_count" := VInt 0]> (w_self w)))
        else if status_code r =? 429 then
          match py_int (retry_after_or_1 r) with
          | Ok seconds =>
              (Raise (AttributeError "region"),
               after (<["retry_timer" := VInt seconds]> (w_self w)))
          | Raise e => (Raise e, after (w_self w))
          | Stuck => (Stuck, after (w_self w))
          end
        else (Raise (AttributeError "retry_counter"), after (w_self w))
    end.
Proof.
  intros (((timer & Htimer & Hidle) & Hsession & Hkey) & Hregion & Hcounter) Hscript.
  unfold fetch. rewrite Hscript. generalize (length (rp :: rest)) as n. intros n.
  cbn [fetch_loop].
  unfold bind at 1; unfold getattr at 1; rewrite Htimer;
  unfold bind at 1; unfold lift at 1; rewrite Hidle;
  unfold bind at 1; unfold ret at 1;
  unfold bind at 1; unfold getattr at 1; rewrite Hsession;
  unfold bind at 1; unfold getattr at 1; rewrite Hkey;
  unfold bind at 1; unfold session_get at 1; rewrite Hscript.
  destruct rp as [dt r|dt]; [|reflexivity]. cbn [reply_elapsed].
  destruct (status_code r =? 200).
  - unfold bind, setattr, response_json. destruct (body r); reflexivity.
  - destruct (status_code r =? 429).
    + unfold bind at 1. unfold lift at 1.
      destruct (py_int (retry_after_or_1 r)) as [seconds| |]; try reflexivity.
      unfold bind at 1. unfold setattr at 1.
      unfold bind at 1. unfold getattr at 1. cbn [w_self set_self].
      rewrite lookup_insert_ne by discriminate. rewrite Hregion. reflexivity.
    + unfold bind at 1. unfold getattr at 1. cbn [w_self]. rewrite Hcounter.
      reflexivity.
Qed.

(** X12: On a fetcher as [__init__] builds it, [fetch] sends exactly one request
    and never waits: the first reply decides.  It returns (the decoded
    body) exactly when the reply has status 200 and a JSON body, and then
    the fetcher is as before; on every other reply it raises.  The tables
    are not touched. *)
Theorem fetch_first_reply_decides (u : url) (w : World) (session api_key : value)
    (rp : reply) (rest : list reply)
    (Hbuilt : fetcher_as_built session api_key w)
    (Hscript : w_script w = rp :: rest) :
  let out := fetch u w in
  w_script (snd out) = rest
  /\ w_trace (snd out) = w_trace w ++ [EGet u api_key]
  /\ w_clock (snd out) = w_clock w + Z.of_N (reply_elapsed rp)
  /\ w_db (snd out) = w_db w
  /\ (forall v, fst out = Ok v <->
                exists dt r, rp = Replied dt r /\ status_code r = 200
                             /\ body r = Some v)
  /\ ((exists v, fst out = Ok v) \/ (exists e, fst out = Raise e))
  /\ ((exists v, fst out = Ok v) -> fetcher_as_built session api_key (snd out)).
Proof.
  intros out. subst out.
  rewrite (fetch_as_built u w session api_key rp rest Hbuilt Hscript).
  destruct Hbuilt as (((timer & Htimer & Hidle) & Hsession & Hkey) & Hregion & Hcounter).
  cbv zeta.
  assert (Hno : forall (A : Type) (e : exn) (P : Prop),
            (exists v : A, Raise e = Ok v) -> P).
  { intros A e P [v Hv]. discriminate. }
  destruct rp as [dt r|dt]; cbn [reply_elapsed].
  - destruct (Z.eqb_spec (status_code r) 200) as [H200|H200].
    + destruct (body r) as [v|] eqn:Hbody;
        cbn [fst snd world_after_request w_script w_trace w_clock w_db w_self];
        do 4 (split; [reflexivity|]).
      * split; [|split; [left; eauto|]].
        -- intros v'. split; [intros [= <-]; eauto|].
           intros (dt' & r' & [= <- <-] & _ & Hv). congruence.
        -- intros _. unfold fetcher_as_built, fetcher_ready, world_after_request.
           cbn [w_self].
           rewrite !lookup_insert_ne by discriminate. eauto 10.
      * split; [|split; [right; eauto|apply Hno]].
        intros v'. split; [discriminate|].
        intros (dt' & r' & [= <- <-] & _ & Hv). congruence.
    + assert (Hnot : forall v (res : res value),
                (exists e, res = Raise e) ->
                res = Ok v <->
                exists dt' r', Replied dt r = Replied dt' r'
                               /\ status_code r' = 200 /\ body r' = Some v).
      { intros v res [e ->]. split; [discriminate|].
        intros (dt' & r' & [= <- <-] & Hs & _). contradiction. }
      destruct (status_code r =? 429).
      * pose proof (py_int_unstuck (retry_after_or_1 r)) as Hunstuck.
        destruct (py_int (retry_after_or_1 r)) as [seconds|e|];
          [| |exfalso; apply Hunstuck; reflexivity];
          cbn [fst snd world_after_request w_script w_trace w_clock w_db w_self];
          do 4 (split; [reflexivity|]);
          (split; [intros v; apply Hnot; eauto|split; [right; eauto|apply Hno]]).
      * cbn [fst snd world_after_request w_script w_trace w_clock w_db w_self].
        do 4 (split; [reflexivity|]).
        split; [intros v; apply Hnot; eauto|split; [right; eauto|apply Hno]].
  - cbn [fst snd world_after_request w_script w_trace w_clock w_db w_self].
    do 4 (split; [reflexivity|]).
    split; [|split; [right; eauto|apply Hno]].
    intros v. split; [discriminate|]. intros (dt' & r' & Hr & _). discriminate.
Qed.

Lemma fetch_first_reply_decides_witness :
  let u := UrlMatchData "americas" (VStr "BR1_1") in
  let w := fresh_world (VStr "key")
             [status_reply 503 None; ok_reply (VStr "body")] 0 empty_db in
  w_script (snd (fetch u w)) = [ok_reply (VStr "body")]
  /\ w_trace (snd (fetch u w)) = [EGet u (VStr "key")]
  /\ exists e, fst (fetch u w) = Raise e.
Proof.
  intros u w.
  destruct (fetch_first_reply_decides u w (VOpaque "requests.Session") (VStr "key")
              (status_reply 503 None) [ok_reply (VStr "body")])
    as (Hscript & Htrace & _ & _ & _ & Hout & _).
  - unfold fetcher_as_built, fetcher_ready. repeat split; try reflexivity.
    exists (VInt 0). split; reflexivity.
  - reflexivity.
  - split; [exact Hscript|]. split; [exact Htrace|].
    destruct Hout as [[v Hv]|He]; [discriminate Hv|exact He].
Defined.

(** ** The backoff a 429 leaves behind *)

Lemma py_gt_VInt_0 (n : Z) : py_gt (VInt n) (VInt 0) = Ok (0 <? n).
Proof.
  unfold py_gt, py_lt, as_number, Qle_bool. cbn [inject_Z Qnum Qden].
  rewrite Z.mul_1_r, Z.ltb_antisym. reflexivity.
Qed.

Lemma sleep_VInt (n : Z) (w : World) :
  0 <= n -> sleep (VInt n) w = (Ok tt, emit (ESleep (VInt n)) (n * 1000000) w).
Proof.
  intros Hn. unfold sleep, as_number, Qle_bool. cbn [inject_Z Qnum Qden].
  rewrite !Z.mul_1_r. destruct (Z.leb_spec 0 n) as [_|]; [|lia].
  unfold microseconds. cbn [inject_Z Qnum Qden Qmult Pos.mul].
  rewrite Z.div_1_r. reflexivity.
Qed.

(** X13: A 429 makes [fetch] raise, but the backoff it recorded is served by
    the next call on the same fetcher: that call first sleeps for the
    recorded number of seconds, clears the timer and only then sends its
    request. *)
Theorem fetch_serves_recorded_backoff (u u' : url) (w : World)
    (session api_key : value) (dt1 dt2 : N) (r1 r2 : response) (seconds : Z)
    (v : value) (rest : list reply)
    (Hbuilt : fetcher_as_built session api_key w)
    (Hscript : w_script w = Replied dt1 r1 :: Replied dt2 r2 :: rest)
    (H429 : status_code r1 = 429)
    (Hseconds : py_int (retry_after_or_1 r1) = Ok seconds)
    (Hpositive : 0 < seconds)
    (H200 : status_code r2 = 200)
    (Hbody : body r2 = Some v) :
  let first := fetch u w in
  let second := fetch u' (snd first) in
  fst first = Raise (AttributeError "region")
  /\ fst second = Ok v
  /\ w_trace (snd second)
     = w_trace w ++ [EGet u api_key; ESleep (VInt seconds); EGet u' api_key]
  /\ w_clock (snd second)
     = w_clock w + Z.of_N dt1 + seconds * 1000000 + Z.of_N dt2
  /\ w_self (snd second) !! "retry_timer" = Some (VInt 0)
  /\ w_script (snd second) = rest.
Proof.
  intros first second. subst second first.
  rewrite (fetch_as_built u w session api_key _ _ Hbuilt Hscript).
  rewrite H429, Hseconds. cbn [Z.eqb Pos.eqb reply_elapsed fst snd].
  destruct Hbuilt as (((timer & Htimer & Hidle) & Hsession & Hkey) & Hregion & Hcounter).
  split; [reflexivity|].
  set (w1 := world_after_request _ _ _ _ _ _).
  assert (Hsecond :
    fetch u' w1
    = (Ok v,
       {| w_self := <["retry_count" := VInt 0]>
                      (<["retry_timer" := VInt 0]>
                         (<["retry_timer" := VInt seconds]> (w_self w)));
          w_script := rest;
          w_trace := (w_trace w1 ++ [ESleep (VInt seconds)]) ++ [EGet u' api_key];
          w_clock := w_clock w1 + seconds * 1000000 + Z.of_N dt2;
          w_db := w_db w |})).
  { unfold fetch. generalize (length (w_script w1)) as n. intros n.
    cbn [fetch_loop].
    unfold bind at 1. unfold getattr at 1.
    replace (w_self w1 !! "retry_timer") with (Some (VInt seconds))
      by (subst w1; cbn [w_self world_after_request]; by simplify_map_eq).
    unfold bind at 1. unfold lift at 1. rewrite py_gt_VInt_0.
    destruct (Z.ltb_spec 0 seconds) as [_|]; [|lia].
    unfold bind at 1. unfold bind at 1. unfold getattr at 1.
    replace (w_self w1 !! "retry_timer") with (Some (VInt seconds))
      by (subst w1; cbn [w_self world_after_request]; by simplify_map_eq).
    unfold bind at 1. rewrite sleep_VInt by lia.
    unfold setattr at 1.
    unfold bind at 1. unfold getattr at 1. cbn [w_self set_self emit].
    replace (<["retry_timer" := VInt 0]> (w_self w1) !! "session")
      with (Some session)
      by (subst w1; cbn [w_self world_after_request]; by simplify_map_eq).
    unfold bind at 1. unfold getattr at 1. cbn [w_self set_self emit].
    replace (<["retry_timer" := VInt 0]> (w_self w1) !! "api_key")
      with (Some api_key)
      by (subst w1; cbn [w_self world_after_request]; by simplify_map_eq).
    unfold bind at 1. unfold session_get at 1.
    cbn [w_self w_script w_trace w_clock w_db set_self emit].
    subst w1. cbn [w_self w_script w_trace w_clock w_db world_after_request].
    rewrite H200. cbn [Z.eqb Pos.eqb].
    unfold bind, setattr, response_json. rewrite Hbody. reflexivity. }
  rewrite Hsecond. cbn [fst snd w_self w_script w_trace w_clock].
  subst w1. cbn [w_trace w_clock world_after_request].
  split; [reflexivity|]. split; [rewrite <- !app_assoc; reflexivity|].
  split; [reflexivity|]. split; [by simplify_map_eq|reflexivity].
Qed.

Lemma fetch_serves_recorded_backoff_witness :
  let u := UrlMatchData "americas" (VStr "BR1_1") in
  let w := fresh_world (VStr "key")
             [status_reply 429 (Some "5"); ok_reply (VStr "body")] 0 empty_db in
  let second := fetch u (snd (fetch u w)) in
  fst second = Ok (VStr "body")
  /\ w_trace (snd second) = [EGet u (VStr "key"); ESleep (VInt 5); EGet u (VStr "key")]
  /\ w_clock (snd second) = 5000000.
Proof.
  intros u w second.
  destruct (fetch_serves_recorded_backoff u u w (VOpaque "requests.Session")
              (VStr "key") 0 0
              {| status_code := 429; retry_after := Some "5"; body := None |}
              {| status_code := 200; retry_after := None; body := Some (VStr "body") |}
              5 (VStr "body") [])
    as (_ & Hv & Htrace & Hclock & _).
  - unfold fetcher_as_built, fetcher_ready. repeat split; try reflexivity.
    exists (VInt 0). split; reflexivity.
  - reflexivity.
  - reflexivity.
  - reflexivity.
  - lia.
  - reflexivity.
  - reflexivity.
  - split; [exact Hv|]. split; [exact Htrace|exact Hclock].
Defined.

(** ** A round that completes *)

Lemma bind_Ok {A B} (m : M A) (k : A -> M B) (w w' : World) (b : B) :
  bind m k w = (Ok b, w') ->
  exists a w1, m w = (Ok a, w1) /\ k a w1 = (Ok b, w').
Proof.
  unfold bind. destruct (m w) as [[a|e|] w1]; intros H; try discriminate.
  exists a, w1. split; [reflexivity|exact H].
Qed.

(** X14: A round of the outer loop that completes has selected a player and
    ends by writing the clock into that player's cursor: in the tables it
    leaves, the row found under the selected puuid has the time of the end
    of the round as its cursor. *)
Theorem crawl_iteration_sets_cursor (cur_region : string) (sub_regions : list string)
    (w w' : World)
    (Hround : crawl_iteration cur_region sub_regions w = (Ok tt, w')) :
  exists np row,
    get_next_to_fetch sub_regions (w_db w) = Some np
    /\ List.find (has_puuid (np_puuid np)) (players (w_db w')) = Some row
    /\ lastMatchFetch row = w_clock w'.
Proof.
  unfold crawl_iteration in Hround.
  apply bind_Ok in Hround as (? & w1 & Hprint & Hround).
  injection Hprint as _ <-.
  apply bind_Ok in Hround as (next & w2 & Hnext & Hround).
  injection Hnext as <- <-. cbn [w_db emit] in Hround.
  apply bind_Ok in Hround as (collected & w3 & _ & Hround).
  apply bind_Ok in Hround as (? & w4 & _ & Hround).
  apply bind_Ok in Hround as (np & w5 & Hnp & Hround).
  destruct (get_next_to_fetch sub_regions (w_db w)) as [np'|]; [|discriminate].
  injection Hnp as Hnp Hw5. subst np' w5.
  apply bind_Ok in Hround as (t & w6 & Hnow & Hround).
  injection Hnow as Ht Hw6. subst t w6.
  unfold with_db, update_last_fetch in Hround.
  destruct (List.find (has_puuid (np_puuid np)) (players (w_db w4)))
    as [stored|] eqn:Hstored; [|discriminate].
  injection Hround as Hw'. subst w'. cbn [w_db w_clock set_db players set_players].
  exists np, {| info := info stored; lastMatchFetch := w_clock w4 |}.
  split; [reflexivity|]. split; [|reflexivity].
  rewrite find_update_first by (intros r Hr; exact Hr).
  rewrite Hstored. reflexivity.
Qed.

Lemma crawl_iteration_sets_cursor_witness :
  let w := fresh_world (VStr "key") [Replied 7 {| status_code := 200;
                                                   retry_after := None;
                                                   body := Some (VList []) |}]
             1716000000000000
             (set_players [sample_player "p1" "Ann" 1715000000000000] empty_db) in
  let w' := snd (crawl_iteration "americas" ["br1"] w) in
  w_clock w' = 1716000000000007
  /\ exists np row,
       get_next_to_fetch ["br1"] (w_db w) = Some np
       /\ List.find (has_puuid (np_puuid np)) (players (w_db w')) = Some row
       /\ lastMatchFetch row = w_clock w'.
Proof.
  intros w w'. split; [vm_compute; reflexivity|].
  apply (crawl_iteration_sets_cursor "americas" ["br1"] w w').
  vm_compute. reflexivity.
Defined.

(** ** The rows [insert_stats_list] looks up *)

Lemma get_match_info_matchId (data : value) (mi : match_info) :
  get_match_info data = Ok (Some mi) ->
  subscript data [K "metadata"; K "matchId"] = Ok (matchId mi).
Proof.
  unfold get_match_info.
  destruct (get_match_info_body data) as [[mi'|]|cause|] eqn:Hb; intros H;
    try discriminate.
  - injection H as ->. unfold get_match_info_body in Hb.
    destruct (subscript data [K "info"; K "endOfGameResult"]) as [result| |];
      cbn [res_bind] in Hb; try discriminate.
    destruct (negb (py_eq result (VStr "Abort_Unexpected"))); [|discriminate].
    destruct (subscript data [K "info"; K "gameVersion"]);
      cbn [res_bind] in Hb; try discriminate.
    destruct (subscript data [K "metadata"; K "matchId"]) as [m| |];
      cbn [res_bind] in Hb; try discriminate.
    repeat match type of Hb with
           | res_bind ?r _ = Ok _ =>
               destruct r; cbn [res_bind] in Hb; try discriminate
           end.
    injection Hb as <-. reflexivity.
  - destruct (subscript data [K "metadata"; K "matchId"]); discriminate.
Qed.

Lemma known_puuid_puuids (id : value) (rows : list Player) :
  existsb (has_puuid id) rows
  = existsb (fun v => sql_eq v id) (List.map puuid (List.map info rows)).
Proof. induction rows as [|x rest IH]; simpl; [|rewrite IH]; reflexivity. Qed.

Lemma update_player_if_exists_known (id : value) (player : player_info)
    (matchDate : Z) (db : DB) :
  known_puuid id (snd (update_player_if_exists player matchDate db))
  = known_puuid id db.
Proof.
  rewrite update_player_if_exists_eq.
  destruct (List.find _ (players db)) as [stored|]; [|reflexivity].
  destruct (matchDate <? lastMatchFetch stored); [|reflexivity].
  unfold known_puuid. cbn [snd players set_players].
  rewrite !known_puuid_puuids, update_first_puuids; reflexivity.
Qed.

Lemma first_id_Some {A} (p : A -> bool) (rows : list A) :
  existsb p rows = true -> exists n, first_id p rows = Some n.
Proof.
  induction rows as [|x rest IH]; simpl; [discriminate|].
  destruct (p x); [eauto|]. simpl. intros H. destruct (IH H) as [n ->].
  simpl. eauto.
Qed.

Lemma for_each_Ok {A B} (f : A -> res B) (items : list A) :
  Forall (fun x => exists y, f x = Ok y) items ->
  exists out, for_each f items = Ok out.
Proof.
  induction 1 as [|x rest [y Hy] _ [out IH]]; simpl; [eauto|].
  rewrite Hy, IH. simpl. eauto.
Qed.

(** The loop over the participants always returns; every participant is
    then either in the batch to insert or known to the table, and players
    that were known stay known. *)
Lemma player_loop_covers (p_info : list player_info) (start : Z)
    (batch : list player_info) (w : World) :
  exists new_p_info w1,
    player_loop p_info start batch w = (Ok new_p_info, w1)
    /\ (forall id, known_puuid id (w_db w1) = known_puuid id (w_db w))
    /\ (forall p, In p batch -> In p new_p_info)
    /\ (forall p, In p p_info ->
                  In p new_p_info \/ known_puuid (puuid p) (w_db w1) = true).
Proof.
  revert batch w. induction p_info as [|player rest IH]; intros batch w.
  - exists batch, w. repeat split; auto.
  - cbn [player_loop]. unfold bind at 1. unfold with_db at 1.
    pose proof (update_player_if_exists_known) as Hknown.
    specialize (fun id => Hknown id player start (w_db w)).
    rewrite update_player_if_exists_eq in *.
    destruct (List.find (has_puuid (puuid player)) (players (w_db w)))
      as [stored|] eqn:Hstored.
    + assert (Hp : known_puuid (puuid player) (w_db w) = true).
      { apply existsb_exists. exists stored. apply find_some in Hstored. exact Hstored. }
      set (db1 := snd (if start <? lastMatchFetch stored then _ else _)) in *.
      destruct (IH batch (set_db db1 w)) as (new & w1 & Hloop & Hkeep & Hbatch & Hcover).
      exists new, w1. cbn [w_db set_db] in Hkeep.
      split; [|split; [|split]].
      * rewrite <- Hloop. subst db1.
        destruct (start <? lastMatchFetch stored); reflexivity.
      * intros id. rewrite Hkeep. apply Hknown.
      * exact Hbatch.
      * intros p [<-|Hin]; [|auto]. right. rewrite Hkeep, Hknown. exact Hp.
    + cbn [snd] in Hknown. cbn [py_eq].
      destruct (IH (batch ++ [player]) (set_db (w_db w) w))
        as (new & w1 & Hloop & Hkeep & Hbatch & Hcover).
      exists new, w1. cbn [w_db set_db] in Hkeep.
      split; [exact Hloop|]. split; [exact Hkeep|]. split.
      * intros p Hin. apply Hbatch. apply in_or_app. left. exact Hin.
      * intros p [<-|Hin]; [|auto]. left. apply Hbatch. apply in_or_app.
        right. left. reflexivity.
Qed.

(** X15: The docstrings of [get_player_id] and [get_match_id] assume that the
    row is already registered.  In the body of the match loop that is so:
    for a payload the three transformers accept, with string puuids and a
    string match id, once the loop over the participants has run, the new
    players have been inserted and the match row is in the table, both
    lookups find their row for every stats mapping, so the loop of
    [insert_stats_list] over the mappings completes. *)
Theorem store_match_finds_its_rows (data : value) (mi : match_info)
    (p_info new_p_info : list player_info)
    (p_stats : list (list (string * value))) (w w1 : World) (db2 db3 : DB)
    (Hinfo : get_match_info data = Ok (Some mi))
    (Hplayers : get_player_info data = Ok p_info)
    (Hstats : get_player_stats data = Ok p_stats)
    (Hpuuids : Forall (fun p => exists s, puuid p = VStr s) p_info)
    (Hid : exists s, matchId mi = VStr s)
    (Hloop : player_loop p_info (matchStart mi) [] w = (Ok new_p_info, w1))
    (Hinsert : insert_player_list new_p_info (w_db w1) = (Ok tt, db2))
    (Hsame : players db3 = players db2)
    (Hmatch : In mi (matches db3)) :
  Forall (fun stat =>
            exists p m pid mid,
              lookup_key "playerId" stat = Some p
              /\ lookup_key "matchId" stat = Some m
              /\ get_player_id p db3 = Ok pid
              /\ get_match_id m db3 = Ok mid)
         p_stats
  /\ exists resolved, for_each (resolve_stat db3) p_stats = Ok resolved.
Proof.
  pose proof (player_stats_aligned data p_info p_stats Hplayers Hstats) as Haligned.
  pose proof (get_match_info_matchId data mi Hinfo) as Hmid.
  destruct (player_loop_covers p_info (matchStart mi) [] w)
    as (new & w1' & Hloop' & Hkeep & _ & Hcover).
  rewrite Hloop in Hloop'. injection Hloop' as <- <-.
  unfold insert_player_list in Hinsert.
  destruct (puuid_constraints new_p_info _); [|discriminate].
  injection Hinsert as Hdb2.
  assert (Hfound : forall p, In p p_info -> known_puuid (puuid p) db3 = true).
  { intros p Hin. unfold known_puuid. rewrite Hsame, <- Hdb2.
    cbn [players set_players]. rewrite existsb_app.
    apply orb_true_iff.
    destruct (Hcover p Hin) as [Hnew|Hold]; [right|left; exact Hold].
    apply existsb_exists.
    exists {| info := p; lastMatchFetch := default_lastMatchFetch |}.
    split; [apply in_map_iff; eauto|].
    rewrite List.Forall_forall in Hpuuids. destruct (Hpuuids p Hin) as [s Hs].
    unfold has_puuid. cbn [info]. rewrite Hs. apply sql_eq_str_refl. }
  assert (Hfirst : exists n,
            first_id (fun m => sql_eq (matchId m) (matchId mi)) (matches db3)
            = Some n).
  { apply first_id_Some. apply existsb_exists. exists mi. split; [exact Hmatch|].
    destruct Hid as [s ->]. apply sql_eq_str_refl. }
  assert (Hall : Forall (fun stat =>
                           exists p m pid mid,
                             lookup_key "playerId" stat = Some p
                             /\ lookup_key "matchId" stat = Some m
                             /\ get_player_id p db3 = Ok pid
                             /\ get_match_id m db3 = Ok mid)
                        p_stats).
  { clear -Haligned Hfound Hfirst Hmid.
    induction Haligned as [|p stat ps stats [Hp (m & Hm & Hm')] _ IH];
      constructor.
    - rewrite Hmid in Hm'. injection Hm' as <-.
      destruct (first_id_Some (has_puuid (puuid p)) (players db3)) as [n Hn].
      { apply Hfound. left. reflexivity. }
      destruct Hfirst as [k Hk].
      exists (puuid p), (matchId mi), (VInt n), (VInt k).
      unfold get_player_id, get_match_id. rewrite Hn, Hk. auto.
    - apply IH. intros q Hq. apply Hfound. right. exact Hq. }
  split; [exact Hall|].
  apply for_each_Ok. eapply Forall_impl; [exact Hall|]. cbn beta.
  intros stat (p & m & pid & mid & Hp & Hm & Hpid & Hmd).
  unfold resolve_stat, getitem. rewrite Hp. cbn [res_bind]. rewrite Hpid.
  cbn [res_bind]. rewrite lookup_key_setitem_ne by discriminate. rewrite Hm.
  cbn [res_bind]. rewrite Hmd. cbn [res_bind]. eauto.
Qed.

Lemma store_match_finds_its_rows_witness :
  let data := sample_match "BR1_1" "GameComplete" 1715000000000 1800
                [sample_participant "p1" "Ann" 100; sample_participant "p2" "Bob" 200] in
  let w := fresh_world (VStr "key") [] 1716000000000000
             (set_players [sample_player "p2" "Bob" 1714000000000000] empty_db) in
  exists mi p_stats db2 resolved,
    get_match_info data = Ok (Some mi)
    /\ get_player_stats data = Ok p_stats
    /\ List.map (fun row => puuid (info row)) (players db2) = [VStr "p2"; VStr "p1"]
    /\ for_each (resolve_stat (insert_match mi db2)) p_stats = Ok resolved.
Proof.
  intros data w.
  let v := eval vm_compute in (get_match_info data) in
  lazymatch v with Ok (Some ?x) => pose (mi := x) end.
  let v := eval vm_compute in (get_player_info data) in
  lazymatch v with Ok ?x => pose (p_info := x) end.
  let v := eval vm_compute in (get_player_stats data) in
  lazymatch v with Ok ?x => pose (p_stats := x) end.
  let v := eval vm_compute in (player_loop p_info (matchStart mi) [] w) in
  lazymatch v with (Ok ?x, ?y) => pose (new_p_info := x); pose (w1 := y) end.
  let v := eval vm_compute in (insert_player_list new_p_info (w_db w1)) in
  lazymatch v with (Ok tt, ?x) => pose (db2 := x) end.
  destruct (store_match_finds_its_rows data mi p_info new_p_info p_stats w w1 db2
              (insert_match mi db2)) as [_ [resolved Hresolved]].
  - vm_compute. reflexivity.
  - vm_compute. reflexivity.
  - vm_compute. reflexivity.
  - repeat constructor; eexists; reflexivity.
  - eexists. reflexivity.
  - vm_compute. reflexivity.
  - vm_compute. reflexivity.
  - reflexivity.
  - apply in_or_app. right. left. reflexivity.
  - exists mi, p_stats, db2, resolved.
    split; [vm_compute; reflexivity|]. split; [vm_compute; reflexivity|].
    split; [vm_compute; reflexivity|exact Hresolved].
Defined.


(** ** The cursors of a run *)

Lemma crawl_loop_in_past_witness :
  let w := fresh_world (VStr "key")
             [ok_reply (VList [VStr "BR1_1"]);
              ok_reply (sample_match "BR1_1" "GameComplete" 1715000000000 1800
                          [sample_participant "p1" "Ann" 100;
                           sample_participant "p2" "Bob" 200]);
              ok_reply (VList [])]
             1716000000000000
             (set_players [sample_player "p1" "Ann" 1715500000000000] empty_db) in
  let w' := snd (crawl_loop 3 "americas" ["br1"] w) in
  List.map lastMatchFetch (players (w_db w')) = [1716000000000000; 1716000000000000]
  /\ cursors_in_past w'.
Proof.
  intros w w'. split; [vm_compute; reflexivity|].
  apply (crawl_loop_in_past 3 "americas" ["br1"] w).
  split; [vm_compute; discriminate|].
  repeat constructor. vm_compute. discriminate.
Defined.

(** ** Rows are only added *)

Lemma appended_only_refl (db : DB) : appended_only db db.
Proof. repeat split; exists []; rewrite app_nil_r; reflexivity. Qed.

Lemma appended_only_trans (a b c : DB) :
  appended_only a b -> appended_only b c -> appended_only a c.
Proof.
  intros ([r Hr] & [m Hm] & [s Hs] & [p Hp]) ([r' Hr'] & [m' Hm'] & [s' Hs'] & [p' Hp']).
  split; [|split; [|split]].
  - exists (r ++ r'). rewrite Hr', Hr, app_assoc. reflexivity.
  - exists (m ++ m'). rewrite Hm', Hm, app_assoc. reflexivity.
  - exists (s ++ s'). rewrite Hs', Hs, app_assoc. reflexivity.
  - exists (p ++ p'). rewrite Hp', Hp, app_assoc. reflexivity.
Qed.

Lemma appended_only_same (db db' : DB) :
  ratings db' = ratings db -> matches db' = matches db -> stats db' = stats db ->
  List.map puuid (List.map info (players db'))
  = List.map puuid (List.map info (players db)) ->
  appended_only db db'.
Proof.
  intros Hr Hm Hs Hp.
  repeat split; exists []; rewrite app_nil_r; assumption.
Qed.

(** X17: The loop of the crawler only adds.  Whatever its rounds do and
    however it ends, its statements have removed or rewritten no rating,
    match or stats row, and have left the player rows they found in place
    and under the same puuid; what is new comes after what was there. *)
Theorem crawl_loop_appends_only (fuel : nat) (cur_region : string)
    (sub_regions : list string) (w : World) :
  appended_only (w_db w) (w_db (snd (crawl_loop fuel cur_region sub_regions w))).
Proof.
  apply (keeps_crawl_loop appended_only).
  - apply appended_only_refl.
  - apply appended_only_trans.
  - intros player matchDate db. rewrite update_player_if_exists_eq.
    destruct (List.find _ (players db)) as [stored|]; [|apply appended_only_refl].
    destruct (matchDate <? lastMatchFetch stored); [|apply appended_only_refl].
    apply appended_only_same; try reflexivity.
    apply update_first_puuids. reflexivity.
  - intros data_list db. unfold insert_player_list.
    destruct (puuid_constraints data_list _); [|apply appended_only_refl].
    split; [|split; [|split]];
      try (exists []; rewrite app_nil_r; reflexivity).
    cbn [snd players set_players]. rewrite !map_app. eauto.
  - intros data db. split; [|split; [|split]];
      try (exists []; rewrite app_nil_r; reflexivity).
    exists [data]. reflexivity.
  - intros data_list db. unfold insert_stats_list.
    destruct (for_each _ _); try apply appended_only_refl.
    split; [|split; [|split]];
      try (exists []; rewrite app_nil_r; reflexivity).
    cbn [snd stats]. eauto.
  - intros t id db. unfold update_last_fetch.
    destruct (List.find _ (players db)); [|apply appended_only_refl].
    apply appended_only_same; try reflexivity.
    apply update_first_puuids. reflexivity.
Qed.
